(** * Account rotation of the AutoX API managers

    A shallow embedding of [autox_ai/api_manager_enhanced.py]
    ([EnhancedAPIManager]) and of the health update of
    [autox_ai/api_manager.py] ([AutoXAIManager]), with the properties of the
    account status bookkeeping, of account selection, of the retry loop and
    of the persisted health snapshot.

    Conventions of the embedding.
    - Python floats and ints that hold scores, factors and durations are
      exact rationals ([Q]); integer counters are [Z].
    - A [datetime] is a rational number of minutes since an arbitrary
      epoch, a [timedelta(minutes=x)] is [x].  One call of an operation
      reads the clock once: every [datetime.now()] inside it is the
      argument [now].
    - [HEALTH_DECAY_RATE ** x] is a real power; it is the section variable
      [fpow], about which nothing is assumed.
    - The dictionary [account_status] has the keys [0 .. n-1] inserted in
      that order, so it is a list indexed by account position. *)

From Stdlib Require Import ZArith QArith Qminmax Qround Lia Lqa Ascii String.
From stdpp Require Import base option list gmap strings.

Local Open Scope Q_scope.

(** ** Constants *)

(** [config.py] *)
Definition RETRY_LIMIT : nat := 3.
Definition RATE_LIMIT_COOLDOWN : Q := 15.
Definition REQUEST_TIMEOUT : Q := 30.
Definition BACKOFF_BASE : Q := 1 # 10.

(** [api_manager_enhanced.py] *)
Definition HEALTH_DECAY_RATE : Q := 95 # 100.
Definition MIN_HEALTH_FOR_PRIMARY : Q := 50.
Definition HEALTH_CHECK_INTERVAL : Q := 60 * 30.
Definition MAX_CONSECUTIVE_FAILURES : Z := 5.
Definition BLACKLIST_DURATION : Q := 30.
Definition HEALTH_RECOVERY_RATE : Q := 2.
Definition HEALTH_PENALTY_RATE : Q := 10.

(** ** Data *)

Definition time := Q.

(** Boolean comparisons of rationals, as Python's [<], [>] and [==]. *)
Definition Qltb (x y : Q) : bool := negb (Qle_bool y x).
Definition Qgtb (x y : Q) : bool := Qltb y x.


(** The status dictionary of one account ([_create_default_status] lists
    its keys).  The four timestamp entries have type [T]: [option time] in
    a running manager, a Python value in a snapshot that is being loaded or
    saved. *)
Record status_ (T : Type) := mkStatus {
  failures : Z;
  consecutive_failures : Z;
  rate_limited_until : T;
  blacklisted_until : T;
  last_success : T;
  total_requests : Z;
  total_failures : Z;
  health_score : Q;
  cooldown_multiplier : Q;
  last_used : T;
  avg_response_time : option Q;
  response_times : list Q;
  error_types : gmap string Z;
  last_error : option string;
  success_streak : Z
}.

Arguments mkStatus {T}.
Arguments failures {T}.
Arguments consecutive_failures {T}.
Arguments rate_limited_until {T}.
Arguments blacklisted_until {T}.
Arguments last_success {T}.
Arguments total_requests {T}.
Arguments total_failures {T}.
Arguments health_score {T}.
Arguments cooldown_multiplier {T}.
Arguments last_used {T}.
Arguments avg_response_time {T}.
Arguments response_times {T}.
Arguments error_types {T}.
Arguments last_error {T}.
Arguments success_streak {T}.

Definition status := status_ (option time).

(** Assignments [status[key] = v]. *)
Section Setters.
Context {T : Type}.
Implicit Type s : status_ T.

Definition set_failures v s :=
  mkStatus v (consecutive_failures s) (rate_limited_until s) (blacklisted_until s)
    (last_success s) (total_requests s) (total_failures s) (health_score s)
    (cooldown_multiplier s) (last_used s) (avg_response_time s) (response_times s)
    (error_types s) (last_error s) (success_streak s).
Definition set_consecutive_failures v s :=
  mkStatus (failures s) v (rate_limited_until s) (blacklisted_until s)
    (last_success s) (total_requests s) (total_failures s) (health_score s)
    (cooldown_multiplier s) (last_used s) (avg_response_time s) (response_times s)
    (error_types s) (last_error s) (success_streak s).
Definition set_rate_limited_until v s :=
  mkStatus (failures s) (consecutive_failures s) v (blacklisted_until s)
    (last_success s) (total_requests s) (total_failures s) (health_score s)
    (cooldown_multiplier s) (last_used s) (avg_response_time s) (response_times s)
    (error_types s) (last_error s) (success_streak s).
Definition set_blacklisted_until v s :=
  mkStatus (failures s) (consecutive_failures s) (rate_limited_until s) v
    (last_success s) (total_requests s) (total_failures s) (health_score s)
    (cooldown_multiplier s) (last_used s) (avg_response_time s) (response_times s)
    (error_types s) (last_error s) (success_streak s).
Definition set_last_success v s :=
  mkStatus (failures s) (consecutive_failures s) (rate_limited_until s) (blacklisted_until s)
    v (total_requests s) (total_failures s) (health_score s)
    (cooldown_multiplier s) (last_used s) (avg_response_time s) (response_times s)
    (error_types s) (last_error s) (success_streak s).
Definition set_total_requests v s :=
  mkStatus (failures s) (consecutive_failures s) (rate_limited_until s) (blacklisted_until s)
    (last_success s) v (total_failures s) (health_score s)
    (cooldown_multiplier s) (last_used s) (avg_response_time s) (response_times s)
    (error_types s) (last_error s) (success_streak s).
Definition set_total_failures v s :=
  mkStatus (failures s) (consecutive_failures s) (rate_limited_until s) (blacklisted_until s)
    (last_success s) (total_requests s) v (health_score s)
    (cooldown_multiplier s) (last_used s) (avg_response_time s) (response_times s)
    (error_types s) (last_error s) (success_streak s).
Definition set_health_score v s :=
  mkStatus (failures s) (consecutive_failures s) (rate_limited_until s) (blacklisted_until s)
    (last_success s) (total_requests s) (total_failures s) v
    (cooldown_multiplier s) (last_used s) (avg_response_time s) (response_times s)
    (error_types s) (last_error s) (success_streak s).
Definition set_cooldown_multiplier v s :=
  mkStatus (failures s) (consecutive_failures s) (rate_limited_until s) (blacklisted_until s)
    (last_success s) (total_requests s) (total_failures s) (health_score s)
    v (last_used s) (avg_response_time s) (response_times s)
    (error_types s) (last_error s) (success_streak s).
Definition set_last_used v s :=
  mkStatus (failures s) (consecutive_failures s) (rate_limited_until s) (blacklisted_until s)
    (last_success s) (total_requests s) (total_failures s) (health_score s)
    (cooldown_multiplier s) v (avg_response_time s) (response_times s)
    (error_types s) (last_error s) (success_streak s).
Definition set_avg_response_time v s :=
  mkStatus (failures s) (consecutive_failures s) (rate_limited_until s) (blacklisted_until s)
    (last_success s) (total_requests s) (total_failures s) (health_score s)
    (cooldown_multiplier s) (last_used s) v (response_times s)
    (error_types s) (last_error s) (success_streak s).
Definition set_response_times v s :=
  mkStatus (failures s) (consecutive_failures s) (rate_limited_until s) (blacklisted_until s)
    (last_success s) (total_requests s) (total_failures s) (health_score s)
    (cooldown_multiplier s) (last_used s) (avg_response_time s) v
    (error_types s) (last_error s) (success_streak s).
Definition set_error_types v s :=
  mkStatus (failures s) (consecutive_failures s) (rate_limited_until s) (blacklisted_until s)
    (last_success s) (total_requests s) (total_failures s) (health_score s)
    (cooldown_multiplier s) (last_used s) (avg_response_time s) (response_times s)
    v (last_error s) (success_streak s).
Definition set_last_error v s :=
  mkStatus (failures s) (consecutive_failures s) (rate_limited_until s) (blacklisted_until s)
    (last_success s) (total_requests s) (total_failures s) (health_score s)
    (cooldown_multiplier s) (last_used s) (avg_response_time s) (response_times s)
    (error_types s) v (success_streak s).
Definition set_success_streak v s :=
  mkStatus (failures s) (consecutive_failures s) (rate_limited_until s) (blacklisted_until s)
    (last_success s) (total_requests s) (total_failures s) (health_score s)
    (cooldown_multiplier s) (last_used s) (avg_response_time s) (response_times s)
    (error_types s) (last_error s) v.
End Setters.

(** [_create_default_status] *)
Definition _create_default_status : status :=
  {| failures := 0;
     consecutive_failures := 0;
     rate_limited_until := None;
     blacklisted_until := None;
     last_success := None;
     total_requests := 0;
     total_failures := 0;
     health_score := 100;
     cooldown_multiplier := 1;
     last_used := None;
     avg_response_time := None;
     response_times := [];
     error_types := ∅;
     last_error := None;
     success_streak := 0 |}.

(** ** Python values in a snapshot *)

(** What a timestamp entry of a status dictionary can hold while a snapshot
    is loaded or saved: [None], a string, a number or a boolean as
    [json.load] returns them, or a [datetime]. *)
Inductive pyval :=
  | PNone
  | PStr (s : string)
  | PNum (q : Q)
  | PBool (b : bool)
  | PTime (t : time).

(** Python's truth value: [None], the empty string, zero and [False] are
    false, every [datetime] is true. *)
Definition truthy (v : pyval) : bool :=
  match v with
  | PNone => false
  | PStr s => negb (String.eqb s EmptyString)
  | PNum q => negb (Qeq_bool q 0)
  | PBool b => b
  | PTime _ => true
  end.

Definition py_of_time (o : option time) : pyval :=
  match o with Some t => PTime t | None => PNone end.

Definition time_of_py (v : pyval) : option (option time) :=
  match v with
  | PNone => Some None
  | PTime t => Some (Some t)
  | _ => None
  end.

Definition map_times {A B : Type} (f : A -> B) (s : status_ A) : status_ B :=
  mkStatus (failures s) (consecutive_failures s) (f (rate_limited_until s))
    (f (blacklisted_until s)) (f (last_success s)) (total_requests s)
    (total_failures s) (health_score s) (cooldown_multiplier s) (f (last_used s))
    (avg_response_time s) (response_times s) (error_types s) (last_error s)
    (success_streak s).

(** A running status seen as a dictionary of Python values, and back when
    every timestamp entry is [None] or a [datetime]. *)
Definition to_raw (s : status) : status_ pyval := map_times py_of_time s.

Definition of_raw (r : status_ pyval) : option status :=
  rl ← time_of_py (rate_limited_until r);
  bl ← time_of_py (blacklisted_until r);
  ls ← time_of_py (last_success r);
  lu ← time_of_py (last_used r);
  Some (mkStatus (failures r) (consecutive_failures r) rl bl ls (total_requests r)
          (total_failures r) (health_score r) (cooldown_multiplier r) lu
          (avg_response_time r) (response_times r) (error_types r) (last_error r)
          (success_streak r)).

(** The content of [storagex_data/api_health.json]: absent, not readable
    as JSON, or an object from account id to status. *)
Inductive health_file :=
  | NoFile
  | Unreadable
  | Stored (snapshot : gmap string (status_ pyval)).

Record account := mkAccount {
  api_key : string;
  account_id : string
}.

(** [l[-10:]] *)
Definition last10 {A : Type} (l : list A) : list A := drop (length l - 10) l.

(** [sum(l) / len(l)] *)
Definition Qsum (l : list Q) : Q := foldr Qplus 0 l.
Definition average (l : list Q) : Q := Qsum l / inject_Z (Z.of_nat (length l)).

(** ** The Python runtime *)

(** The float power, and [datetime.isoformat] with
    [datetime.fromisoformat] ([None] where it raises [ValueError]). *)
Class Runtime := {
  fpow : Q -> Q -> Q;
  isoformat : time -> string;
  fromisoformat : string -> option time
}.

(** ** The manager *)

Record manager := mkManager {
  accounts : list account;
  current_index : nat;
  account_status : list status;
  last_health_check : time;
  health_check_file : health_file
}.

Definition set_current_index (i : nat) (m : manager) : manager :=
  mkManager (accounts m) i (account_status m) (last_health_check m) (health_check_file m).
Definition set_account_status (l : list status) (m : manager) : manager :=
  mkManager (accounts m) (current_index m) l (last_health_check m) (health_check_file m).
Definition set_last_health_check (t : time) (m : manager) : manager :=
  mkManager (accounts m) (current_index m) (account_status m) t (health_check_file m).
Definition set_health_check_file (f : health_file) (m : manager) : manager :=
  mkManager (accounts m) (current_index m) (account_status m) (last_health_check m) f.

(** The in-place update of the dictionary [account_status[index]]. *)
Definition put_status (index : nat) (s : status) (m : manager) : manager :=
  set_account_status (<[index := s]> (account_status m)) m.

Section Manager.
Context {RT : Runtime}.

(** *** Persistence *)

(** One timestamp entry in [_save_account_status]: a true value is
    replaced by its [isoformat()]; only a [datetime] has that method
    ([None] of the result: [AttributeError]). *)
Definition save_field (v : pyval) : option pyval :=
  if truthy v then
    match v with
    | PTime t => Some (PStr (isoformat t))
    | _ => None
    end
  else Some v.

Definition save_status (r : status_ pyval) : option (status_ pyval) :=
  rl ← save_field (rate_limited_until r);
  ls ← save_field (last_success r);
  lu ← save_field (last_used r);
  bl ← save_field (blacklisted_until r);
  let rts := if (10 <? length (response_times r))%nat
             then last10 (response_times r) else response_times r in
  Some (mkStatus (failures r) (consecutive_failures r) rl bl ls (total_requests r)
          (total_failures r) (health_score r) (cooldown_multiplier r) lu
          (avg_response_time r) rts (error_types r) (last_error r)
          (success_streak r)).

(** The loop of [_save_account_status] over [account_status.items()];
    [accounts[i]] of an index without account raises. *)
Fixpoint serialize (accs : list account) (sts : list (status_ pyval))
    (out : gmap string (status_ pyval)) : option (gmap string (status_ pyval)) :=
  match sts, accs with
  | [], _ => Some out
  | r :: sts', a :: accs' =>
      c ← save_status r;
      serialize accs' sts' (<[account_id a := c]> out)
  | _ :: _, [] => None
  end.

(** [_save_account_status]: any exception is logged and the file is left
    as it was. *)
Definition _save_account_status (m : manager) : manager :=
  match serialize (accounts m) (to_raw <$> account_status m) ∅ with
  | Some snap => set_health_check_file (Stored snap) m
  | None => m
  end.

(** One timestamp entry in [_initialize_account_status]: a true value is
    parsed, and [None] is stored when parsing raises [ValueError] (a
    string that is no timestamp) or [TypeError] (not a string). *)
Definition load_field (v : pyval) : pyval :=
  if truthy v then
    match v with
    | PStr s => match fromisoformat s with Some t => PTime t | None => PNone end
    | _ => PNone
    end
  else v.

Definition load_status (r : status_ pyval) : status_ pyval :=
  map_times load_field r.

(** [_initialize_account_status] and [_initialize_default_status]: the
    status of every account, from the file where it has one. *)
Definition _initialize_default_status (accs : list account) : list (status_ pyval) :=
  (fun _ => to_raw _create_default_status) <$> accs.

Definition _initialize_account_status (accs : list account) (f : health_file)
    : list (status_ pyval) :=
  match f with
  | Stored saved_status =>
      let loaded := load_status <$> saved_status in
      (fun a => match loaded !! account_id a with
                | Some r => r
                | None => to_raw _create_default_status
                end) <$> accs
  | _ => _initialize_default_status accs
  end.

(** *** Availability and health *)

(** [is_account_available] on one status. *)
Definition available (now : time) (s : status) : bool :=
  match rate_limited_until s with
  | Some t => if Qgtb t now then false else
      match blacklisted_until s with
      | Some b => negb (Qgtb b now)
      | None => true
      end
  | None =>
      match blacklisted_until s with
      | Some b => negb (Qgtb b now)
      | None => true
      end
  end.

Definition is_account_available (now : time) (index : nat) (m : manager) : option bool :=
  available now <$> account_status m !! index.

(** Hours between [t] and [now]: [(now - t).total_seconds() / 3600]. *)
Definition hours_since (now t : time) : Q := (now - t) * 60 / 3600.

(** [_update_health_score] on one status. *)
Definition update_health (now : time) (change : Q) (s : status) : status :=
  let s :=
    match last_used s with
    | Some lu =>
        let time_since_last_use := hours_since now lu in
        let decay_factor := fpow HEALTH_DECAY_RATE (time_since_last_use / 24) in
        set_health_score (health_score s * decay_factor) s
    | None => s
    end in
  set_health_score (Qmax 0 (Qmin 100 (health_score s + change))) s.

Definition _update_health_score (now : time) (index : nat) (change : Q) (m : manager)
    : option manager :=
  s ← account_status m !! index;
  Some (put_status index (update_health now change s) m).

(** [_calculate_response_time_factor]: the averages of all accounts that
    have response times, read from the dictionary as it is now. *)
Definition all_avg_times (sts : list status) : list Q :=
  omap (fun s => match response_times s with
                 | [] => None
                 | _ => Some (average (response_times s))
                 end) sts.

Definition response_time_factor (s : status) (sts : list status) : Q :=
  match response_times s with
  | [] => 1
  | _ =>
      let avg_time := average (response_times s) in
      match all_avg_times sts with
      | [] => 1
      | all =>
          let global_avg := average all in
          if Qeq_bool global_avg 0 then 1
          else global_avg / Qmax (1 # 10) avg_time
      end
  end.

Definition _calculate_response_time_factor (index : nat) (m : manager) : option Q :=
  s ← account_status m !! index;
  Some (response_time_factor s (account_status m)).

(** *** Status updates *)

(** [_blacklist_account] on one status. *)
Definition blacklist (now : time) (s : status) : status :=
  let s := set_blacklisted_until (Some (now + BLACKLIST_DURATION)) s in
  update_health now (-(50)) s.

Definition _blacklist_account (now : time) (index : nat) (m : manager) : option manager :=
  s ← account_status m !! index;
  _ ← accounts m !! index;
  Some (put_status index (blacklist now s) m).

(** [d.get(key, 0) + 1] stored back under [key]. *)
Definition count_error (key : string) (d : gmap string Z) : gmap string Z :=
  <[key := (default 0 (d !! key) + 1)%Z]> d.

(** [mark_rate_limited] on one status; [minutes or RATE_LIMIT_COOLDOWN]
    takes the default for [None] and for zero. *)
Definition rate_limit_status (now : time) (minutes : option Q) (s : status) : status :=
  let s := set_consecutive_failures (consecutive_failures s + 1)%Z s in
  let s := set_cooldown_multiplier (Qmin 5 (cooldown_multiplier s * (3 # 2))) s in
  let base_cooldown :=
    match minutes with
    | Some q => if Qeq_bool q 0 then RATE_LIMIT_COOLDOWN else q
    | None => RATE_LIMIT_COOLDOWN
    end in
  let dynamic_cooldown := base_cooldown * cooldown_multiplier s in
  let s := set_rate_limited_until (Some (now + dynamic_cooldown)) s in
  let s := set_failures (failures s + 1)%Z s in
  let s := set_total_failures (total_failures s + 1)%Z s in
  let s := set_success_streak 0%Z s in
  let s := set_error_types (count_error "rate_limit" (error_types s)) s in
  let s := set_last_error (Some "Rate limit exceeded"%string) s in
  let s := update_health now (- (HEALTH_PENALTY_RATE * (3 # 2))) s in
  if (MAX_CONSECUTIVE_FAILURES <=? consecutive_failures s)%Z
  then blacklist now s
  else s.

Definition mark_rate_limited (now : time) (index : nat) (minutes : option Q)
    (m : manager) : option manager :=
  s ← account_status m !! index;
  _ ← accounts m !! index;
  Some (_save_account_status (put_status index (rate_limit_status now minutes s) m)).

(** The response time sample of [mark_success]: [if response_time:]
    discards [None] and zero. *)
Definition record_response_time (response_time : option Q) (s : status) : status :=
  match response_time with
  | Some rt =>
      if Qeq_bool rt 0 then s
      else
        let s := set_response_times (response_times s ++ [rt]) s in
        let s := if (10 <? length (response_times s))%nat
                 then set_response_times (last10 (response_times s)) s else s in
        set_avg_response_time (Some (average (response_times s))) s
  | None => s
  end.

(** [mark_success] up to the health improvement, which reads the other
    accounts. *)
Definition success_status (now : time) (response_time : option Q) (s : status) : status :=
  let s := set_last_success (Some now) s in
  let s := set_last_used (Some now) s in
  let s := set_failures 0%Z s in
  let s := set_consecutive_failures 0%Z s in
  let s := set_total_requests (total_requests s + 1)%Z s in
  let s := set_success_streak (success_streak s + 1)%Z s in
  let s := record_response_time response_time s in
  set_cooldown_multiplier (Qmax 1 (cooldown_multiplier s * (8 # 10))) s.

Definition streak_bonus (s : status) : Q :=
  Qmin 5 (inject_Z (success_streak s) / 2).

Definition mark_success (now : time) (index : nat) (response_time : option Q)
    (m : manager) : option manager :=
  s ← account_status m !! index;
  let s := success_status now response_time s in
  let m := put_status index s m in
  response_time_factor ← _calculate_response_time_factor index m;
  let health_improvement :=
    HEALTH_RECOVERY_RATE * response_time_factor + streak_bonus s in
  let s := update_health now health_improvement s in
  s ← match blacklisted_until s with
      | Some _ => _ ← accounts m !! index; Some (set_blacklisted_until None s)
      | None => Some s
      end;
  let m := put_status index s m in
  Some (if ((success_streak s mod 5 =? 0)%Z || Qle_bool 95 (health_score s))
        then _save_account_status m else m).

(** [mark_failure] up to the health penalty. *)
Definition failure_status (now : time) (error_type : string)
    (error_message : option string) (s : status) : status :=
  let s := set_failures (failures s + 1)%Z s in
  let s := set_consecutive_failures (consecutive_failures s + 1)%Z s in
  let s := set_total_failures (total_failures s + 1)%Z s in
  let s := set_last_used (Some now) s in
  let s := set_success_streak 0%Z s in
  let s := set_error_types (count_error error_type (error_types s)) s in
  let s := set_last_error
             (Some (match error_message with
                    | Some msg => if String.eqb msg EmptyString
                                  then ("Error type: " ++ error_type)%string else msg
                    | None => ("Error type: " ++ error_type)%string
                    end)) s in
  let penalty :=
    if String.eqb error_type "auth" then HEALTH_PENALTY_RATE * 2
    else HEALTH_PENALTY_RATE in
  update_health now (- penalty) s.

Definition mark_failure (now : time) (index : nat) (is_rate_limit : bool)
    (error_type : string) (error_message : option string) (m : manager)
    : option manager :=
  s ← account_status m !! index;
  let s := failure_status now error_type error_message s in
  let m := put_status index s m in
  m ← (if is_rate_limit then mark_rate_limited now index None m
       else if (MAX_CONSECUTIVE_FAILURES <=? consecutive_failures s)%Z
       then _blacklist_account now index m
       else if (3 <=? consecutive_failures s)%Z
       then
         let cooldown_minutes := Z.min 30 (5 * consecutive_failures s) in
         _ ← accounts m !! index;
         Some (put_status index
                 (set_rate_limited_until (Some (now + inject_Z cooldown_minutes)) s) m)
       else Some m);
  s ← account_status m !! index;
  Some (if (2 <=? consecutive_failures s)%Z then _save_account_status m else m).

(** *** The periodic health check *)

(** The body of the loop of [_run_health_check] for one account. *)
Definition health_check_status (now : time) (s : status) : status :=
  let s :=
    match last_used s with
    | Some lu =>
        let time_since_last_use := hours_since now lu in
        if Qgtb time_since_last_use 24 then
          let decay := (time_since_last_use / 24) * 5 in
          update_health now (- Qmin 20 decay) s
        else s
    | None => s
    end in
  let s :=
    match rate_limited_until s with
    | Some t => if Qle_bool t now then set_rate_limited_until None s else s
    | None => s
    end in
  match blacklisted_until s with
  | Some t => if Qle_bool t now then set_blacklisted_until None s else s
  | None => s
  end.

(** [_run_health_check]: nothing happens before [HEALTH_CHECK_INTERVAL]
    seconds have passed; the loop runs over [enumerate(self.accounts)]
    and raises at an account without status. *)
Definition _run_health_check (now : time) (m : manager) : option manager :=
  if Qltb ((now - last_health_check m) * 60) HEALTH_CHECK_INTERVAL then Some m
  else
    let m := set_last_health_check now m in
    let n := length (accounts m) in
    if (n <=? length (account_status m))%nat then
      let sts := (health_check_status now <$> take n (account_status m))
                 ++ drop n (account_status m) in
      Some (_save_account_status (set_account_status sts m))
    else None.

(** *** Selection *)

(** [get_active_account] *)
Definition get_active_account (m : manager) : option account :=
  accounts m !! current_index m.

(** Strategy 1: the loop that keeps the available account with the
    highest health score; [i] is the index of the head of [sts]. *)
Fixpoint best_available (now : time) (sts : list status) (i : nat)
    (best_score : Q) (best_index : option nat) : Q * option nat :=
  match sts with
  | [] => (best_score, best_index)
  | s :: rest =>
      if available now s && Qgtb (health_score s) best_score
      then best_available now rest (S i) (health_score s) (Some i)
      else best_available now rest (S i) best_score best_index
  end.

(** Strategy 2: the loop over the available accounts with the test
    [last_used is None or (least_recent_time is None or
     last_used < least_recent_time)]. *)
Definition replaces_least_recent (lu least_recent_time : option time) : bool :=
  match lu with
  | None => true
  | Some t =>
      match least_recent_time with
      | None => true
      | Some lrt => Qltb t lrt
      end
  end.

Fixpoint least_recent (now : time) (sts : list status) (i : nat)
    (least_recent_time : option time) (least_recent_index : option nat)
    : option time * option nat :=
  match sts with
  | [] => (least_recent_time, least_recent_index)
  | s :: rest =>
      if available now s && replaces_least_recent (last_used s) least_recent_time
      then least_recent now rest (S i) (last_used s) (Some i)
      else least_recent now rest (S i) least_recent_time least_recent_index
  end.

(** Strategy 3: the loop that keeps the earliest rate limit or blacklist
    expiry. *)
Definition earlier (t : option time) (i : nat) (acc : option time * option nat)
    : option time * option nat :=
  match t with
  | Some t' =>
      match fst acc with
      | None => (Some t', Some i)
      | Some e => if Qltb t' e then (Some t', Some i) else acc
      end
  | None => acc
  end.

Fixpoint earliest_expiry (sts : list status) (i : nat)
    (acc : option time * option nat) : option time * option nat :=
  match sts with
  | [] => acc
  | s :: rest =>
      let acc := earlier (rate_limited_until s) i acc in
      let acc := earlier (blacklisted_until s) i acc in
      earliest_expiry rest (S i) acc
  end.

(** The index [switch_account] moves to, from the statuses after the
    health check; [None]: [current_index] stays. *)
Definition select_index (now : time) (sts : list status) : option nat :=
  let '(best_score, best_index) := best_available now sts 0 (-(1)) None in
  let fallback :=
    match snd (least_recent now sts 0 None None) with
    | Some least_recent_index => Some least_recent_index
    | None => snd (earliest_expiry sts 0 (None, None))
    end in
  match best_index with
  | Some b => if Qgtb best_score MIN_HEALTH_FOR_PRIMARY then Some b else fallback
  | None => fallback
  end.

(** [switch_account]: the manager after the call and the account
    returned. *)
Definition switch_account (now : time) (m : manager) : option (manager * account) :=
  m ← _run_health_check now m;
  let m := match select_index now (account_status m) with
           | Some i => set_current_index i m
           | None => m
           end in
  a ← get_active_account m;
  Some (m, a).

(** *** The retry loop *)

(** What [requests.post] and [response.json()] do for one request: a
    response with its status code, the measured request time and the
    decoded body ([None]: decoding raises), or an exception. *)
Inductive reply {payload : Type} :=
  | Response (status_code : Z) (request_time : Q) (json : option payload)
  | Timeout
  | ConnectionError
  | OtherException.
Arguments reply : clear implicits.

(** What [run] hands to its caller. *)
Inductive run_result {payload : Type} :=
  | Returned (body : payload)
  | Report (error : string) (retry_after : Z) (accounts_tried : gset string)
  | Raised.
Arguments run_result : clear implicits.

(** The local variables of [run], with the requests sent (account
    indices, latest first) and the sleeps taken (latest first). *)
Record run_state := mkRun {
  mgr : manager;
  retries : nat;
  tried_accounts : gset string;
  requests : list nat;
  sleeps : list Q
}.

Definition start (m : manager) : run_state := mkRun m 0 ∅ [] [].

Section Run.
Context {payload : Type}.
(** [api n i]: the reply to the [n]-th request of the call, sent with
    account [i].  [clock k]: the time during the [k]-th pass of the
    loop. *)
Variable api : nat -> nat -> reply payload.
Variable clock : nat -> time.

(** The bookkeeping of one request, by the class of its reply; [inl]
    is the early [return response.json()], with the manager
    as [mark_success] leaves it.  The second component is
    the extra sleep after a connection error. *)
Definition classify (now : time) (index : nat) (r : reply payload) (m : manager)
    : option (manager * payload + manager * list Q) :=
  match r with
  | Response code rt body =>
      if (code =? 200)%Z then
        m ← mark_success now index (Some rt) m;
        match body with
        | Some v => Some (inl (m, v))
        | None =>
            m ← mark_failure now index false "unknown" (Some "Exception"%string) m;
            Some (inr (m, []))
        end
      else if ((code =? 429) || (code =? 503))%Z then
        m ← mark_failure now index true "rate_limit" (Some "Rate limit detected"%string) m;
        Some (inr (m, []))
      else if ((code =? 401) || (code =? 403))%Z then
        m ← mark_failure now index false "auth" (Some "Authentication error"%string) m;
        Some (inr (m, []))
      else
        m ← mark_failure now index false "api_error" (Some "API Error"%string) m;
        Some (inr (m, []))
  | Timeout =>
      m ← mark_failure now index false "timeout" (Some "Request timeout"%string) m;
      Some (inr (m, []))
  | ConnectionError =>
      m ← mark_failure now index false "connection" (Some "Connection error"%string) m;
      Some (inr (m, [BACKOFF_BASE]))
  | OtherException =>
      m ← mark_failure now index false "unknown" (Some "Exception"%string) m;
      Some (inr (m, []))
  end.

(** The sleep at the end of a failed pass; [retries] is already
    incremented. *)
Definition backoff (retries : nat) : list Q :=
  if (retries <? RETRY_LIMIT)%nat then
    if (retries =? 1)%nat then [BACKOFF_BASE]
    else [BACKOFF_BASE * inject_Z (2 ^ Z.of_nat (retries - 1))]
  else [].

(** [run]: the [while] loop, one pass per unit of fuel.  The result is the
    state reached and what the call hands back, [None] while the loop is
    still running when the fuel is used up.  [k] counts the passes. *)
Fixpoint run_loop (fuel : nat) (k : nat) (st : run_state)
    : run_state * option (run_result payload) :=
  match fuel with
  | O => (st, None)
  | S fuel' =>
      let m := mgr st in
      if (retries st <? RETRY_LIMIT)%nat then
        match get_active_account m with
        | None => (st, Some Raised)
        | Some account =>
            let account_index := current_index m in
            let account_id := account_id account in
            if bool_decide (account_id ∈ tried_accounts st)
               && (size (tried_accounts st) <? length (accounts m))%nat
            then
              match switch_account (clock k) m with
              | Some (m', _) =>
                  run_loop fuel' (S k)
                    (mkRun m' (retries st) (tried_accounts st) (requests st) (sleeps st))
              | None => (st, Some Raised)
              end
            else
              let tried := {[account_id]} ∪ tried_accounts st in
              let sent := account_index :: requests st in
              match classify (clock k) account_index
                      (api (length (requests st)) account_index) m with
              | None => (mkRun m (retries st) tried sent (sleeps st), Some Raised)
              | Some (inl (m', v)) =>
                  (mkRun m' (retries st) tried sent (sleeps st), Some (Returned v))
              | Some (inr (m', extra)) =>
                  match switch_account (clock k) m' with
                  | None => (mkRun m' (retries st) tried sent (sleeps st), Some Raised)
                  | Some (m'', _) =>
                      let retries := S (retries st) in
                      run_loop fuel' (S k)
                        (mkRun m'' retries tried sent
                           (backoff retries ++ extra ++ sleeps st))
                  end
              end
        end
      else
        (st, Some (Report "All API accounts failed" 60 (tried_accounts st)))
  end.

Definition run (fuel : nat) (m : manager) : run_state * option (run_result payload) :=
  run_loop fuel 0 (start m).
End Run.
End Manager.

(** The score [_update_health_score] stores: the decayed score plus the
    change, clamped. *)
Definition decayed {RT : Runtime} (now : time) (s : status) : Q :=
  match last_used s with
  | Some lu => health_score s * fpow HEALTH_DECAY_RATE (hours_since now lu / 24)
  | None => health_score s
  end.

Definition new_health {RT : Runtime} (now : time) (change : Q) (s : status) : Q :=
  Qmax 0 (Qmin 100 (decayed now s + change)).

Arguments reply : clear implicits.
Arguments run_result : clear implicits.
Arguments update_health : simpl never.
Arguments blacklist : simpl never.
Arguments rate_limit_status : simpl never.
Arguments success_status : simpl never.
Arguments failure_status : simpl never.
Arguments health_check_status : simpl never.
Arguments _save_account_status : simpl never.
Arguments put_status : simpl never.

(** ** A runtime to evaluate examples with *)

(** Concrete inputs are evaluated with this instance: the power is exact
    at integer exponents (the exponent is rounded down), and timestamps
    are printed and parsed as naive ISO-8601 date-times of the proleptic
    Gregorian calendar, minute [0] being [1970-01-01T00:00:00]. *)
Module PyModel.
Local Open Scope Z_scope.

Definition pow (b e : Q) : Q := Qpower b (Qfloor e).

(** Days since the epoch to year, month, day and back. *)
Definition civil_from_days (z : Z) : Z * Z * Z :=
  let z := z + 719468 in
  let era := z / 146097 in
  let doe := z - era * 146097 in
  let yoe := (doe - doe / 1460 + doe / 36524 - doe / 146096) / 365 in
  let doy := doe - (365 * yoe + yoe / 4 - yoe / 100) in
  let mp := (5 * doy + 2) / 153 in
  let d := doy - (153 * mp + 2) / 5 + 1 in
  let m := if mp <? 10 then mp + 3 else mp - 9 in
  let y := yoe + era * 400 in
  (if m <=? 2 then y + 1 else y, m, d).

Definition days_from_civil (y m d : Z) : Z :=
  let y := if m <=? 2 then y - 1 else y in
  let era := y / 400 in
  let yoe := y - era * 400 in
  let doy := (153 * (if 2 <? m then m - 3 else m + 9) + 2) / 5 + d - 1 in
  let doe := yoe * 365 + yoe / 4 - yoe / 100 + doy in
  era * 146097 + doe - 719468.

Definition digit (z : Z) : ascii :=
  ascii_of_nat (48 + Z.to_nat (z mod 10)).

(** [z] in [n] decimal digits, zero padded. *)
Fixpoint digits (n : nat) (z : Z) : string :=
  match n with
  | O => EmptyString
  | S n' => (digits n' (z / 10) ++ String (digit z) EmptyString)%string
  end.

Fixpoint number (acc : Z) (s : string) : option Z :=
  match s with
  | EmptyString => Some acc
  | String c s' =>
      let v := Z.of_nat (nat_of_ascii c) - 48 in
      if (0 <=? v) && (v <=? 9) then number (10 * acc + v) s' else None
  end.

(** The decimal number in [s] at position [i], [n] characters long. *)
Definition field (i n : nat) (s : string) : option Z :=
  let f := substring i n s in
  if (String.length f =? n)%nat then number 0 f else None.

Definition separator (i : nat) (c : string) (s : string) : bool :=
  String.eqb (substring i 1 s) c.

Definition micros (t : time) : Z := Qfloor (t * 60000000)%Q.

Definition iso_print (t : time) : string :=
  let us := micros t in
  let day := us / 86400000000 in
  let rest := us mod 86400000000 in
  let '(y, m, d) := civil_from_days day in
  let secs := rest / 1000000 in
  let frac := rest mod 1000000 in
  (digits 4 y ++ "-" ++ digits 2 m ++ "-" ++ digits 2 d ++ "T"
   ++ digits 2 (secs / 3600) ++ ":" ++ digits 2 (secs / 60 mod 60) ++ ":"
   ++ digits 2 (secs mod 60)
   ++ (if (frac =? 0)%Z then EmptyString else "." ++ digits 6 frac))%string.

Definition days_in_month (y m : Z) : Z :=
  days_from_civil (if m =? 12 then y + 1 else y) (if m =? 12 then 1 else m + 1) 1
  - days_from_civil y m 1.

Definition iso_parse (s : string) : option time :=
  let len := String.length s in
  if negb ((len =? 19)%nat || (len =? 26)%nat) then None
  else if negb (separator 4 "-" s && separator 7 "-" s && separator 13 ":" s
                && separator 16 ":" s) then None
  else if (len =? 26)%nat && negb (separator 19 "." s) then None
  else
    y ← field 0 4 s;
    m ← field 5 2 s;
    d ← field 8 2 s;
    hh ← field 11 2 s;
    mm ← field 14 2 s;
    ss ← field 17 2 s;
    us ← (if (len =? 26)%nat then field 20 6 s else Some 0);
    if (1 <=? y) && (1 <=? m) && (m <=? 12) && (1 <=? d) && (d <=? days_in_month y m)
       && (hh <=? 23) && (mm <=? 59) && (ss <=? 59)
    then
      let total := ((days_from_civil y m d * 86400 + hh * 3600 + mm * 60 + ss)
                    * 1000000 + us) in
      Some (Qred (inject_Z total / 60000000)%Q)
    else None.

Definition runtime : Runtime :=
  {| fpow := pow; isoformat := iso_print; fromisoformat := iso_parse |}.
End PyModel.

(** ** The health update of [api_manager.py] *)

Module Basic.
(** [AutoXAIManager._update_health_score]: no decay, only the clamp. *)
Definition update_health (change : Q) (health_score : Q) : Q :=
  Qmax 0 (Qmin 100 (health_score + change)).

(** The status dictionary of [AutoXAIManager.__init__]. *)
Record status := mkStatus {
  failures : Z;
  consecutive_failures : Z;
  rate_limited_until : option time;
  last_success : option time;
  total_requests : Z;
  total_failures : Z;
  health_score : Q;
  cooldown_multiplier : Q;
  last_used : option time
}.

Definition initial_status : status := mkStatus 0 0 None None 0 0 100 1 None.

Definition set_consecutive_failures (v : Z) (s : status) : status :=
  mkStatus (failures s) v (rate_limited_until s) (last_success s) (total_requests s)
    (total_failures s) (health_score s) (cooldown_multiplier s) (last_used s).
Definition set_rate_limited_until (v : option time) (s : status) : status :=
  mkStatus (failures s) (consecutive_failures s) v (last_success s) (total_requests s)
    (total_failures s) (health_score s) (cooldown_multiplier s) (last_used s).
Definition set_health_score (v : Q) (s : status) : status :=
  mkStatus (failures s) (consecutive_failures s) (rate_limited_until s) (last_success s)
    (total_requests s) (total_failures s) v (cooldown_multiplier s) (last_used s).

(** [is_account_available] on one status: only the rate limit counts. *)
Definition is_account_available (now : time) (s : status) : bool :=
  match rate_limited_until s with
  | Some t => negb (Qgtb t now)
  | None => true
  end.

(** [_update_health_score] on one status. *)
Definition _update_health_score (change : Q) (s : status) : status :=
  set_health_score (update_health change (health_score s)) s.

(** [mark_rate_limited] on one status. *)
Definition mark_rate_limited (now : time) (minutes : option Q) (s : status) : status :=
  let consecutive := (consecutive_failures s + 1)%Z in
  let multiplier := Qmin 5 (cooldown_multiplier s * (3 # 2)) in
  let base_cooldown :=
    match minutes with
    | Some q => if Qeq_bool q 0 then RATE_LIMIT_COOLDOWN else q
    | None => RATE_LIMIT_COOLDOWN
    end in
  let dynamic_cooldown := base_cooldown * multiplier in
  _update_health_score (- (15))
    (mkStatus (failures s + 1)%Z consecutive (Some (now + dynamic_cooldown))
       (last_success s) (total_requests s) (total_failures s + 1)%Z (health_score s)
       multiplier (last_used s)).

(** [mark_success] on one status; the rate limit is not touched. *)
Definition mark_success (now : time) (s : status) : status :=
  _update_health_score 5
    (mkStatus 0 0 (rate_limited_until s) (Some now) (total_requests s + 1)%Z
       (total_failures s) (health_score s)
       (Qmax 1 (cooldown_multiplier s * (8 # 10))) (Some now)).

(** [mark_failure] on one status. *)
Definition mark_failure (now : time) (is_rate_limit : bool) (s : status) : status :=
  let s :=
    _update_health_score (- (10))
      (mkStatus (failures s + 1)%Z (consecutive_failures s + 1)%Z (rate_limited_until s)
         (last_success s) (total_requests s) (total_failures s + 1)%Z (health_score s)
         (cooldown_multiplier s) (Some now)) in
  if is_rate_limit then mark_rate_limited now None s
  else if (3 <=? consecutive_failures s)%Z then
    let cooldown_minutes := Z.min 30 (5 * consecutive_failures s) in
    set_rate_limited_until (Some (now + inject_Z cooldown_minutes)) s
  else s.

(** The bookkeeping of [run] for a response with status [code]: the
    chain of [if]/[elif] over [response.status_code]. *)
Definition handle_status_code (now : time) (code : Z) (s : status) : status :=
  if (code =? 200)%Z then mark_success now s
  else if ((code =? 429) || (code =? 403) || (code =? 503))%Z then
    mark_failure now true s
  else if ((code =? 401) || (code =? 403))%Z then
    let s := set_consecutive_failures (consecutive_failures s + 2)%Z s in
    let s := mark_failure now false s in
    _update_health_score (- (25)) s
  else mark_failure now false s.
End Basic.

(** ** Update events *)

(** The status updates a caller of the manager can apply to an account. *)
Inductive event :=
  | Success (response_time : option Q)
  | Failure (is_rate_limit : bool) (error_type : string) (error_message : option string)
  | RateLimited (minutes : option Q)
  | Blacklisted.

Definition apply_event {RT : Runtime} (index : nat) (m : manager) (e : time * event)
    : option manager :=
  match snd e with
  | Success rt => mark_success (fst e) index rt m
  | Failure rl ty msg => mark_failure (fst e) index rl ty msg m
  | RateLimited minutes => mark_rate_limited (fst e) index minutes m
  | Blacklisted => _blacklist_account (fst e) index m
  end.

(** The events of [evs] in order, each at its own time. *)
Fixpoint apply_events {RT : Runtime} (index : nat) (evs : list (time * event))
    (m : manager) : option manager :=
  match evs with
  | [] => Some m
  | e :: evs' => m' ← apply_event index m e; apply_events index evs' m'
  end.

(** ** Predicates used in the statements *)

Definition in_range (h : Q) : Prop := 0 <= h /\ h <= 100.

(** [index] has a status and an account. *)
Definition known (index : nat) (m : manager) : Prop :=
  (index < length (account_status m))%nat /\ (index < length (accounts m))%nat.

(** [m'] has the accounts of [m], a status for [index] again, and there
    the health score is within bounds. *)
Definition clamped_at (index : nat) (m m' : manager) : Prop :=
  known index m'
  /\ exists s, account_status m' !! index = Some s /\ in_range (health_score s).

(** ** Sample data *)

(** The accounts of [config.py] and a manager fresh from [__init__]
    without a health file, starting at account [0] at minute [0]. *)
Definition AUTOX_AI_ACCOUNTS : list account :=
  [ mkAccount "API_KEY_1" "ACCOUNT_ID_1";
    mkAccount "API_KEY_2" "ACCOUNT_ID_2";
    mkAccount "API_KEY_3" "ACCOUNT_ID_3" ].

Definition fresh_manager : manager :=
  mkManager AUTOX_AI_ACCOUNTS 0
    [_create_default_status; _create_default_status; _create_default_status]
    0 NoFile.

(** [P] holds of the status of [index] in the manager an update returned
    ([False] if the update raised). *)
Definition holds_after (o : option manager) (index : nat) (P : status -> Prop) : Prop :=
  match o with
  | Some m =>
      match account_status m !! index with
      | Some s => P s
      | None => False
      end
  | None => False
  end.

(** The update [run] performs for a reply with status 429 or 503. *)
Definition http_429 : event := Failure true "rate_limit" (Some "Rate limit detected"%string).

(** ** The status an update leaves *)

(** The status of the account after [mark_failure], following its
    branches. *)
Definition failure_result {RT : Runtime} (now : time) (is_rate_limit : bool)
    (error_type : string) (error_message : option string) (s : status) : status :=
  let s := failure_status now error_type error_message s in
  if is_rate_limit then rate_limit_status now None s
  else if (MAX_CONSECUTIVE_FAILURES <=? consecutive_failures s)%Z then blacklist now s
  else if (3 <=? consecutive_failures s)%Z then
    set_rate_limited_until
      (Some (now + inject_Z (Z.min 30 (5 * consecutive_failures s)))) s
  else s.

(** The status of account [index] after [mark_success], [sts] being the
    statuses of all accounts before the call. *)
Definition success_result {RT : Runtime} (now : time) (index : nat)
    (response_time : option Q) (sts : list status) (s : status) : status :=
  let s := success_status now response_time s in
  let factor := response_time_factor s (<[index := s]> sts) in
  let s := update_health now (HEALTH_RECOVERY_RATE * factor + streak_bonus s) s in
  match blacklisted_until s with
  | Some _ => set_blacklisted_until None s
  | None => s
  end.

(** [m'] is [m] with the status of [index] replaced by [s'], up to the
    content of the health file. *)
Definition updates (index : nat) (s' : status) (m m' : manager) : Prop :=
  account_status m' = <[index := s']> (account_status m)
  /\ accounts m' = accounts m
  /\ current_index m' = current_index m
  /\ last_health_check m' = last_health_check m.

(** The update [run] performs for a reply that is neither a success nor a
    rate limit nor an authentication error. *)
Definition http_500 : event := Failure false "api_error" (Some "API Error"%string).

(** Account [0] of the fresh manager after four failures in a row that are
    no rate limits, one per minute. *)
Definition four_failures : manager :=
  default fresh_manager
    (apply_events (RT := PyModel.runtime) 0
       [(0, http_500); (1, http_500); (2, http_500); (3, http_500)] fresh_manager).

Definition four_failures_status : status :=
  default _create_default_status (account_status four_failures !! 0%nat).

(** [if response_time:] takes the branch. *)
Definition truthy_time (response_time : option Q) : bool :=
  match response_time with
  | Some rt => negb (Qeq_bool rt 0)
  | None => false
  end.

(** ** Selection: the statuses it reads, and the rule of the specification *)

(** The health check is due. *)
Definition check_due (now : time) (m : manager) : bool :=
  negb (Qltb ((now - last_health_check m) * 60) HEALTH_CHECK_INTERVAL).

(** The statuses [switch_account] selects from: those of the manager, run
    through the health check when it is due. *)
Definition checked {RT : Runtime} (now : time) (m : manager) : list status :=
  if check_due now m then health_check_status now <$> account_status m
  else account_status m.

(** Least recently used as the specification words it: among the
    available accounts the smallest [last_used], an account never used
    ([None]) counting as the least recent one, the lowest index winning a
    tie.  [older a b]: [a] is strictly less recent than [b]. *)
Definition older (a b : option time) : bool :=
  match a, b with
  | None, Some _ => true
  | Some x, Some y => Qltb x y
  | _, None => false
  end.

Fixpoint lru_spec {RT : Runtime} (now : time) (sts : list status) (i : nat)
    (best : option (nat * option time)) : option nat :=
  match sts with
  | [] => fst <$> best
  | s :: rest =>
      if available now s then
        match best with
        | Some (_, t) =>
            if older (last_used s) t then lru_spec now rest (S i) (Some (i, last_used s))
            else lru_spec now rest (S i) best
        | None => lru_spec now rest (S i) (Some (i, last_used s))
        end
      else lru_spec now rest (S i) best
  end.

(** A status with a given score and last use, otherwise as new. *)
Definition status_with (score : Q) (used : option time) : status :=
  set_last_used used (set_health_score score _create_default_status).

(** Two accounts for the selection examples. *)
Definition two_accounts : list account :=
  [mkAccount "API_KEY_1" "ACCOUNT_ID_1"; mkAccount "API_KEY_2" "ACCOUNT_ID_2"].

(** Scores 80 and 40; the first account was last used at minute 0. *)
Definition scores_80_40 : manager :=
  mkManager two_accounts 0 [status_with 80 (Some 0); status_with 40 None] 0 NoFile.

(** Scores 40 and 40; the first account was never used, the second at
    minute 5. *)
Definition never_used_first : manager :=
  mkManager two_accounts 0 [status_with 40 None; status_with 40 (Some 5)] 0 NoFile.

(** Scores 40 and 40; the first account was last used at minute 7, the
    second at minute 5. *)
Definition both_used : manager :=
  mkManager two_accounts 0 [status_with 40 (Some 7); status_with 40 (Some 5)] 0 NoFile.

(** ** The retry loop: predicates and sample inputs *)

(** Every account has a status and [current_index] points at an account:
    what [__init__] establishes. *)
Definition well_formed (m : manager) : Prop :=
  length (accounts m) = length (account_status m)
  /\ (current_index m < length (accounts m))%nat.

(** The ids of the accounts at the given indices. *)
Definition ids_of (accs : list account) (indices : list nat) : gset string :=
  list_to_set (omap (fun i => account_id <$> accs !! i) indices).

(** An API that gives the same reply to every request. *)
Definition always {payload : Type} (r : reply payload) : nat -> nat -> reply payload :=
  fun _ _ => r.

(** The fresh manager with account 0 rate limited until minute 100; the
    random start index is 0. *)
Definition rate_limited_current : manager :=
  mkManager AUTOX_AI_ACCOUNTS 0
    [set_rate_limited_until (Some 100) _create_default_status;
     _create_default_status; _create_default_status]
    0 NoFile.

(** Three accounts: the first with health score 40 and never used, the
    other two as new; the random start index is 1. *)
Definition low_first : status := status_with 40 None.

Definition busy_manager : manager :=
  mkManager AUTOX_AI_ACCOUNTS 1
    [low_first; _create_default_status; _create_default_status] 0 NoFile.

(** One account. *)
Definition single_manager : manager :=
  mkManager [mkAccount "API_KEY_1" "ACCOUNT_ID_1"] 0 [_create_default_status] 0 NoFile.

(** What the loop keeps true between passes of a call that started with
    the accounts [accs]: the manager is well formed with these accounts,
    [tried_accounts] holds the ids of the accounts requests were sent
    with, and every counted retry sent one request. *)
Definition run_invariant (accs : list account) (st : run_state) : Prop :=
  well_formed (mgr st)
  /\ accounts (mgr st) = accs
  /\ tried_accounts st = ids_of accs (requests st)
  /\ length (requests st) = retries st
  /\ (retries st <= RETRY_LIMIT)%nat.

(** What a call that has ended hands back: the decoded body of the last
    request, answered with status 200, or the report after [RETRY_LIMIT]
    requests. *)
Definition run_outcome {payload : Type} (api : nat -> nat -> reply payload)
    (accs : list account) (out : run_state * option (run_result payload)) : Prop :=
  match snd out with
  | None => True
  | Some (Returned v) =>
      exists i rest rt,
        requests (fst out) = i :: rest
        /\ api (length rest) i = Response 200 rt (Some v)
  | Some (Report error retry_after tried) =>
      error = "All API accounts failed"%string
      /\ retry_after = 60%Z
      /\ tried = ids_of accs (requests (fst out))
      /\ length (requests (fst out)) = RETRY_LIMIT
  | Some Raised => False
  end.

(** Neither rate limited nor blacklisted, at any time. *)
Definition no_limits (s : status) : Prop :=
  rate_limited_until s = None /\ blacklisted_until s = None.

(** An API whose every reply is an internal server error. *)
Definition always_500 : nat -> nat -> reply string :=
  always (Response 500 (1 # 2) None).

(** The managers the busy loop moves through: the accounts of
    [config.py], the low-score never-used account in front, the other two
    without limits, the second one used, and [current_index] at one of
    these two. *)
Definition behind_low_first (m : manager) (a b : status) : Prop :=
  accounts m = AUTOX_AI_ACCOUNTS
  /\ account_status m = [low_first; a; b]
  /\ no_limits a /\ no_limits b /\ is_Some (last_used a).

(** ** Snapshots *)

(** The timestamps a running status holds. *)
Definition timestamps (s : status) : list time :=
  omap id [rate_limited_until s; last_success s; last_used s; blacklisted_until s].

(** [fromisoformat] reads back what [isoformat] wrote for [t]. *)
Definition reads_back {RT : Runtime} (t : time) : Prop :=
  fromisoformat (isoformat t) = Some t.

(** What the specification has [_save_account_status] write for a running
    status: every set timestamp as an ISO-8601 string, the response times
    cut to the last 10. *)
Definition iso_field {RT : Runtime} (o : option time) : pyval :=
  match o with Some t => PStr (isoformat t) | None => PNone end.

Definition snapshot_of {RT : Runtime} (s : status) : status_ pyval :=
  mkStatus (failures s) (consecutive_failures s) (iso_field (rate_limited_until s))
    (iso_field (blacklisted_until s)) (iso_field (last_success s)) (total_requests s)
    (total_failures s) (health_score s) (cooldown_multiplier s)
    (iso_field (last_used s)) (avg_response_time s)
    (if (10 <? length (response_times s))%nat then last10 (response_times s)
     else response_times s)
    (error_types s) (last_error s) (success_streak s).

(** A snapshot in which [last_used] of the first account is the empty
    string. *)
Definition empty_last_used : gmap string (status_ pyval) :=
  {[ "ACCOUNT_ID_1"%string :=
       set_last_used (PStr EmptyString) (to_raw _create_default_status) ]}.

(** A manager with timestamps set and twelve response times. *)
Definition used_status : status :=
  {| failures := 1;
     consecutive_failures := 0;
     rate_limited_until := Some (45 # 2);
     blacklisted_until := None;
     last_success := Some 5;
     total_requests := 13;
     total_failures := 1;
     health_score := 92;
     cooldown_multiplier := 3 # 2;
     last_used := Some 5;
     avg_response_time := Some (1 # 2);
     response_times := [1 # 2; 1 # 2; 1 # 2; 1 # 2; 1 # 2; 1 # 2;
                        1 # 2; 1 # 2; 1 # 2; 1 # 2; 1 # 2; 1 # 2];
     error_types := {[ "rate_limit"%string := 1%Z ]};
     last_error := Some "Rate limit detected"%string;
     success_streak := 12 |}.

Definition used_manager : manager :=
  mkManager AUTOX_AI_ACCOUNTS 0
    [used_status; _create_default_status; used_status] 0 NoFile.

(** ** Samples for the plain manager *)

(** An account of the plain manager after two failures in a row. *)
Definition two_failures : Basic.status :=
  Basic.mark_failure 1 false (Basic.mark_failure 0 false Basic.initial_status).

(** ** Further predicates *)

(** The cooldown multiplier is between 1 and its cap. *)
Definition cooldown_in_range (s : status) : Prop :=
  1 <= cooldown_multiplier s /\ cooldown_multiplier s <= 5.

(** The limits recorded in the statuses, each with the index of its
    account, in the order in which strategy 3 reads them. *)
Fixpoint expiries (sts : list status) (i : nat) : list (nat * time) :=
  match sts with
  | [] => []
  | s :: rest =>
      match rate_limited_until s with Some t => [(i, t)] | None => [] end
      ++ match blacklisted_until s with Some t => [(i, t)] | None => [] end
      ++ expiries rest (S i)
  end.

(** [acc] holds the earliest of the limits [L] and its account; nothing
    when there is no limit. *)
Definition earliest_of (L : list (nat * time)) (acc : option time * option nat) : Prop :=
  match acc with
  | (Some e, Some r) => (r, e) ∈ L /\ forall j t, (j, t) ∈ L -> e <= t
  | (None, None) => L = []
  | _ => False
  end.

(** Every account is rate limited or blacklisted. *)
Definition all_limited : manager :=
  mkManager AUTOX_AI_ACCOUNTS 0
    [set_rate_limited_until (Some 100) _create_default_status;
     set_blacklisted_until (Some 50) _create_default_status;
     set_rate_limited_until (Some 70) _create_default_status]
    0 NoFile.

(** * Properties *)

(** Rational and integer arithmetic is not unfolded by [cbn] in the
    proofs below. *)
#[local] Arguments Nat.ltb : simpl never.
#[local] Arguments RETRY_LIMIT : simpl never.
#[local] Arguments ids_of : simpl never.
#[local] Arguments Qplus : simpl never.
#[local] Arguments Qmult : simpl never.
#[local] Arguments Qminus : simpl never.
#[local] Arguments Qdiv : simpl never.
#[local] Arguments Qopp : simpl never.
#[local] Arguments Qinv : simpl never.
#[local] Arguments Qmin : simpl never.
#[local] Arguments Qmax : simpl never.
#[local] Arguments Qle_bool : simpl never.
#[local] Arguments Qeq_bool : simpl never.
#[local] Arguments Qltb : simpl never.
#[local] Arguments Qgtb : simpl never.
#[local] Arguments inject_Z : simpl never.
#[local] Arguments new_health : simpl never.
#[local] Arguments decayed : simpl never.
#[local] Arguments hours_since : simpl never.
#[local] Arguments Z.add : simpl never.
#[local] Arguments Z.mul : simpl never.
#[local] Arguments Z.min : simpl never.
#[local] Arguments Z.leb : simpl never.
#[local] Arguments Z.eqb : simpl never.
#[local] Arguments Z.modulo : simpl never.

(** Reads of a status entry through the assignments before it. *)
Ltac fields :=
  cbn [failures consecutive_failures rate_limited_until blacklisted_until
       last_success total_requests total_failures health_score
       cooldown_multiplier last_used avg_response_time response_times
       error_types last_error success_streak
       set_failures set_consecutive_failures set_rate_limited_until
       set_blacklisted_until set_last_success set_total_requests
       set_total_failures set_health_score set_cooldown_multiplier
       set_last_used set_avg_response_time set_response_times
       set_error_types set_last_error set_success_streak] in *.

(** The same, also for an assignment that is not under a read. *)
Ltac setters :=
  cbv [failures consecutive_failures rate_limited_until blacklisted_until
       last_success total_requests total_failures health_score
       cooldown_multiplier last_used avg_response_time response_times
       error_types last_error success_streak
       set_failures set_consecutive_failures set_rate_limited_until
       set_blacklisted_until set_last_success set_total_requests
       set_total_failures set_health_score set_cooldown_multiplier
       set_last_used set_avg_response_time set_response_times
       set_error_types set_last_error set_success_streak].


Lemma Qltb_lt x y : Qltb x y = true <-> x < y.
Proof.
  unfold Qltb. rewrite negb_true_iff, <- not_true_iff_false, Qle_bool_iff.
  split; [apply Qnot_le_lt | apply Qlt_not_le].
Qed.

Lemma Qltb_ge x y : Qltb x y = false <-> y <= x.
Proof. unfold Qltb. rewrite negb_false_iff. apply Qle_bool_iff. Qed.


Lemma clamp_in_range (x : Q) : in_range (Qmax 0 (Qmin 100 x)).
Proof.
  split.
  - apply Q.le_max_l.
  - apply Q.max_lub; [discriminate | apply Q.le_min_l].
Qed.

Section Facts.
Context {RT : Runtime}.

(** *** Frame facts of the manager operations *)

Lemma save_status_fields (m : manager) :
  account_status (_save_account_status m) = account_status m
  /\ accounts (_save_account_status m) = accounts m
  /\ current_index (_save_account_status m) = current_index m
  /\ last_health_check (_save_account_status m) = last_health_check m.
Proof. unfold _save_account_status. by destruct (serialize _ _ _). Qed.

Lemma save_account_status (m : manager) :
  account_status (_save_account_status m) = account_status m.
Proof. apply save_status_fields. Qed.

Lemma save_accounts (m : manager) : accounts (_save_account_status m) = accounts m.
Proof. apply save_status_fields. Qed.

Lemma save_current_index (m : manager) :
  current_index (_save_account_status m) = current_index m.
Proof. apply save_status_fields. Qed.

Lemma put_status_fields (i : nat) (s : status) (m : manager) :
  account_status (put_status i s m) = <[i := s]> (account_status m)
  /\ accounts (put_status i s m) = accounts m
  /\ current_index (put_status i s m) = current_index m
  /\ last_health_check (put_status i s m) = last_health_check m.
Proof. done. Qed.

Lemma put_account_status (i : nat) (s : status) (m : manager) :
  account_status (put_status i s m) = <[i := s]> (account_status m).
Proof. done. Qed.

Lemma put_accounts (i : nat) (s : status) (m : manager) :
  accounts (put_status i s m) = accounts m.
Proof. done. Qed.

Lemma put_status_lookup (i : nat) (s : status) (m : manager) :
  (i < length (account_status m))%nat ->
  account_status (put_status i s m) !! i = Some s.
Proof. intros H. rewrite put_account_status. by apply list_lookup_insert_eq. Qed.

Lemma put_status_put (i : nat) (s s' : status) (m : manager) :
  put_status i s' (put_status i s m) = put_status i s' m.
Proof.
  unfold put_status, set_account_status. simpl. by rewrite list_insert_insert_eq.
Qed.

(** *** The health update as one assignment *)

Lemma update_health_eq (now : time) (change : Q) (s : status) :
  update_health now change s = set_health_score (new_health now change s) s.
Proof. unfold update_health, new_health, decayed. by destruct (last_used s). Qed.

Lemma blacklist_eq (now : time) (s : status) :
  blacklist now s
  = set_health_score
      (new_health now (-(50)) (set_blacklisted_until (Some (now + BLACKLIST_DURATION)) s))
      (set_blacklisted_until (Some (now + BLACKLIST_DURATION)) s).
Proof. unfold blacklist. by rewrite update_health_eq. Qed.

Lemma new_health_set_blacklisted_until (now : time) (c : Q) (v : option time)
    (s : status) :
  new_health now c (set_blacklisted_until v s) = new_health now c s.
Proof. unfold new_health, decayed. fields. reflexivity. Qed.

(** The score stored depends on the old score and the last use only. *)
Lemma new_health_ext (now : time) (c : Q) (a b : status) :
  health_score a = health_score b -> last_used a = last_used b ->
  new_health now c a = new_health now c b.
Proof. intros Hh Hl. unfold new_health, decayed. by rewrite Hh, Hl. Qed.

(** *** The clamp *)

Lemma update_health_in_range (now : time) (change : Q) (s : status) :
  in_range (health_score (update_health now change s)).
Proof. unfold update_health. simpl. apply clamp_in_range. Qed.

Lemma blacklist_in_range (now : time) (s : status) :
  in_range (health_score (blacklist now s)).
Proof. apply update_health_in_range. Qed.

Lemma rate_limit_status_in_range (now : time) (minutes : option Q) (s : status) :
  in_range (health_score (rate_limit_status now minutes s)).
Proof.
  unfold rate_limit_status.
  match goal with |- context [if ?b then _ else _] => destruct b end;
    [apply blacklist_in_range | apply update_health_in_range].
Qed.

Lemma failure_status_in_range (now : time) (ty : string) (msg : option string)
    (s : status) :
  in_range (health_score (failure_status now ty msg s)).
Proof. apply update_health_in_range. Qed.

(** *** The manager after an update *)

Lemma updates_put (index : nat) (s' : status) (m : manager) :
  updates index s' m (put_status index s' m).
Proof. done. Qed.

Lemma updates_save (index : nat) (s' : status) (m m' : manager) :
  updates index s' m m' -> updates index s' m (_save_account_status m').
Proof.
  unfold updates. destruct (save_status_fields m') as (-> & -> & -> & ->). done.
Qed.

Lemma updates_put_put (index : nat) (s1 s' : status) (m : manager) :
  updates index s' m (put_status index s' (put_status index s1 m)).
Proof. rewrite put_status_put. done. Qed.

Lemma updates_after_put (index : nat) (s1 s' : status) (m m' : manager) :
  updates index s' (put_status index s1 m) m' -> updates index s' m m'.
Proof.
  unfold updates. intros (-> & -> & -> & ->).
  by rewrite put_account_status, list_insert_insert_eq.
Qed.

Lemma updates_lookup (index : nat) (s' : status) (m m' : manager) :
  (index < length (account_status m))%nat ->
  updates index s' m m' -> account_status m' !! index = Some s'.
Proof. intros Hlt (-> & _). by apply list_lookup_insert_eq. Qed.

Lemma mark_rate_limited_updates (now : time) (index : nat) (minutes : option Q)
    (m : manager) (s : status) :
  account_status m !! index = Some s -> is_Some (accounts m !! index) ->
  exists m', mark_rate_limited now index minutes m = Some m'
             /\ updates index (rate_limit_status now minutes s) m m'.
Proof.
  intros Es [a Ea]. unfold mark_rate_limited. rewrite Es, Ea. cbn.
  eexists; split; [done|]. apply updates_save, updates_put.
Qed.

Lemma blacklist_account_updates (now : time) (index : nat) (m : manager) (s : status) :
  account_status m !! index = Some s -> is_Some (accounts m !! index) ->
  exists m', _blacklist_account now index m = Some m'
             /\ updates index (blacklist now s) m m'.
Proof.
  intros Es [a Ea]. unfold _blacklist_account. rewrite Es, Ea. cbn.
  eexists; split; [done|]. apply updates_put.
Qed.

Lemma mark_failure_updates (now : time) (index : nat) (rl : bool) (ty : string)
    (msg : option string) (m : manager) (s : status) :
  account_status m !! index = Some s -> is_Some (accounts m !! index) ->
  exists m', mark_failure now index rl ty msg m = Some m'
             /\ updates index (failure_result now rl ty msg s) m m'.
Proof.
  intros Es [a Ea].
  assert (Hlt : (index < length (account_status m))%nat) by by eapply lookup_lt_Some.
  unfold mark_failure, failure_result. rewrite Es. cbn.
  set (s1 := failure_status now ty msg s).
  assert (E1 : account_status (put_status index s1 m) !! index = Some s1)
    by by apply put_status_lookup.
  assert (A1 : is_Some (accounts (put_status index s1 m) !! index))
    by (rewrite put_accounts; eauto).
  assert (Hfin : forall m1 s',
    updates index s' m m1 ->
    exists m', (account_status m1 !! index ≫= λ s0 : status,
                 Some (if (2 <=? consecutive_failures s0)%Z
                       then _save_account_status m1 else m1)) = Some m'
               /\ updates index s' m m').
  { intros m1 s' Hu. rewrite (updates_lookup _ _ _ _ Hlt Hu). cbn.
    eexists; split; [done|]. destruct (2 <=? _)%Z; [by apply updates_save | done]. }
  destruct rl; [|destruct (MAX_CONSECUTIVE_FAILURES <=? _)%Z; [|destruct (3 <=? _)%Z]].
  - destruct (mark_rate_limited_updates now index None _ s1 E1 A1) as (m1 & -> & Hu).
    cbn. by eapply Hfin, updates_after_put.
  - destruct (blacklist_account_updates now index _ s1 E1 A1) as (m1 & -> & Hu).
    cbn. by eapply Hfin, updates_after_put.
  - rewrite put_accounts, Ea. cbn. apply Hfin, updates_put_put.
  - cbn. apply Hfin, updates_put.
Qed.

Lemma mark_success_updates (now : time) (index : nat) (rt : option Q)
    (m : manager) (s : status) :
  account_status m !! index = Some s -> is_Some (accounts m !! index) ->
  exists m', mark_success now index rt m = Some m'
             /\ updates index (success_result now index rt (account_status m) s) m m'.
Proof.
  intros Es [a Ea].
  assert (Hlt : (index < length (account_status m))%nat) by by eapply lookup_lt_Some.
  unfold mark_success, success_result, _calculate_response_time_factor.
  rewrite Es. cbn. rewrite put_status_lookup by done. cbn.
  rewrite put_account_status.
  set (s1 := update_health _ _ _).
  destruct (blacklisted_until s1); cbn; rewrite ?put_accounts, ?Ea; cbn;
    (eexists; split; [done|]);
    match goal with |- context [if ?b then _ else _] => destruct b end;
    try apply updates_save; apply updates_put_put.
Qed.

(** *** Every update is defined on a known account and ends in a clamp *)

Lemma known_lookup (index : nat) (m : manager) :
  known index m ->
  exists s, account_status m !! index = Some s /\ is_Some (accounts m !! index).
Proof.
  intros [Hs Ha].
  destruct (lookup_lt_is_Some_2 _ _ Hs) as [s Es].
  exists s. split; [exact Es | by apply lookup_lt_is_Some_2].
Qed.

Lemma clamped_of_updates (index : nat) (s' : status) (m m' : manager) :
  known index m -> updates index s' m m' -> in_range (health_score s') ->
  clamped_at index m m'.
Proof.
  intros [Hs Ha] Hu Hr. pose proof (updates_lookup _ _ _ _ Hs Hu) as Hl.
  destruct Hu as (Hs' & Ha' & _). split.
  - split; [by rewrite Hs', length_insert | by rewrite Ha'].
  - by exists s'.
Qed.

Lemma failure_result_in_range (now : time) (rl : bool) (ty : string)
    (msg : option string) (s : status) :
  in_range (health_score (failure_result now rl ty msg s)).
Proof.
  pose proof (failure_status_in_range now ty msg s) as Hr.
  unfold failure_result.
  generalize dependent (failure_status now ty msg s). intros s1 Hr.
  destruct rl; [apply rate_limit_status_in_range|].
  destruct (MAX_CONSECUTIVE_FAILURES <=? consecutive_failures s1)%Z;
    [apply blacklist_in_range|].
  destruct (3 <=? consecutive_failures s1)%Z; exact Hr.
Qed.

Lemma success_result_in_range (now : time) (index : nat) (rt : option Q)
    (sts : list status) (s : status) :
  in_range (health_score (success_result now index rt sts s)).
Proof.
  unfold success_result. cbv zeta.
  match goal with |- context [update_health ?n ?c ?s0] =>
    pose proof (update_health_in_range n c s0) as Hr;
    generalize dependent (update_health n c s0) end.
  intros s1 Hr. destruct (blacklisted_until s1); exact Hr.
Qed.

Lemma blacklist_account_clamped (now : time) (index : nat) (m : manager) :
  known index m ->
  exists m', _blacklist_account now index m = Some m' /\ clamped_at index m m'.
Proof.
  intros Hk. destruct (known_lookup _ _ Hk) as (s & Es & Ea).
  destruct (blacklist_account_updates now index m s Es Ea) as (m' & E & Hu).
  exists m'. split; [exact E|].
  eapply clamped_of_updates; [exact Hk | exact Hu | apply blacklist_in_range].
Qed.

Lemma mark_rate_limited_clamped (now : time) (index : nat) (minutes : option Q)
    (m : manager) :
  known index m ->
  exists m', mark_rate_limited now index minutes m = Some m' /\ clamped_at index m m'.
Proof.
  intros Hk. destruct (known_lookup _ _ Hk) as (s & Es & Ea).
  destruct (mark_rate_limited_updates now index minutes m s Es Ea) as (m' & E & Hu).
  exists m'. split; [exact E|].
  eapply clamped_of_updates; [exact Hk | exact Hu | apply rate_limit_status_in_range].
Qed.

Lemma mark_success_clamped (now : time) (index : nat) (rt : option Q) (m : manager) :
  known index m ->
  exists m', mark_success now index rt m = Some m' /\ clamped_at index m m'.
Proof.
  intros Hk. destruct (known_lookup _ _ Hk) as (s & Es & Ea).
  destruct (mark_success_updates now index rt m s Es Ea) as (m' & E & Hu).
  exists m'. split; [exact E|].
  eapply clamped_of_updates; [exact Hk | exact Hu | apply success_result_in_range].
Qed.

Lemma mark_failure_clamped (now : time) (index : nat) (rl : bool) (ty : string)
    (msg : option string) (m : manager) :
  known index m ->
  exists m', mark_failure now index rl ty msg m = Some m' /\ clamped_at index m m'.
Proof.
  intros Hk. destruct (known_lookup _ _ Hk) as (s & Es & Ea).
  destruct (mark_failure_updates now index rl ty msg m s Es Ea) as (m' & E & Hu).
  exists m'. split; [exact E|].
  eapply clamped_of_updates; [exact Hk | exact Hu | apply failure_result_in_range].
Qed.

Lemma apply_event_clamped (index : nat) (m : manager) (e : time * event) :
  known index m ->
  exists m', apply_event index m e = Some m' /\ clamped_at index m m'.
Proof.
  intros Hk. destruct e as [now []]; unfold apply_event; cbn.
  - by apply mark_success_clamped.
  - by apply mark_failure_clamped.
  - by apply mark_rate_limited_clamped.
  - by apply blacklist_account_clamped.
Qed.
End Facts.


(** * C1: the health score stays within bounds *)

(** C1.  Whatever sequence of success, failure, rate-limit and blacklist
    updates is applied to an account that the manager knows, every update
    is carried out and leaves the health score of that account between 0
    and 100: each of them ends in the clamp of [_update_health_score],
    after the idle decay and the signed change.  The sequence is
    arbitrary, so the bound holds after each of its updates.  The plain
    manager of [api_manager.py] clamps in the same way. *)
Theorem health_score_within_bounds {RT : Runtime} (index : nat)
    (evs : list (time * event)) (m : manager) :
  known index m -> evs <> [] ->
  (exists m' s, apply_events index evs m = Some m'
                /\ account_status m' !! index = Some s
                /\ 0 <= health_score s /\ health_score s <= 100)
  /\ (forall change h, 0 <= Basic.update_health change h
                       /\ Basic.update_health change h <= 100).
Proof.
  intros Hk Hne. split; [|intros; apply clamp_in_range].
  revert m Hk. induction evs as [|e evs IH]; [done|]. intros m Hk. clear Hne.
  destruct (apply_event_clamped index m e Hk) as (m1 & E1 & Hk1 & s1 & Es1 & Hr1).
  cbn. rewrite E1. cbn.
  destruct evs as [|e' evs'].
  - exists m1, s1. by destruct Hr1.
  - apply IH; done.
Qed.

Lemma health_score_within_bounds_witness :
  exists m' s,
    apply_events (RT := PyModel.runtime) 1
      [(5, Failure false "timeout" None); (6, Failure true "rate_limit" None);
       (40, Success (Some (3 # 10))); (41, RateLimited None); (42, Blacklisted)]
      fresh_manager = Some m'
    /\ account_status m' !! 1%nat = Some s
    /\ 0 <= health_score s /\ health_score s <= 100.
Proof.
  apply (health_score_within_bounds (RT := PyModel.runtime) 1).
  - split; simpl; lia.
  - discriminate.
Defined.

(** * C2: one rate-limit event *)

Section RateLimit.
Context {RT : Runtime}.

(** What [mark_rate_limited] itself does to a status: one more consecutive
    failure, the multiplier times 1.5 capped at 5, and a cooldown of the
    base minutes times the new multiplier. *)
Lemma rate_limit_status_fields (now : time) (minutes : option Q) (s : status) :
  let s' := rate_limit_status now minutes s in
  consecutive_failures s' = (consecutive_failures s + 1)%Z
  /\ failures s' = (failures s + 1)%Z
  /\ total_failures s' = (total_failures s + 1)%Z
  /\ cooldown_multiplier s' = Qmin 5 (cooldown_multiplier s * (3 # 2))
  /\ rate_limited_until s'
     = Some (now + match minutes with
                   | Some q => if Qeq_bool q 0 then RATE_LIMIT_COOLDOWN else q
                   | None => RATE_LIMIT_COOLDOWN
                   end * Qmin 5 (cooldown_multiplier s * (3 # 2))).
Proof.
  unfold rate_limit_status.
  destruct (_ <=? _)%Z; rewrite ?blacklist_eq, update_health_eq; cbn; done.
Qed.

Lemma rate_limit_status_blacklisted_until (now : time) (minutes : option Q)
    (s : status) :
  blacklisted_until (rate_limit_status now minutes s)
  = if (MAX_CONSECUTIVE_FAILURES <=? consecutive_failures s + 1)%Z
    then Some (now + BLACKLIST_DURATION) else blacklisted_until s.
Proof.
  unfold rate_limit_status. cbv zeta. rewrite !update_health_eq. fields.
  destruct (MAX_CONSECUTIVE_FAILURES <=? consecutive_failures s + 1)%Z;
    rewrite ?blacklist_eq; fields; reflexivity.
Qed.

(** The health score after [mark_rate_limited]: the penalty of the rate
    limit, and the change of [_blacklist_account] after it when the
    account is blacklisted. *)
Lemma rate_limit_status_health (now : time) (minutes : option Q) (s : status) :
  health_score (rate_limit_status now minutes s)
  = if (MAX_CONSECUTIVE_FAILURES <=? consecutive_failures s + 1)%Z
    then new_health now (-(50))
           (update_health now (- (HEALTH_PENALTY_RATE * (3 # 2))) s)
    else new_health now (- (HEALTH_PENALTY_RATE * (3 # 2))) s.
Proof.
  unfold rate_limit_status. cbv zeta. rewrite !update_health_eq. fields.
  destruct (MAX_CONSECUTIVE_FAILURES <=? consecutive_failures s + 1)%Z;
    rewrite ?blacklist_eq; fields.
  - apply new_health_ext; fields; [|reflexivity].
    apply new_health_ext; fields; reflexivity.
  - apply new_health_ext; fields; reflexivity.
Qed.

(** What [mark_failure] does before it branches: one more consecutive
    failure as well. *)
Lemma failure_status_fields (now : time) (ty : string) (msg : option string)
    (s : status) :
  let s' := failure_status now ty msg s in
  consecutive_failures s' = (consecutive_failures s + 1)%Z
  /\ failures s' = (failures s + 1)%Z
  /\ total_failures s' = (total_failures s + 1)%Z
  /\ cooldown_multiplier s' = cooldown_multiplier s
  /\ rate_limited_until s' = rate_limited_until s
  /\ blacklisted_until s' = blacklisted_until s
  /\ last_used s' = Some now.
Proof. unfold failure_status. rewrite update_health_eq. cbn. done. Qed.

(** A rate-limit failure passes through both: [mark_failure] counts it and
    hands it to [mark_rate_limited], which counts it again. *)
Lemma mark_failure_rate_limit_counts_twice (now : time) (index : nat) (ty : string)
    (msg : option string) (m : manager) (s : status) :
  account_status m !! index = Some s -> is_Some (accounts m !! index) ->
  holds_after (mark_failure now index true ty msg m) index (fun s' =>
    consecutive_failures s' = (consecutive_failures s + 2)%Z
    /\ failures s' = (failures s + 2)%Z
    /\ total_failures s' = (total_failures s + 2)%Z
    /\ cooldown_multiplier s' = Qmin 5 (cooldown_multiplier s * (3 # 2))
    /\ rate_limited_until s'
       = Some (now + RATE_LIMIT_COOLDOWN * Qmin 5 (cooldown_multiplier s * (3 # 2)))).
Proof.
  intros Es [a Ea].
  assert (Hlt : (index < length (account_status m))%nat) by by eapply lookup_lt_Some.
  unfold mark_failure, mark_rate_limited. rewrite Es. cbn.
  rewrite put_status_lookup by done. cbn. rewrite put_accounts, Ea. cbn.
  rewrite save_account_status, put_status_put, put_status_lookup by done. cbn.
  set (s1 := failure_status now ty msg s).
  assert (H : holds_after (Some (put_status index (rate_limit_status now None s1) m))
                index (fun s' =>
    consecutive_failures s' = (consecutive_failures s + 2)%Z
    /\ failures s' = (failures s + 2)%Z
    /\ total_failures s' = (total_failures s + 2)%Z
    /\ cooldown_multiplier s' = Qmin 5 (cooldown_multiplier s * (3 # 2))
    /\ rate_limited_until s'
       = Some (now + RATE_LIMIT_COOLDOWN * Qmin 5 (cooldown_multiplier s * (3 # 2))))).
  { unfold holds_after. rewrite put_status_lookup by done.
    destruct (rate_limit_status_fields now None s1) as (-> & -> & -> & -> & ->).
    subst s1.
    destruct (failure_status_fields now ty msg s) as (-> & -> & -> & -> & _).
    repeat split; lia. }
  unfold holds_after in *.
  destruct (2 <=? _)%Z; rewrite !save_account_status; exact H.
Qed.
End RateLimit.

(** C2.  The first HTTP 429 on a fresh account, as [run] handles it
    ([mark_failure] with [is_rate_limit=True]).  The cooldown is as stated:
    multiplier 1.5 and [rate_limited_until] 22.5 minutes from now.  But
    the event is counted as two consecutive failures (and two failures in
    each counter), and the health score loses 10 and then 15 points: it is
    75, not 85.  So three such events in a row reach
    [MAX_CONSECUTIVE_FAILURES] and blacklist the account. *)
Theorem rate_limit_event_on_fresh_account :
  holds_after (apply_event (RT := PyModel.runtime) 0 fresh_manager (0, http_429)) 0
    (fun s =>
       consecutive_failures s = 2%Z
       /\ failures s = 2%Z
       /\ total_failures s = 2%Z
       /\ error_types s !! "rate_limit"%string = Some 2%Z
       /\ health_score s == 75
       /\ cooldown_multiplier s == 3 # 2
       /\ (exists t, rate_limited_until s = Some t /\ t == 0 + 45 # 2)
       /\ blacklisted_until s = None)
  /\ holds_after
       (apply_events (RT := PyModel.runtime) 0
          [(0, http_429); (0, http_429); (0, http_429)] fresh_manager) 0
       (fun s =>
          consecutive_failures s = 6%Z
          /\ exists t, blacklisted_until s = Some t /\ t == 0 + BLACKLIST_DURATION).
Proof.
  split.
  - vm_compute. repeat split; try reflexivity. eexists; split; reflexivity.
  - vm_compute. split; [reflexivity|]. eexists; split; reflexivity.
Qed.


(** * C4: blacklisting *)

Lemma blacklisted_unavailable (t b : time) (s : status) :
  blacklisted_until s = Some b -> t < b -> available t s = false.
Proof.
  intros Hb Hlt. apply Qltb_lt in Hlt. unfold available, Qgtb. rewrite Hb, Hlt.
  destruct (rate_limited_until s) as [r|]; [destruct (Qltb t r)|]; done.
Qed.

(** C4, as stated, fails: rate-limit handling sets [blacklisted_until]
    too.  Five calls of [mark_rate_limited] on a fresh account, and no
    other failure: the fifth one blacklists the account for 30 minutes. *)
Lemma rate_limit_handling_blacklists :
  holds_after
    (apply_events (RT := PyModel.runtime) 0
       [(0, RateLimited None); (0, RateLimited None); (0, RateLimited None);
        (0, RateLimited None)] fresh_manager) 0
    (fun s => consecutive_failures s = 4%Z /\ blacklisted_until s = None)
  /\ holds_after
       (apply_events (RT := PyModel.runtime) 0
          [(0, RateLimited None); (0, RateLimited None); (0, RateLimited None);
           (0, RateLimited None); (0, RateLimited None)] fresh_manager) 0
       (fun s => consecutive_failures s = 5%Z
                 /\ error_types s = {["rate_limit"%string := 5%Z]}
                 /\ exists t, blacklisted_until s = Some t /\ t == 30).
Proof.
  split; vm_compute.
  - done.
  - split; [done|]. split; [done|]. eexists; split; reflexivity.
Qed.

(** C4, amended.  Both failure paths blacklist, and on the same test.  A
    failure that is no rate limit adds one consecutive failure; when the
    count is then at least [MAX_CONSECUTIVE_FAILURES], [blacklisted_until]
    is now + 30 minutes, the health score is the clamped result of a
    further change of -50, and the account is unavailable at every time
    before [blacklisted_until] (as long as the status stays as it is);
    below the maximum, [blacklisted_until] is not touched.
    [mark_rate_limited] does the same with its own increment: there the
    change of -50 is applied, and clamped, after the penalty of the rate
    limit. *)
Theorem blacklist_at_max_consecutive_failures {RT : Runtime} (now : time)
    (index : nat) (ty : string) (msg : option string) (minutes : option Q)
    (m : manager) (s : status) :
  account_status m !! index = Some s -> is_Some (accounts m !! index) ->
  holds_after (mark_failure now index false ty msg m) index (fun s' =>
    consecutive_failures s' = (consecutive_failures s + 1)%Z
    /\ if (MAX_CONSECUTIVE_FAILURES <=? consecutive_failures s + 1)%Z
       then blacklisted_until s' = Some (now + BLACKLIST_DURATION)
            /\ health_score s' = new_health now (-(50)) (failure_status now ty msg s)
            /\ forall t, t < now + BLACKLIST_DURATION -> available t s' = false
       else blacklisted_until s' = blacklisted_until s)
  /\ holds_after (mark_rate_limited now index minutes m) index (fun s' =>
    consecutive_failures s' = (consecutive_failures s + 1)%Z
    /\ if (MAX_CONSECUTIVE_FAILURES <=? consecutive_failures s + 1)%Z
       then blacklisted_until s' = Some (now + BLACKLIST_DURATION)
            /\ health_score s'
               = new_health now (-(50))
                   (update_health now (- (HEALTH_PENALTY_RATE * (3 # 2))) s)
            /\ forall t, t < now + BLACKLIST_DURATION -> available t s' = false
       else blacklisted_until s' = blacklisted_until s).
Proof.
  intros Es Ha.
  assert (Hlt : (index < length (account_status m))%nat) by by eapply lookup_lt_Some.
  split.
  - destruct (mark_failure_updates now index false ty msg m s Es Ha) as (m' & -> & Hu).
    unfold holds_after. rewrite (updates_lookup _ _ _ _ Hlt Hu).
    unfold failure_result. cbv zeta.
    pose proof (failure_status_fields now ty msg s) as Hf. cbv zeta in Hf.
    revert Hf. generalize (failure_status now ty msg s).
    intros s1 (Hc & _ & _ & _ & Hr & Hb & _).
    rewrite Hc. destruct (MAX_CONSECUTIVE_FAILURES <=? consecutive_failures s + 1)%Z.
    + rewrite blacklist_eq. fields. split; [exact Hc|]. split; [reflexivity|].
      split; [apply new_health_set_blacklisted_until|].
      intros t Ht. eapply blacklisted_unavailable; [reflexivity | exact Ht].
    + destruct (3 <=? consecutive_failures s + 1)%Z; fields; split; assumption.
  - destruct (mark_rate_limited_updates now index minutes m s Es Ha) as (m' & -> & Hu).
    unfold holds_after. rewrite (updates_lookup _ _ _ _ Hlt Hu).
    destruct (rate_limit_status_fields now minutes s) as (Hc & _).
    split; [exact Hc|]. clear Hc.
    pose proof (rate_limit_status_blacklisted_until now minutes s) as Hb.
    pose proof (rate_limit_status_health now minutes s) as Hh.
    revert Hb Hh. generalize (rate_limit_status now minutes s). intros s1 Hb Hh.
    destruct (MAX_CONSECUTIVE_FAILURES <=? consecutive_failures s + 1)%Z.
    + split; [exact Hb|]. split; [exact Hh|].
      intros t Ht. eapply blacklisted_unavailable; [exact Hb | exact Ht].
    + exact Hb.
Qed.

Lemma blacklist_at_max_consecutive_failures_witness :
  holds_after (mark_failure (RT := PyModel.runtime) 4 0 false "timeout" None four_failures)
    0 (fun s' =>
    consecutive_failures s' = (consecutive_failures four_failures_status + 1)%Z
    /\ if (MAX_CONSECUTIVE_FAILURES <=? consecutive_failures four_failures_status + 1)%Z
       then blacklisted_until s' = Some (4 + BLACKLIST_DURATION)
            /\ health_score s'
               = new_health (RT := PyModel.runtime) 4 (-(50))
                   (failure_status (RT := PyModel.runtime) 4 "timeout" None
                      four_failures_status)
            /\ forall t, t < 4 + BLACKLIST_DURATION -> available t s' = false
       else blacklisted_until s' = blacklisted_until four_failures_status)
  /\ holds_after (mark_rate_limited (RT := PyModel.runtime) 4 0 None four_failures)
    0 (fun s' =>
    consecutive_failures s' = (consecutive_failures four_failures_status + 1)%Z
    /\ if (MAX_CONSECUTIVE_FAILURES <=? consecutive_failures four_failures_status + 1)%Z
       then blacklisted_until s' = Some (4 + BLACKLIST_DURATION)
            /\ health_score s'
               = new_health (RT := PyModel.runtime) 4 (-(50))
                   (update_health (RT := PyModel.runtime) 4
                      (- (HEALTH_PENALTY_RATE * (3 # 2))) four_failures_status)
            /\ forall t, t < 4 + BLACKLIST_DURATION -> available t s' = false
       else blacklisted_until s' = blacklisted_until four_failures_status).
Proof.
  apply (blacklist_at_max_consecutive_failures (RT := PyModel.runtime)
           4 0 "timeout" None None four_failures four_failures_status).
  - vm_compute. reflexivity.
  - vm_compute. eauto.
Defined.

(** * C9: a success without a usable response time *)

Section SuccessFrame.
Context {RT : Runtime}.

Lemma record_response_time_falsy (rt : option Q) (s : status) :
  truthy_time rt = false -> record_response_time rt s = s.
Proof.
  destruct rt as [q|]; [|done]. cbn. intros H%negb_false_iff.
  unfold record_response_time. by rewrite H.
Qed.

Lemma record_response_time_truthy (q : Q) (s : status) :
  truthy_time (Some q) = true ->
  let l := response_times s ++ [q] in
  let l' := if (10 <? length l)%nat then last10 l else l in
  response_times (record_response_time (Some q) s) = l'
  /\ avg_response_time (record_response_time (Some q) s) = Some (average l').
Proof.
  intros H%negb_true_iff. unfold record_response_time. rewrite H.
  cbn [response_times set_response_times].
  destruct (10 <? length (response_times s ++ [q]))%nat; done.
Qed.

Lemma record_response_time_frame (rt : option Q) (s : status) :
  record_response_time rt s
  = set_avg_response_time (avg_response_time (record_response_time rt s))
      (set_response_times (response_times (record_response_time rt s)) s).
Proof.
  unfold record_response_time.
  destruct rt as [q|]; [destruct (Qeq_bool q 0)|]; cbv zeta; fields;
    try destruct (10 <? length (response_times s ++ [q]))%nat; fields;
    destruct s; reflexivity.
Qed.

Lemma success_status_fields (now : time) (rt : option Q) (s : status) :
  let s' := success_status now rt s in
  last_success s' = Some now
  /\ last_used s' = Some now
  /\ failures s' = 0%Z
  /\ consecutive_failures s' = 0%Z
  /\ total_requests s' = (total_requests s + 1)%Z
  /\ total_failures s' = total_failures s
  /\ success_streak s' = (success_streak s + 1)%Z
  /\ cooldown_multiplier s' = Qmax 1 (cooldown_multiplier s * (8 # 10))
  /\ rate_limited_until s' = rate_limited_until s
  /\ error_types s' = error_types s
  /\ last_error s' = last_error s.
Proof.
  unfold success_status. cbv zeta.
  rewrite (record_response_time_frame rt). fields. repeat split; reflexivity.
Qed.
Lemma success_status_samples (now : time) (rt : option Q) (s : status) :
  if truthy_time rt then
    match rt with
    | Some q =>
        let l := response_times s ++ [q] in
        let l' := if (10 <? length l)%nat then last10 l else l in
        response_times (success_status now rt s) = l'
        /\ avg_response_time (success_status now rt s) = Some (average l')
    | None => False
    end
  else response_times (success_status now rt s) = response_times s
       /\ avg_response_time (success_status now rt s) = avg_response_time s.
Proof.
  unfold success_status. cbv zeta. fields.
  assert (G : forall s0, response_times s0 = response_times s ->
                         avg_response_time s0 = avg_response_time s ->
    if truthy_time rt then
      match rt with
      | Some q =>
          let l := response_times s ++ [q] in
          let l' := if (10 <? length l)%nat then last10 l else l in
          response_times (record_response_time rt s0) = l'
          /\ avg_response_time (record_response_time rt s0) = Some (average l')
      | None => False
      end
    else response_times (record_response_time rt s0) = response_times s
         /\ avg_response_time (record_response_time rt s0) = avg_response_time s).
  { intros s0 Hr Ha. destruct (truthy_time rt) eqn:Et.
    - destruct rt as [q|]; [|discriminate].
      destruct (record_response_time_truthy q s0 Et) as [E1 E2].
      cbv zeta in *. rewrite <- Hr. split; assumption.
    - rewrite record_response_time_falsy by exact Et. split; assumption. }
  apply G; reflexivity.
Qed.

Lemma success_result_eq (now : time) (index : nat) (rt : option Q)
    (sts : list status) (s : status) :
  success_result now index rt sts s
  = set_blacklisted_until None
      (set_health_score
         (new_health now
            (HEALTH_RECOVERY_RATE
             * response_time_factor (success_status now rt s)
                 (<[index := success_status now rt s]> sts)
             + streak_bonus (success_status now rt s))
            (success_status now rt s))
         (success_status now rt s)).
Proof.
  unfold success_result. cbv zeta. rewrite update_health_eq.
  generalize (new_health now
            (HEALTH_RECOVERY_RATE
             * response_time_factor (success_status now rt s)
                 (<[index := success_status now rt s]> sts)
             + streak_bonus (success_status now rt s))
            (success_status now rt s)).
  generalize (success_status now rt s). intros s1 h. fields.
  destruct s1 as [? ? ? [b|] ? ? ? ? ? ? ? ? ? ? ?]; reflexivity.
Qed.
End SuccessFrame.

(** C9.  [mark_success] with a response time of [None] or zero leaves
    [response_times] and [avg_response_time] of the account as they were,
    and still records the success: the two timestamps, the reset failure
    counters, the request count, the streak, the recovered cooldown
    multiplier, the cleared blacklist and the clamped health update.  Any
    other response time is appended (the list cut to its last 10) and the
    average is recomputed. *)
Theorem mark_success_discards_falsy_response_time {RT : Runtime} (now : time)
    (index : nat) (rt : option Q) (m : manager) (s : status) :
  account_status m !! index = Some s -> is_Some (accounts m !! index) ->
  holds_after (mark_success now index rt m) index (fun s' =>
    (if truthy_time rt then
       match rt with
       | Some q =>
           let l := response_times s ++ [q] in
           let l' := if (10 <? length l)%nat then last10 l else l in
           response_times s' = l' /\ avg_response_time s' = Some (average l')
       | None => False
       end
     else response_times s' = response_times s
          /\ avg_response_time s' = avg_response_time s)
    /\ last_success s' = Some now
    /\ last_used s' = Some now
    /\ failures s' = 0%Z
    /\ consecutive_failures s' = 0%Z
    /\ total_requests s' = (total_requests s + 1)%Z
    /\ success_streak s' = (success_streak s + 1)%Z
    /\ cooldown_multiplier s' = Qmax 1 (cooldown_multiplier s * (8 # 10))
    /\ blacklisted_until s' = None
    /\ health_score s'
       = new_health now
           (HEALTH_RECOVERY_RATE
            * response_time_factor (success_status now rt s)
                (<[index := success_status now rt s]> (account_status m))
            + streak_bonus (success_status now rt s))
           (success_status now rt s)
    /\ 0 <= health_score s' /\ health_score s' <= 100).
Proof.
  intros Es Ha.
  assert (Hlt : (index < length (account_status m))%nat) by by eapply lookup_lt_Some.
  destruct (mark_success_updates now index rt m s Es Ha) as (m' & -> & Hu).
  unfold holds_after. rewrite (updates_lookup _ _ _ _ Hlt Hu).
  rewrite success_result_eq. fields.
  destruct (success_status_fields now rt s) as (H1 & H2 & H3 & H4 & H5 & _ & H7 & H8 & _).
  split; [apply success_status_samples|].
  repeat (split; [assumption || reflexivity|]).
  unfold new_health. apply clamp_in_range.
Qed.

Lemma mark_success_discards_falsy_response_time_witness :
  holds_after (mark_success (RT := PyModel.runtime) 9 0 (Some 0) four_failures) 0
    (fun s' =>
    (if truthy_time (Some 0) then
       match Some 0 with
       | Some q =>
           let l := response_times four_failures_status ++ [q] in
           let l' := if (10 <? length l)%nat then last10 l else l in
           response_times s' = l' /\ avg_response_time s' = Some (average l')
       | None => False
       end
     else response_times s' = response_times four_failures_status
          /\ avg_response_time s' = avg_response_time four_failures_status)
    /\ last_success s' = Some 9
    /\ last_used s' = Some 9
    /\ failures s' = 0%Z
    /\ consecutive_failures s' = 0%Z
    /\ total_requests s' = (total_requests four_failures_status + 1)%Z
    /\ success_streak s' = (success_streak four_failures_status + 1)%Z
    /\ cooldown_multiplier s' = Qmax 1 (cooldown_multiplier four_failures_status * (8 # 10))
    /\ blacklisted_until s' = None
    /\ health_score s'
       = new_health (RT := PyModel.runtime) 9
           (HEALTH_RECOVERY_RATE
            * response_time_factor (success_status 9 (Some 0) four_failures_status)
                (<[0%nat := success_status 9 (Some 0) four_failures_status]> (account_status four_failures))
            + streak_bonus (success_status 9 (Some 0) four_failures_status))
           (success_status 9 (Some 0) four_failures_status)
    /\ 0 <= health_score s' /\ health_score s' <= 100).
Proof.
  apply (mark_success_discards_falsy_response_time (RT := PyModel.runtime)
           9 0 (Some 0) four_failures four_failures_status).
  - vm_compute. reflexivity.
  - vm_compute. eauto.
Defined.

(** * Selection *)

Section Selection.
Context {RT : Runtime}.

(** *** The health check keeps availability and last use *)

Lemma available_update_health (t now : time) (c : Q) (s : status) :
  available t (update_health now c s) = available t s.
Proof. by rewrite update_health_eq. Qed.

Lemma Qgtb_false_of_le (t now : time) : Qle_bool t now = true -> Qgtb t now = false.
Proof. intros H. apply Qltb_ge. by apply Qle_bool_iff. Qed.

(** One pass of the check rewrites the score and clears the limits that
    have expired; nothing else of the entry changes. *)
Lemma health_check_status_shape (now : time) (s : status) :
  exists h r b,
    health_check_status now s
    = set_blacklisted_until b (set_rate_limited_until r (set_health_score h s))
    /\ (r = rate_limited_until s
        \/ r = None /\ exists t, rate_limited_until s = Some t /\ Qle_bool t now = true)
    /\ (b = blacklisted_until s
        \/ b = None /\ exists t, blacklisted_until s = Some t /\ Qle_bool t now = true).
Proof.
  unfold health_check_status. cbv zeta.
  destruct s as [f cf rl bl ls tr tf hs cm lu av rts et le ss]. fields.
  destruct lu as [lu|]; [destruct (Qgtb (hours_since now lu) 24)|];
    rewrite ?update_health_eq; fields;
    (destruct rl as [r|]; [destruct (Qle_bool r now) eqn:Er|]); fields;
    (destruct bl as [b|]; [destruct (Qle_bool b now) eqn:Eb|]); fields;
    do 3 eexists; (split; [setters; reflexivity|]); split; eauto.
Qed.

Lemma health_check_status_last_used (now : time) (s : status) :
  last_used (health_check_status now s) = last_used s.
Proof.
  destruct (health_check_status_shape now s) as (h & r & b & -> & _).
  fields. reflexivity.
Qed.

Lemma health_check_status_available (now : time) (s : status) :
  available now (health_check_status now s) = available now s.
Proof.
  destruct (health_check_status_shape now s) as (h & r & b & -> & Hr & Hb).
  unfold available. fields.
  destruct Hr as [-> | [-> (t & -> & Ht)]];
    destruct Hb as [-> | [-> (t' & -> & Ht')]];
    rewrite ?(Qgtb_false_of_le _ _ Ht), ?(Qgtb_false_of_le _ _ Ht');
    cbn [negb]; try reflexivity.
  all: destruct (rate_limited_until s) as [q|]; [destruct (Qgtb q now)|]; reflexivity.
Qed.

(** *** What [_run_health_check] returns *)

Lemma run_health_check_checked (now : time) (m : manager) :
  length (accounts m) = length (account_status m) ->
  exists m1, _run_health_check now m = Some m1
             /\ account_status m1 = checked now m
             /\ accounts m1 = accounts m
             /\ current_index m1 = current_index m.
Proof.
  intros Hlen. unfold _run_health_check, checked, check_due.
  destruct (Qltb _ _); cbn; [by eexists|].
  rewrite Hlen, Nat.leb_refl, firstn_all, drop_all, app_nil_r.
  eexists; split; [done|].
  by rewrite save_account_status, save_accounts, save_current_index.
Qed.

Lemma checked_lookup (now : time) (m : manager) (i : nat) :
  exists f, (forall s, available now (f s) = available now s)
            /\ (forall s, last_used (f s) = last_used s)
            /\ checked now m !! i = f <$> account_status m !! i
            /\ (check_due now m = false -> forall s, f s = s).
Proof.
  unfold checked. destruct (check_due now m).
  - exists (health_check_status now). split; [apply health_check_status_available|].
    split; [apply health_check_status_last_used|]. split; [apply list_lookup_fmap | done].
  - exists id. repeat split; try done. by destruct (_ !! _).
Qed.

Lemma checked_length (now : time) (m : manager) :
  length (checked now m) = length (account_status m).
Proof. unfold checked. destruct (check_due now m); by rewrite ?length_fmap. Qed.

(** *** The three loops *)

Lemma best_available_index (now : time) (sts : list status) (i : nat) (bs : Q)
    (bi : option nat) (sc : Q) (r : nat) :
  best_available now sts i bs bi = (sc, Some r) ->
  (bi = Some r /\ sc = bs)
  \/ exists k s, r = (i + k)%nat /\ sts !! k = Some s
                 /\ available now s = true /\ sc = health_score s.
Proof.
  revert i bs bi. induction sts as [|s0 sts IH]; intros i bs bi; cbn.
  - intros [= -> ->]. by left.
  - destruct (available now s0 && Qgtb (health_score s0) bs) eqn:E; intros H;
      apply IH in H as [[H1 H2] | (k & s & -> & Hk & Ha & Hs)].
    + right. exists 0%nat, s0. apply andb_true_iff in E as [Ea _].
      injection H1 as <-. rewrite Nat.add_0_r. done.
    + right. exists (S k), s. split; [lia | done].
    + by left.
    + right. exists (S k), s. split; [lia | done].
Qed.

Lemma best_available_no_better (now : time) (sts : list status) (i : nat) (bs : Q)
    (bi : option nat) :
  (forall k s, sts !! k = Some s -> available now s = true -> health_score s <= bs) ->
  best_available now sts i bs bi = (bs, bi).
Proof.
  revert i. induction sts as [|s0 sts IH]; intros i H; cbn; [done|].
  destruct (available now s0) eqn:Ea; cbn.
  - assert (Hle : health_score s0 <= bs) by by apply (H 0%nat).
    apply Qltb_ge in Hle. unfold Qgtb. rewrite Hle.
    apply IH. intros k s Hk. by apply (H (S k)).
  - apply IH. intros k s Hk. by apply (H (S k)).
Qed.

(** Strategy 1 finds the available account whose score is strictly the
    highest. *)
Lemma best_available_strict_max (now : time) (sts : list status) (k : nat) (bs : Q)
    (bi : option nat) (i : nat) (s : status) :
  sts !! i = Some s -> available now s = true -> bs < health_score s ->
  (forall j s2, sts !! j = Some s2 -> available now s2 = true -> j <> i ->
                health_score s2 < health_score s) ->
  best_available now sts k bs bi = (health_score s, Some (k + i)%nat).
Proof.
  revert k bs bi i. induction sts as [|s0 sts IH]; intros k bs bi i Hi Ha Hbs Hmax;
    [done|].
  destruct i as [|i]; cbn in *.
  - injection Hi as ->. apply Qltb_lt in Hbs. unfold Qgtb. rewrite Ha, Hbs. cbn.
    rewrite Nat.add_0_r. apply best_available_no_better.
    intros j s2 Hj Ha2. apply Qlt_le_weak. by apply (Hmax (S j)).
  - replace (k + S i)%nat with (S k + i)%nat by lia.
    destruct (available now s0 && Qgtb (health_score s0) bs) eqn:E.
    + apply andb_true_iff in E as [Ea0 _]. apply IH; try done.
      * by apply (Hmax 0%nat).
      * intros j s2 Hj Ha2 Hne. apply (Hmax (S j)); [done | done | lia].
    + apply IH; try done.
      intros j s2 Hj Ha2 Hne. apply (Hmax (S j)); [done | done | lia].
Qed.

Lemma least_recent_index (now : time) (sts : list status) (i : nat)
    (lrt : option time) (lri : option nat) (r : nat) :
  snd (least_recent now sts i lrt lri) = Some r ->
  lri = Some r
  \/ exists k s, r = (i + k)%nat /\ sts !! k = Some s /\ available now s = true.
Proof.
  revert i lrt lri. induction sts as [|s0 sts IH]; intros i lrt lri; cbn.
  - by left.
  - destruct (available now s0 && replaces_least_recent (last_used s0) lrt) eqn:E;
      intros H; apply IH in H as [H1 | (k & s & -> & Hk & Ha)].
    + right. exists 0%nat, s0. apply andb_true_iff in E as [Ea _].
      injection H1 as <-. rewrite Nat.add_0_r. done.
    + right. exists (S k), s. split; [lia | done].
    + by left.
    + right. exists (S k), s. split; [lia | done].
Qed.

Lemma least_recent_found (now : time) (sts : list status) (i : nat)
    (lrt : option time) (lri : option nat) :
  (lri = None -> lrt = None) ->
  (exists k s, sts !! k = Some s /\ available now s = true) ->
  is_Some (snd (least_recent now sts i lrt lri)).
Proof.
  revert i lrt lri. induction sts as [|s0 sts IH]; intros i lrt lri Hinv (k & s & Hk & Ha);
    [done|]. cbn.
  assert (Hkeep : forall j t x, is_Some (snd (least_recent now sts j t (Some x)))).
  { clear. intros j t x. revert j t x. induction sts as [|s1 sts IH]; intros j t x; cbn;
      [by eexists|]. destruct (_ && _); apply IH. }
  destruct (available now s0 && replaces_least_recent (last_used s0) lrt) eqn:E;
    [apply Hkeep|].
  destruct lri as [x|]; [apply Hkeep|].
  rewrite (Hinv eq_refl) in E |- *.
  destruct k as [|k]; cbn in Hk.
  - injection Hk as ->. rewrite Ha in E. by destruct (last_used s).
  - apply IH; [done | eauto].
Qed.

Lemma least_recent_no_older (now : time) (sts : list status) (i : nat) (t : time)
    (x : nat) :
  (forall j s, sts !! j = Some s -> available now s = true ->
               exists t2, last_used s = Some t2 /\ t <= t2) ->
  least_recent now sts i (Some t) (Some x) = (Some t, Some x).
Proof.
  revert i. induction sts as [|s0 sts IH]; intros i H; cbn; [done|].
  destruct (available now s0) eqn:Ea; cbn.
  - destruct (H 0%nat s0 eq_refl Ea) as (t2 & -> & Hle). cbn.
    apply Qltb_ge in Hle. rewrite Hle. apply IH. intros j s Hj. by apply (H (S j)).
  - apply IH. intros j s Hj. by apply (H (S j)).
Qed.

(** Strategy 2, when every available account has been used: the first
    account with the earliest [last_used]. *)
Lemma least_recent_first_min (now : time) (sts : list status) (k : nat)
    (lrt : option time) (lri : option nat) (i : nat) (s : status) (t : time) :
  sts !! i = Some s -> available now s = true -> last_used s = Some t ->
  (forall t0, lrt = Some t0 -> t < t0) ->
  (forall j s2, sts !! j = Some s2 -> available now s2 = true -> j <> i ->
                exists t2, last_used s2 = Some t2
                           /\ ((j < i)%nat -> t < t2) /\ ((i < j)%nat -> t <= t2)) ->
  least_recent now sts k lrt lri = (Some t, Some (k + i)%nat).
Proof.
  revert k lrt lri i. induction sts as [|s0 sts IH];
    intros k lrt lri i Hi Ha Hlu Hlrt Hmin; [done|].
  destruct i as [|i]; cbn in *.
  - injection Hi as ->. rewrite Ha, Hlu. cbn.
    assert (Hrep : match lrt with Some lrt0 => Qltb t lrt0 | None => true end = true).
    { destruct lrt as [t0|]; [|done]. apply Qltb_lt. by apply Hlrt. }
    rewrite Hrep, Nat.add_0_r. apply least_recent_no_older.
    intros j s2 Hj Ha2. destruct (Hmin (S j) s2 Hj Ha2) as (t2 & E2 & _ & Hge); [lia|].
    exists t2. split; [done|]. apply Hge. lia.
  - replace (k + S i)%nat with (S k + i)%nat by lia.
    assert (Hrest : forall j s2, sts !! j = Some s2 -> available now s2 = true -> j <> i ->
                exists t2, last_used s2 = Some t2
                           /\ ((j < i)%nat -> t < t2) /\ ((i < j)%nat -> t <= t2)).
    { intros j s2 Hj Ha2 Hne. destruct (Hmin (S j) s2 Hj Ha2) as (t2 & E2 & Hl & Hg); [lia|].
      exists t2. split; [done|]. split; intros; [apply Hl | apply Hg]; lia. }
    destruct (available now s0 && replaces_least_recent (last_used s0) lrt) eqn:E.
    + apply andb_true_iff in E as [Ea0 _].
      destruct (Hmin 0%nat s0 eq_refl Ea0) as (t0 & E0 & Hl & _); [lia|].
      apply IH; try done. rewrite E0. intros ? [= <-]. apply Hl. lia.
    + apply IH; done.
Qed.

(** *** The index selected *)

Lemma select_index_available (now : time) (sts : list status) :
  (exists k s, sts !! k = Some s /\ available now s = true) ->
  exists r s, select_index now sts = Some r /\ sts !! r = Some s
              /\ available now s = true.
Proof.
  intros Hex. unfold select_index.
  destruct (best_available now sts 0 (- (1)) None) as [sc bi] eqn:Eb.
  destruct (least_recent_found now sts 0 None None (fun _ => eq_refl) Hex) as [l El].
  rewrite El.
  assert (Hl : exists s, sts !! l = Some s /\ available now s = true).
  { apply least_recent_index in El as [? | (k & s & -> & Hk & Ha)]; [done | eauto]. }
  destruct Hl as (sl & Hl & Hal).
  destruct bi as [b|]; [|by exists l, sl].
  destruct (Qgtb sc MIN_HEALTH_FOR_PRIMARY); [|by exists l, sl].
  apply best_available_index in Eb as [[? _] | (k & s & -> & Hk & Ha & _)]; [done|].
  by exists k, s.
Qed.

Lemma select_index_strict_max (now : time) (sts : list status) (i : nat) (s : status) :
  sts !! i = Some s -> available now s = true ->
  MIN_HEALTH_FOR_PRIMARY < health_score s ->
  (forall j s2, sts !! j = Some s2 -> available now s2 = true -> j <> i ->
                health_score s2 < health_score s) ->
  select_index now sts = Some i.
Proof.
  intros Hi Ha Hmin Hmax. unfold select_index.
  rewrite (best_available_strict_max now sts 0 (- (1)) None i s Hi Ha); [|..|done].
  - apply Qltb_lt in Hmin. unfold Qgtb. by rewrite Hmin.
  - eapply Qlt_trans; [|exact Hmin]. done.
Qed.

Lemma select_index_least_recent (now : time) (sts : list status) (i : nat)
    (s : status) (t : time) :
  (forall j s2, sts !! j = Some s2 -> available now s2 = true ->
                health_score s2 <= MIN_HEALTH_FOR_PRIMARY) ->
  sts !! i = Some s -> available now s = true -> last_used s = Some t ->
  (forall j s2, sts !! j = Some s2 -> available now s2 = true -> j <> i ->
                exists t2, last_used s2 = Some t2
                           /\ ((j < i)%nat -> t < t2) /\ ((i < j)%nat -> t <= t2)) ->
  select_index now sts = Some i.
Proof.
  intros Hlow Hi Ha Hlu Hmin. unfold select_index.
  destruct (best_available now sts 0 (- (1)) None) as [sc bi] eqn:Eb.
  rewrite (least_recent_first_min now sts 0 None None i s t Hi Ha Hlu); [|done|done].
  cbn. destruct bi as [b|]; [|done].
  apply best_available_index in Eb as [[? _] | (k & s2 & -> & Hk & Ha2 & ->)]; [done|].
  pose proof (Hlow k s2 Hk Ha2) as Hle. apply Qltb_ge in Hle.
  unfold Qgtb. by rewrite Hle.
Qed.
End Selection.

(** *** [switch_account] through its selection *)

Lemma switch_account_selected {RT : Runtime} (now : time) (m : manager) (i : nat) :
  length (accounts m) = length (account_status m) ->
  select_index now (checked now m) = Some i ->
  (i < length (account_status m))%nat ->
  exists m' a, switch_account now m = Some (m', a)
               /\ current_index m' = i
               /\ accounts m !! i = Some a
               /\ accounts m' = accounts m
               /\ account_status m' = checked now m.
Proof.
  intros Hlen Hsel Hlt.
  destruct (run_health_check_checked now m Hlen) as (m1 & E1 & Hs & Ha & Hc).
  unfold switch_account. rewrite E1. cbn. rewrite Hs, Hsel.
  unfold get_active_account. cbn. rewrite Ha.
  destruct (lookup_lt_is_Some_2 (accounts m) i) as [a Ea]; [lia|].
  rewrite Ea. cbn. by exists (set_current_index i m1), a.
Qed.

(** * C3: the selector and availability *)

(** C3, as stated, fails in its second part: [switch_account] first runs
    the health check, which is due here (ten days after the last one) and
    decays the score of the account that was idle for those ten days from
    80 to below the primary threshold; the account with score 40 is
    returned. *)
Lemma stale_score_80_not_selected :
  (account_status scores_80_40 !! 0%nat ≫= λ s,
     Some (Qeq_bool (health_score s) 80, available 14400 s)) = Some (true, true)
  /\ (account_status scores_80_40 !! 1%nat ≫= λ s,
        Some (Qeq_bool (health_score s) 40, available 14400 s)) = Some (true, true)
  /\ (switch_account (RT := PyModel.runtime) 14400 scores_80_40 ≫= λ r,
        Some (current_index (fst r), account_id (snd r)))
     = Some (1%nat, "ACCOUNT_ID_2"%string).
Proof. vm_compute. done. Qed.

(** C3, amended.  Whenever some account is available, [switch_account]
    returns an available account (not rate limited, not blacklisted).  The
    scores it compares are those the health check leaves, which are the
    stored ones unless the check is due; among these, an available account
    whose score exceeds [MIN_HEALTH_FOR_PRIMARY] and is strictly higher
    than that of every other available account is the one returned (so 80
    wins over 40). *)
Theorem switch_account_returns_available {RT : Runtime} (now : time) (m : manager) :
  length (accounts m) = length (account_status m) ->
  (exists i s, account_status m !! i = Some s /\ available now s = true) ->
  exists m' a s',
    switch_account now m = Some (m', a)
    /\ accounts m !! current_index m' = Some a
    /\ account_status m' !! current_index m' = Some s'
    /\ available now s' = true
    /\ account_status m' = checked now m
    /\ (check_due now m = false -> checked now m = account_status m)
    /\ (forall i s,
          checked now m !! i = Some s -> available now s = true ->
          MIN_HEALTH_FOR_PRIMARY < health_score s ->
          (forall j s2, checked now m !! j = Some s2 -> available now s2 = true ->
                        j <> i -> health_score s2 < health_score s) ->
          current_index m' = i).
Proof.
  intros Hlen (i0 & s0 & Hi0 & Ha0).
  assert (Hex : exists k s, checked now m !! k = Some s /\ available now s = true).
  { destruct (checked_lookup now m i0) as (f & Hf & _ & Hl & _).
    exists i0, (f s0). by rewrite Hl, Hi0, Hf. }
  destruct (select_index_available now _ Hex) as (r & s & Hsel & Hr & Ha).
  assert (Hlt : (r < length (account_status m))%nat).
  { rewrite <- (checked_length now m). by eapply lookup_lt_Some. }
  destruct (switch_account_selected now m r Hlen Hsel Hlt) as (m' & a & E & Hc & Hacc & _ & Hs).
  exists m', a, s. rewrite Hc, Hs. repeat split; try done.
  - unfold checked. by intros ->.
  - intros i s1 Hi Ha1 Hmin Hmax.
    rewrite (select_index_strict_max now _ i s1 Hi Ha1 Hmin Hmax) in Hsel. congruence.
Qed.

Lemma switch_account_returns_available_witness :
  exists m' a s',
    switch_account (RT := PyModel.runtime) 10 scores_80_40 = Some (m', a)
    /\ account_status m' !! current_index m' = Some s'
    /\ available 10 s' = true
    /\ current_index m' = 0%nat.
Proof.
  destruct (switch_account_returns_available (RT := PyModel.runtime) 10 scores_80_40)
    as (m' & a & s' & E & _ & Hs & Ha & _ & Hnd & Hmax).
  - reflexivity.
  - exists 0%nat, (status_with 80 (Some 0)). split; reflexivity.
  - exists m', a, s'. repeat split; try done.
    apply (Hmax 0%nat (status_with 80 (Some 0))).
    + rewrite Hnd; reflexivity.
    + reflexivity.
    + reflexivity.
    + rewrite Hnd by reflexivity. intros [|[|j]] s2 Hj Ha2 Hne; [done| |done].
      injection Hj as <-. reflexivity.
Defined.

(** * C5: the least-recently-used fallback *)

Section LeastRecent.
Context {RT : Runtime}.

Lemma lru_spec_no_older (now : time) (sts : list status) (i : nat) (t : time) (x : nat) :
  (forall j s, sts !! j = Some s -> available now s = true ->
               exists t2, last_used s = Some t2 /\ t <= t2) ->
  lru_spec now sts i (Some (x, Some t)) = Some x.
Proof.
  revert i. induction sts as [|s0 sts IH]; intros i H; cbn; [done|].
  destruct (available now s0) eqn:Ea.
  - destruct (H 0%nat s0 eq_refl Ea) as (t2 & -> & Hle). cbn.
    apply Qltb_ge in Hle. rewrite Hle. apply IH. intros j s Hj. by apply (H (S j)).
  - apply IH. intros j s Hj. by apply (H (S j)).
Qed.

(** Where every available account has been used, the rule of the
    specification picks the first account with the earliest [last_used]. *)
Lemma lru_spec_first_min (now : time) (sts : list status) (k : nat)
    (best : option (nat * option time)) (i : nat) (s : status) (t : time) :
  sts !! i = Some s -> available now s = true -> last_used s = Some t ->
  (forall x o, best = Some (x, o) -> exists t0, o = Some t0 /\ t < t0) ->
  (forall j s2, sts !! j = Some s2 -> available now s2 = true -> j <> i ->
                exists t2, last_used s2 = Some t2
                           /\ ((j < i)%nat -> t < t2) /\ ((i < j)%nat -> t <= t2)) ->
  lru_spec now sts k best = Some (k + i)%nat.
Proof.
  revert k best i. induction sts as [|s0 sts IH]; intros k best i Hi Ha Hlu Hbest Hmin;
    [done|].
  destruct i as [|i]; cbn in *.
  - injection Hi as ->. rewrite Ha, Hlu, Nat.add_0_r.
    assert (Hrest : lru_spec now sts (S k) (Some (k, Some t)) = Some k).
    { apply lru_spec_no_older. intros j s2 Hj Ha2.
      destruct (Hmin (S j) s2 Hj Ha2) as (t2 & E2 & _ & Hge); [lia|].
      exists t2. split; [done|]. apply Hge. lia. }
    destruct best as [[x o]|]; [|done].
    destruct (Hbest x o eq_refl) as (t0 & -> & Hlt). cbn.
    apply Qltb_lt in Hlt. by rewrite Hlt.
  - replace (k + S i)%nat with (S k + i)%nat by lia.
    assert (Hrest : forall j s2, sts !! j = Some s2 -> available now s2 = true -> j <> i ->
                exists t2, last_used s2 = Some t2
                           /\ ((j < i)%nat -> t < t2) /\ ((i < j)%nat -> t <= t2)).
    { intros j s2 Hj Ha2 Hne. destruct (Hmin (S j) s2 Hj Ha2) as (t2 & E2 & Hl & Hg); [lia|].
      exists t2. split; [done|]. split; intros; [apply Hl | apply Hg]; lia. }
    destruct (available now s0) eqn:Ea0; [|by apply IH].
    destruct (Hmin 0%nat s0 eq_refl Ea0) as (t0 & E0 & Hl & _); [lia|].
    assert (Hnew : forall x o, Some (k, last_used s0) = Some (x, o) ->
                               exists t1, o = Some t1 /\ t < t1).
    { intros x o [= <- <-]. exists t0. split; [done|]. apply Hl. lia. }
    destruct best as [[x o]|]; [|by apply IH].
    destruct (older (last_used s0) o); by apply IH.
Qed.
End LeastRecent.

(** C5, as stated, fails.  Both accounts are available with score 40, the
    first was never used, the second was used at minute 5, and no health
    check is due.  The rule of the claim picks the never-used account 0;
    [switch_account] moves to account 1, because the test
    [least_recent_time is None] also holds after a never-used account has
    been taken.  And the [last_used] of the selected account stays 5:
    selection does not write it. *)
Lemma never_used_account_not_selected :
  lru_spec (RT := PyModel.runtime) 10 (account_status never_used_first) 0 None
  = Some 0%nat
  /\ (switch_account (RT := PyModel.runtime) 10 never_used_first ≫= λ r,
        Some (current_index (fst r),
              last_used <$> account_status (fst r) !! current_index (fst r)))
     = Some (1%nat, Some (Some 5)).
Proof. vm_compute. done. Qed.

(** C5, amended.  When no available account has a score above
    [MIN_HEALTH_FOR_PRIMARY] and every available account has been used
    before, [switch_account] moves to the available account with the
    smallest [last_used], the lowest index among equals, as the rule of
    the specification does.  It leaves [last_used] of every account as it
    was: that entry is written by [mark_success] and [mark_failure]
    only. *)
Theorem least_recently_used_fallback {RT : Runtime} (now : time) (m : manager)
    (i : nat) (s : status) (t : time) :
  length (accounts m) = length (account_status m) ->
  (forall j s2, checked now m !! j = Some s2 -> available now s2 = true ->
                health_score s2 <= MIN_HEALTH_FOR_PRIMARY) ->
  checked now m !! i = Some s -> available now s = true -> last_used s = Some t ->
  (forall j s2, checked now m !! j = Some s2 -> available now s2 = true -> j <> i ->
                exists t2, last_used s2 = Some t2
                           /\ ((j < i)%nat -> t < t2) /\ ((i < j)%nat -> t <= t2)) ->
  exists m' a,
    switch_account now m = Some (m', a)
    /\ current_index m' = i
    /\ accounts m !! i = Some a
    /\ lru_spec now (checked now m) 0 None = Some i
    /\ forall j, last_used <$> account_status m' !! j
                 = last_used <$> account_status m !! j.
Proof.
  intros Hlen Hlow Hi Ha Hlu Hmin.
  assert (Hlt : (i < length (account_status m))%nat).
  { rewrite <- (checked_length now m). by eapply lookup_lt_Some. }
  pose proof (select_index_least_recent now _ i s t Hlow Hi Ha Hlu Hmin) as Hsel.
  destruct (switch_account_selected now m i Hlen Hsel Hlt) as (m' & a & E & Hc & Hacc & _ & Hs).
  exists m', a. split; [exact E|]. split; [exact Hc|]. split; [exact Hacc|]. split.
  - by apply (lru_spec_first_min now _ 0 None i s t).
  - intros j. rewrite Hs. destruct (checked_lookup now m j) as (f & _ & Hf & Hl & _).
    etrans; [exact (f_equal (fmap last_used) Hl)|].
    destruct (account_status m !! j) as [s2|]; [|reflexivity].
    cbn [fmap option_fmap option_map]. by rewrite Hf.
Qed.

Lemma least_recently_used_fallback_witness :
  exists m' a,
    switch_account (RT := PyModel.runtime) 10 both_used = Some (m', a)
    /\ current_index m' = 1%nat
    /\ accounts both_used !! 1%nat = Some a
    /\ lru_spec (RT := PyModel.runtime) 10 (checked (RT := PyModel.runtime) 10 both_used)
         0 None = Some 1%nat
    /\ forall j, last_used <$> account_status m' !! j
                 = last_used <$> account_status both_used !! j.
Proof.
  apply (least_recently_used_fallback (RT := PyModel.runtime) 10 both_used
           1 (status_with 40 (Some 5)) 5).
  - reflexivity.
  - intros [|[|j]] s2 Hj _; [| |done]; injection Hj as <-; vm_compute; discriminate.
  - reflexivity.
  - reflexivity.
  - reflexivity.
  - intros [|[|j]] s2 Hj _ Hne; [|done|done]. injection Hj as <-.
    exists 7. split; [reflexivity|]. split; intros; [reflexivity | lia].
Defined.

(** * The retry loop *)

Section Loop.
Context {RT : Runtime}.

(** *** Well-formed managers stay well formed *)

Lemma earliest_expiry_index (sts : list status) (i : nat)
    (acc : option time * option nat) (r : nat) :
  snd (earliest_expiry sts i acc) = Some r ->
  snd acc = Some r \/ exists k, r = (i + k)%nat /\ (k < length sts)%nat.
Proof.
  revert i acc. induction sts as [|s0 sts IH]; intros i acc; cbn; [by left|].
  intros H. apply IH in H as [H | (k & -> & Hk)].
  - assert (He : forall t a, snd (earlier t i a) = Some r -> snd a = Some r \/ r = i).
    { intros t a. unfold earlier. destruct t; [|by left].
      destruct (fst a); [destruct (Qltb _ _)|]; cbn; intros E;
        first [by left | right; congruence]. }
    apply He in H as [H | ->].
    + apply He in H as [H | ->]; [by left|]. right. exists 0%nat. split; lia.
    + right. exists 0%nat. split; lia.
  - right. exists (S k). split; lia.
Qed.

Lemma select_index_bound (now : time) (sts : list status) (i : nat) :
  select_index now sts = Some i -> (i < length sts)%nat.
Proof.
  unfold select_index.
  destruct (best_available now sts 0 (- (1)) None) as [sc bi] eqn:Eb.
  assert (Hfb : match snd (least_recent now sts 0 None None) with
                | Some l => Some l
                | None => snd (earliest_expiry sts 0 (None, None))
                end = Some i -> (i < length sts)%nat).
  { destruct (snd (least_recent now sts 0 None None)) as [l|] eqn:El.
    - intros [= <-]. apply least_recent_index in El as [? | (k & s & -> & Hk & _)];
        [done|]. by eapply lookup_lt_Some.
    - intros H. apply earliest_expiry_index in H as [? | (k & -> & Hk)]; done. }
  destruct bi as [b|]; [|done].
  destruct (Qgtb sc MIN_HEALTH_FOR_PRIMARY); [|done].
  intros [= <-].
  apply best_available_index in Eb as [[? _] | (k & s & -> & Hk & _)]; [done|].
  by eapply lookup_lt_Some.
Qed.

Lemma switch_account_well_formed (now : time) (m : manager) :
  well_formed m ->
  exists m' a, switch_account now m = Some (m', a)
               /\ well_formed m' /\ accounts m' = accounts m
               /\ account_status m' = checked now m.
Proof.
  intros [Hlen Hcur].
  destruct (run_health_check_checked now m Hlen) as (m1 & E1 & Hs & Ha & Hc).
  unfold switch_account. rewrite E1. cbn.
  set (m2 := match select_index now (account_status m1) with
             | Some i => set_current_index i m1 | None => m1 end).
  assert (H2 : accounts m2 = accounts m /\ account_status m2 = checked now m
               /\ (current_index m2 < length (accounts m))%nat).
  { subst m2. destruct (select_index now (account_status m1)) as [i|] eqn:Es; cbn.
    - apply select_index_bound in Es. rewrite Hs, checked_length in Es.
      split; [done|]. split; [done|]. lia.
    - rewrite Hc. done. }
  destruct H2 as (Ha2 & Hs2 & Hc2). clearbody m2.
  unfold get_active_account. rewrite Ha2.
  destruct (lookup_lt_is_Some_2 _ _ Hc2) as [a Ea]. rewrite Ea. cbn.
  exists m2, a. split; [done|]. split; [|done].
  split; [by rewrite Ha2, Hs2, checked_length | by rewrite Ha2].
Qed.

Lemma updates_well_formed (index : nat) (s' : status) (m m' : manager) :
  well_formed m -> updates index s' m m' ->
  well_formed m' /\ accounts m' = accounts m.
Proof.
  intros [Hlen Hcur] (Hs & Ha & Hc & _). split; [|done].
  split; [by rewrite Ha, Hs, length_insert | by rewrite Ha, Hc].
Qed.

Lemma well_formed_current (m : manager) :
  well_formed m ->
  exists s a, account_status m !! current_index m = Some s
              /\ accounts m !! current_index m = Some a.
Proof.
  intros [Hlen Hcur].
  destruct (lookup_lt_is_Some_2 (account_status m) (current_index m)) as [s Es]; [lia|].
  destruct (lookup_lt_is_Some_2 (accounts m) (current_index m)) as [a Ea]; [lia|].
  eauto.
Qed.

Lemma mark_failure_well_formed (now : time) (index : nat) (rl : bool) (ty : string)
    (msg : option string) (m : manager) :
  well_formed m -> (index < length (accounts m))%nat ->
  exists m', mark_failure now index rl ty msg m = Some m'
             /\ well_formed m' /\ accounts m' = accounts m.
Proof.
  intros Hwf Hi.
  destruct (lookup_lt_is_Some_2 (account_status m) index) as [s Es];
    [destruct Hwf; lia|].
  destruct (mark_failure_updates now index rl ty msg m s Es) as (m' & E & Hu);
    [by apply lookup_lt_is_Some_2|].
  exists m'. split; [done|]. by eapply updates_well_formed.
Qed.

Lemma mark_success_well_formed (now : time) (index : nat) (rt : option Q) (m : manager) :
  well_formed m -> (index < length (accounts m))%nat ->
  exists m', mark_success now index rt m = Some m'
             /\ well_formed m' /\ accounts m' = accounts m.
Proof.
  intros Hwf Hi.
  destruct (lookup_lt_is_Some_2 (account_status m) index) as [s Es];
    [destruct Hwf; lia|].
  destruct (mark_success_updates now index rt m s Es) as (m' & E & Hu);
    [by apply lookup_lt_is_Some_2|].
  exists m'. split; [done|]. by eapply updates_well_formed.
Qed.

(** A reply is either a decoded body after status 200, and the call
    returns it, or a failure recorded on the account. *)
Lemma classify_well_formed {payload : Type} (now : time) (index : nat)
    (r : reply payload) (m : manager) :
  well_formed m -> (index < length (accounts m))%nat ->
  exists res, classify now index r m = Some res
    /\ match res with
       | inl (m', v) =>
           well_formed m' /\ accounts m' = accounts m
           /\ exists rt, r = Response 200 rt (Some v)
       | inr (m', extra) => well_formed m' /\ accounts m' = accounts m
       end.
Proof.
  intros Hwf Hi.
  assert (Hf : forall rl ty msg (extra : list Q) m0,
    well_formed m0 -> accounts m0 = accounts m ->
    exists res : manager * payload + manager * list Q,
      (mark_failure now index rl ty msg m0 ≫= λ m1, Some (inr (m1, extra))) = Some res
      /\ match res with
         | inl (m', v) =>
             well_formed m' /\ accounts m' = accounts m
             /\ exists rt, r = Response 200 rt (Some v)
         | inr (m', extra) => well_formed m' /\ accounts m' = accounts m
         end).
  { intros rl ty msg extra m0 Hwf0 Ha0.
    destruct (mark_failure_well_formed now index rl ty msg m0 Hwf0) as (m1 & -> & Hw1 & Ha1);
      [by rewrite Ha0|].
    cbn. eexists; split; [done|]. cbn. split; [done | congruence]. }
  destruct r as [code rt body| | |]; unfold classify; try by apply Hf.
  destruct (code =? 200)%Z eqn:Ec.
  - apply Z.eqb_eq in Ec as ->.
    destruct (mark_success_well_formed now index (Some rt) m Hwf Hi) as (m1 & -> & Hw1 & Ha1).
    cbn. destruct body as [v|].
    + eexists; split; [done|]. cbn. split; [done|]. split; [done|]. by exists rt.
    + by apply Hf.
  - destruct ((code =? 429)%Z || (code =? 503)%Z); [by apply Hf|].
    destruct ((code =? 401)%Z || (code =? 403)%Z); by apply Hf.
Qed.

Lemma ids_of_cons (accs : list account) (i : nat) (a : account) (l : list nat) :
  accs !! i = Some a -> ids_of accs (i :: l) = {[account_id a]} ∪ ids_of accs l.
Proof. intros H. unfold ids_of. cbn. by rewrite H. Qed.

(** *** One pass of the loop *)

(** The pass that skips an account already tried. *)
Lemma run_loop_skip {payload : Type} (api : nat -> nat -> reply payload)
    (clock : nat -> time) (fuel k : nat) (st : run_state) (a a' : account)
    (m' : manager) :
  (retries st < RETRY_LIMIT)%nat ->
  get_active_account (mgr st) = Some a ->
  account_id a ∈ tried_accounts st ->
  (size (tried_accounts st) < length (accounts (mgr st)))%nat ->
  switch_account (clock k) (mgr st) = Some (m', a') ->
  run_loop api clock (S fuel) k st
  = run_loop api clock fuel (S k)
      (mkRun m' (retries st) (tried_accounts st) (requests st) (sleeps st)).
Proof.
  intros Hr Ea Hin Hsz Esw. cbn [run_loop]. cbv zeta.
  apply Nat.ltb_lt in Hr. apply Nat.ltb_lt in Hsz.
  by rewrite Hr, Ea, (bool_decide_eq_true_2 _ Hin), Hsz, Esw.
Qed.

(** The pass that sends a request which fails. *)
Lemma run_loop_failed_request {payload : Type} (api : nat -> nat -> reply payload)
    (clock : nat -> time) (fuel k : nat) (st : run_state) (a a' : account)
    (m' m'' : manager) (extra : list Q) :
  (retries st < RETRY_LIMIT)%nat ->
  get_active_account (mgr st) = Some a ->
  account_id a ∉ tried_accounts st
  \/ (length (accounts (mgr st)) <= size (tried_accounts st))%nat ->
  classify (clock k) (current_index (mgr st))
    (api (length (requests st)) (current_index (mgr st))) (mgr st)
  = Some (inr (m', extra)) ->
  switch_account (clock k) m' = Some (m'', a') ->
  run_loop api clock (S fuel) k st
  = run_loop api clock fuel (S k)
      (mkRun m'' (S (retries st)) ({[account_id a]} ∪ tried_accounts st)
         (current_index (mgr st) :: requests st)
         (backoff (S (retries st)) ++ extra ++ sleeps st)).
Proof.
  intros Hr Ea Hno Ecl Esw. cbn [run_loop]. cbv zeta.
  apply Nat.ltb_lt in Hr. rewrite Hr, Ea.
  assert (Hsk : bool_decide (account_id a ∈ tried_accounts st)
                && (size (tried_accounts st) <? length (accounts (mgr st)))%nat = false).
  { apply andb_false_iff. destruct Hno as [Hno | Hno].
    - left. by apply bool_decide_eq_false_2.
    - right. by apply Nat.ltb_ge. }
  by rewrite Hsk, Ecl, Esw.
Qed.

(** *** What a call hands back *)

Lemma run_loop_outcome {payload : Type} (api : nat -> nat -> reply payload)
    (clock : nat -> time) (accs : list account) (fuel k : nat) (st : run_state) :
  run_invariant accs st ->
  run_outcome api accs (run_loop api clock fuel k st).
Proof.
  revert k st. induction fuel as [|fuel IH]; intros k st Hinv; [done|].
  destruct Hinv as (Hwf & Ha & Ht & Hl & Hr). cbn.
  destruct (retries st <? RETRY_LIMIT)%nat eqn:Er.
  - destruct (well_formed_current _ Hwf) as (s & a & Es & Ea).
    unfold get_active_account. rewrite Ea.
    destruct (bool_decide _ && _).
    + destruct (switch_account_well_formed (clock k) _ Hwf) as (m' & a' & -> & Hw' & Ha' & _).
      apply IH. split; [done|]. split; [cbn; congruence|]. done.
    + destruct (classify_well_formed (clock k) (current_index (mgr st))
                  (api (length (requests st)) (current_index (mgr st))) (mgr st) Hwf)
        as (res & -> & Hres); [by destruct Hwf|].
      destruct res as [[m' v] | [m' extra]].
      * destruct Hres as (_ & _ & rt & Hrt). unfold run_outcome. cbn. eauto.
      * destruct Hres as (Hw' & Ha').
        destruct (switch_account_well_formed (clock k) _ Hw') as (m2 & a2 & -> & Hw2 & Ha2 & _).
        apply IH. split; [done|]. split; [cbn; congruence|]. cbn.
        apply Nat.ltb_lt in Er. split; [|split; lia].
        rewrite Ha in Ea. rewrite (ids_of_cons _ _ a) by done. by rewrite Ht.
  - apply Nat.ltb_ge in Er. unfold run_outcome. cbn. repeat split; [done | lia].
Qed.

(** A pass that is no skip ends the call or counts a retry, so a pool of
    one account, where no pass can skip, ends within [RETRY_LIMIT + 1]
    passes. *)
Lemma run_loop_single_ends {payload : Type} (api : nat -> nat -> reply payload)
    (clock : nat -> time) (accs : list account) (fuel k : nat) (st : run_state) :
  length accs = 1%nat -> run_invariant accs st ->
  (RETRY_LIMIT - retries st < fuel)%nat ->
  is_Some (snd (run_loop api clock fuel k st)).
Proof.
  intros H1. revert k st. induction fuel as [|fuel IH]; intros k st Hinv Hfuel; [lia|].
  destruct Hinv as (Hwf & Ha & Ht & Hl & Hr). cbn.
  destruct (retries st <? RETRY_LIMIT)%nat eqn:Er; [|by eexists].
  apply Nat.ltb_lt in Er.
  destruct (well_formed_current _ Hwf) as (s & a & Es & Ea).
  unfold get_active_account. rewrite Ea.
  assert (Hskip : bool_decide (account_id a ∈ tried_accounts st)
                  && (size (tried_accounts st) <? length (accounts (mgr st)))%nat = false).
  { apply andb_false_iff. destruct (bool_decide _) eqn:Eb; [right | by left].
    apply bool_decide_eq_true in Eb. apply Nat.ltb_ge. rewrite Ha, H1.
    assert (size (tried_accounts st) <> 0%nat); [|lia].
    apply size_non_empty_iff. set_solver. }
  rewrite Hskip.
  destruct (classify_well_formed (clock k) (current_index (mgr st))
              (api (length (requests st)) (current_index (mgr st))) (mgr st) Hwf)
    as (res & -> & Hres); [by destruct Hwf|].
  destruct res as [[m' v] | [m' extra]]; [by eexists|].
  destruct Hres as (Hw' & Ha').
  destruct (switch_account_well_formed (clock k) _ Hw') as (m2 & a2 & -> & Hw2 & Ha2 & _).
  apply IH; [|cbn; lia].
  split; [done|]. split; [cbn; congruence|]. cbn. split; [|split; lia].
  rewrite Ha in Ea. rewrite (ids_of_cons _ _ a) by done. by rewrite Ht.
Qed.
End Loop.

Lemma run_loop_requests_extend {RT : Runtime} {payload : Type}
    (api : nat -> nat -> reply payload) (clock : nat -> time) (fuel k : nat)
    (st : run_state) :
  exists l, requests (fst (run_loop api clock fuel k st)) = l ++ requests st.
Proof.
  revert k st. induction fuel as [|fuel IH]; intros k st; [by exists []|]. cbn.
  destruct (retries st <? RETRY_LIMIT)%nat; [|by exists []].
  destruct (get_active_account (mgr st)) as [a|]; [|by exists []].
  destruct (bool_decide _ && _).
  - destruct (switch_account (clock k) (mgr st)) as [[m' a']|]; [|by exists []].
    destruct (IH (S k) (mkRun m' (retries st) (tried_accounts st) (requests st) (sleeps st)))
      as [l Hl]. by exists l.
  - destruct (classify _ _ _ _) as [[[m' v] | [m' extra]]|];
      [by exists [current_index (mgr st)] | | by exists [current_index (mgr st)]].
    destruct (switch_account (clock k) m') as [[m2 a2]|];
      [|by exists [current_index (mgr st)]].
    match goal with |- context [run_loop api clock fuel (S k) ?st'] =>
      destruct (IH (S k) st') as [l Hl] end.
    exists (l ++ [current_index (mgr st)]). rewrite Hl. cbn. by rewrite <- app_assoc.
Qed.

(** The first request of a call goes out with the account [current_index]
    designates, whatever its status. *)
Lemma run_first_request {RT : Runtime} {payload : Type}
    (api : nat -> nat -> reply payload) (clock : nat -> time) (fuel : nat)
    (m : manager) :
  is_Some (accounts m !! current_index m) ->
  last (requests (fst (run api clock (S fuel) m))) = Some (current_index m).
Proof.
  intros [a Ea]. unfold run. cbn. change (0 <? RETRY_LIMIT)%nat with true. cbv iota.
  unfold get_active_account. rewrite Ea.
  rewrite bool_decide_eq_false_2 by set_solver. cbn.
  destruct (classify _ _ _ _) as [[[m' v] | [m' extra]]|]; [done| |done].
  destruct (switch_account (clock 0%nat) m') as [[m2 a2]|]; [|done].
  match goal with |- context [run_loop api clock fuel 1 ?st'] =>
    destruct (run_loop_requests_extend api clock fuel 1 st') as [l ->] end.
  cbn. by rewrite last_snoc.
Qed.

(** * C10: the first request is sent without an availability check *)

(** C10.  There is a manager, as [__init__] can build it from a health
    file with the random start index 0, whose account 0 is rate limited
    and so not available, and every call of [run] on it sends its first
    request with that account. *)
Theorem first_request_ignores_availability :
  exists (m : manager) (now : time),
    well_formed m
    /\ is_account_available now (current_index m) m = Some false
    /\ forall (RT : Runtime) (payload : Type) (api : nat -> nat -> reply payload)
              (clock : nat -> time) (fuel : nat),
         clock 0%nat = now ->
         last (requests (fst (run api clock (S fuel) m))) = Some (current_index m).
Proof.
  exists rate_limited_current, 0. split; [split; cbn; lia|]. split; [reflexivity|].
  intros RT payload api clock fuel _. apply run_first_request. by eexists.
Qed.

(** * C7: what [run] hands back *)

(** C7, as stated, fails on the text of the report: with one account and
    three failed requests the error is ["All API accounts failed"], not
    ["all accounts failed"]. *)
Lemma report_error_text :
  snd (run (RT := PyModel.runtime) (always (Response (payload := string) 500 (1 # 2) None))
         (fun _ => 0) 4 single_manager)
  = Some (Report "All API accounts failed" 60 {["ACCOUNT_ID_1"%string]})
  /\ "All API accounts failed"%string <> "all accounts failed"%string.
Proof. split; [vm_compute; reflexivity | discriminate]. Qed.

(** C7, amended.  On a well-formed manager a call of [run] that has ended
    has handed back either the decoded body of its last request, which was
    answered with status 200, or, after exactly [RETRY_LIMIT] requests,
    the report with error ["All API accounts failed"], [retry_after] 60
    and the ids of the accounts the requests were sent with; no exception
    reaches the caller, and failures of the requests are absorbed by the
    loop.  With a single account the call ends within [RETRY_LIMIT + 1]
    passes of the loop. *)
Theorem run_hands_back_body_or_report {RT : Runtime} {payload : Type}
    (api : nat -> nat -> reply payload) (clock : nat -> time) (fuel : nat)
    (m : manager) :
  well_formed m ->
  run_outcome api (accounts m) (run api clock fuel m)
  /\ (length (accounts m) = 1%nat -> (RETRY_LIMIT < fuel)%nat ->
      is_Some (snd (run api clock fuel m))).
Proof.
  intros Hwf.
  assert (Hinv : run_invariant (accounts m) (start m)).
  { split; [done|]. repeat split; cbn; lia. }
  split; [by apply run_loop_outcome|].
  intros H1 Hf. apply (run_loop_single_ends api clock (accounts m)); [done | done |].
  cbn. lia.
Qed.

Lemma run_hands_back_body_or_report_witness :
  run_outcome (always (Response (payload := string) 500 (1 # 2) None))
    (accounts single_manager)
    (run (RT := PyModel.runtime) (always (Response 500 (1 # 2) None)) (fun _ => 0) 4
       single_manager)
  /\ (length (accounts single_manager) = 1%nat -> (RETRY_LIMIT < 4)%nat ->
      is_Some (snd (run (RT := PyModel.runtime)
                      (always (Response (payload := string) 500 (1 # 2) None))
                      (fun _ => 0) 4 single_manager))).
Proof.
  apply (run_hands_back_body_or_report (RT := PyModel.runtime)).
  split; cbn; lia.
Defined.

(** * C6: the busy loop *)

Section Busy.
Context {RT : Runtime}.

Lemma no_limits_available (now : time) (s : status) :
  no_limits s -> available now s = true.
Proof. intros [Hr Hb]. unfold available. by rewrite Hr, Hb. Qed.

Lemma health_check_status_no_limits (now : time) (s : status) :
  no_limits s ->
  no_limits (health_check_status now s)
  /\ consecutive_failures (health_check_status now s) = consecutive_failures s.
Proof.
  intros [Hr Hb].
  destruct (health_check_status_shape now s) as (h & r & b & -> & Hr' & Hb').
  unfold no_limits. fields.
  destruct Hr' as [-> | [-> _]]; destruct Hb' as [-> | [-> _]];
    repeat split; assumption || reflexivity.
Qed.

Lemma health_check_status_low_first (now : time) :
  health_check_status now low_first = low_first.
Proof. reflexivity. Qed.

(** With a never-used account of score 40 in front of two accounts that
    carry no limit, the first of which has been used, selection returns
    one of the two: the score 40 is not above the threshold of strategy 1,
    and in strategy 2 any account after a never-used one replaces it. *)
Lemma select_index_behind_low_first (now : time) (a b : status) :
  no_limits a -> no_limits b -> is_Some (last_used a) ->
  select_index now [low_first; a; b] = Some 1%nat
  \/ select_index now [low_first; a; b] = Some 2%nat.
Proof.
  intros Ha Hb [ta Hta].
  pose proof (no_limits_available now a Ha) as Eva.
  pose proof (no_limits_available now b Hb) as Evb.
  assert (Evc : available now low_first = true) by reflexivity.
  assert (Hc1 : Qgtb (health_score low_first) (- (1)) = true) by reflexivity.
  assert (Hc2 : Qgtb (health_score low_first) MIN_HEALTH_FOR_PRIMARY = false)
    by reflexivity.
  assert (Hlc : last_used low_first = None) by reflexivity.
  assert (Hfb : snd (least_recent now [low_first; a; b] 0 None None) = Some 1%nat
                \/ snd (least_recent now [low_first; a; b] 0 None None) = Some 2%nat).
  { cbn [least_recent]. rewrite Evc, Eva, Evb, Hlc, Hta.
    cbn [replaces_least_recent andb].
    destruct (last_used b) as [tb|]; cbn [replaces_least_recent];
      [destruct (Qltb tb ta)|]; cbn [snd]; auto. }
  unfold select_index. cbn [best_available]. rewrite Evc, Eva, Evb, Hc1.
  cbn [andb].
  destruct (Qgtb (health_score a) (health_score low_first)).
  - destruct (Qgtb (health_score b) (health_score a)).
    + destruct (Qgtb (health_score b) MIN_HEALTH_FOR_PRIMARY); [by right|].
      destruct Hfb as [-> | ->]; auto.
    + destruct (Qgtb (health_score a) MIN_HEALTH_FOR_PRIMARY); [by left|].
      destruct Hfb as [-> | ->]; auto.
  - destruct (Qgtb (health_score b) (health_score low_first)).
    + destruct (Qgtb (health_score b) MIN_HEALTH_FOR_PRIMARY); [by right|].
      destruct Hfb as [-> | ->]; auto.
    + rewrite Hc2. destruct Hfb as [-> | ->]; auto.
Qed.

Lemma checked_behind_low_first (now : time) (m : manager) (a b : status) :
  behind_low_first m a b ->
  exists a' b', checked now m = [low_first; a'; b']
                /\ no_limits a' /\ no_limits b' /\ is_Some (last_used a')
                /\ consecutive_failures b' = consecutive_failures b.
Proof.
  intros (_ & Hs & Ha & Hb & Hu). unfold checked. rewrite Hs.
  destruct (check_due now m); [|by exists a, b].
  exists (health_check_status now a), (health_check_status now b).
  cbn. rewrite health_check_status_low_first, health_check_status_last_used.
  destruct (health_check_status_no_limits now a Ha) as [Ha' _].
  destruct (health_check_status_no_limits now b Hb) as [Hb' Hc']. done.
Qed.

Lemma switch_account_behind_low_first (now : time) (m : manager) (a b : status) :
  behind_low_first m a b -> (current_index m < 3)%nat ->
  exists m' acc a' b',
    switch_account now m = Some (m', acc)
    /\ behind_low_first m' a' b'
    /\ (current_index m' = 1%nat \/ current_index m' = 2%nat)
    /\ consecutive_failures b' = consecutive_failures b.
Proof.
  intros Hm Hcur.
  destruct (checked_behind_low_first now m a b Hm) as (a' & b' & Hck & Ha' & Hb' & Hu' & Hc').
  destruct Hm as (Hacc & Hs & _).
  assert (Hlen : length (accounts m) = length (account_status m)) by by rewrite Hacc, Hs.
  assert (Hsel : exists i, select_index now (checked now m) = Some i
                           /\ (i = 1%nat \/ i = 2%nat)).
  { rewrite Hck.
    destruct (select_index_behind_low_first now a' b' Ha' Hb' Hu') as [-> | ->]; eauto. }
  destruct Hsel as (i & Hsel & Hi).
  destruct (switch_account_selected now m i Hlen Hsel) as (m' & acc & E & Hc & _ & Ha2 & Hs2).
  { rewrite Hs. cbn. lia. }
  exists m', acc, a', b'. split; [done|]. split; [|by rewrite Hc].
  split; [by rewrite Ha2|]. split; [by rewrite Hs2|]. done.
Qed.

Lemma failure_result_first_failure (now : time) (ty : string) (msg : option string)
    (s : status) :
  consecutive_failures s = 0%Z -> no_limits s ->
  no_limits (failure_result now false ty msg s)
  /\ is_Some (last_used (failure_result now false ty msg s)).
Proof.
  intros Hc [Hr Hb]. unfold failure_result.
  destruct (failure_status_fields now ty msg s) as (Hc1 & _ & _ & _ & Hr1 & Hb1 & Hu1).
  rewrite Hc1, Hc.
  change (MAX_CONSECUTIVE_FAILURES <=? 0 + 1)%Z with false.
  change (3 <=? 0 + 1)%Z with false. cbv iota.
  split; [split; congruence | by rewrite Hu1].
Qed.

Lemma classify_500 (now : time) (index : nat) (m : manager) :
  classify now index (Response (payload := string) 500 (1 # 2) None) m
  = mark_failure now index false "api_error" (Some "API Error"%string) m
      ≫= λ m', Some (inr (m', [])).
Proof. reflexivity. Qed.

(** A request that is answered with status 500, sent with an account
    that has no failure in a row and no limit. *)
Lemma classify_500_first_failure (now : time) (m : manager) (i : nat) (s : status) :
  accounts m = AUTOX_AI_ACCOUNTS -> (i < 3)%nat -> account_status m !! i = Some s ->
  consecutive_failures s = 0%Z -> no_limits s ->
  exists m1 s1,
    classify now i (always_500 (length (@nil nat)) i) m = Some (inr (m1, []))
    /\ account_status m1 = <[i := s1]> (account_status m)
    /\ accounts m1 = accounts m
    /\ current_index m1 = current_index m
    /\ no_limits s1 /\ is_Some (last_used s1).
Proof.
  intros Hacc Hlt Es Hc Hn. unfold always_500, always. rewrite classify_500.
  destruct (mark_failure_updates now i false "api_error" (Some "API Error"%string) m s Es)
    as (m1 & -> & Hs1 & Ha1 & Hc1 & _).
  { rewrite Hacc. apply lookup_lt_is_Some_2. exact Hlt. }
  destruct (failure_result_first_failure now "api_error" (Some "API Error"%string)
              s Hc Hn) as [Hn1 Hu1].
  by eexists _, _.
Qed.

(** Two of the three accounts are tried and selection returns only
    these: the loop skips for ever. *)
Lemma run_loop_busy_tried_two (clock : nat -> time) (fuel k : nat) (st : run_state)
    (a b : status) :
  retries st = 2%nat ->
  tried_accounts st = {["ACCOUNT_ID_3"%string]} ∪ ({["ACCOUNT_ID_2"%string]} ∪ ∅) ->
  behind_low_first (mgr st) a b ->
  current_index (mgr st) = 1%nat \/ current_index (mgr st) = 2%nat ->
  snd (run_loop always_500 clock fuel k st) = None
  /\ requests (fst (run_loop always_500 clock fuel k st)) = requests st.
Proof.
  revert k st a b. induction fuel as [|fuel IH]; intros k st a b Hr Ht Hm Hcur; [done|].
  destruct (switch_account_behind_low_first (clock k) _ a b Hm)
    as (m' & acc & a' & b' & Esw & Hm' & Hcur' & _); [lia|].
  pose proof Hm as (Hacc & _).
  assert (Hact : exists a0, get_active_account (mgr st) = Some a0
                            /\ account_id a0 ∈ tried_accounts st).
  { unfold get_active_account. rewrite Hacc, Ht.
    destruct Hcur as [-> | ->]; eexists; (split; [reflexivity|]);
      cbn [account_id]; set_solver. }
  destruct Hact as (a0 & Ea0 & Hin).
  rewrite (run_loop_skip always_500 clock fuel k st a0 acc m'); try done.
  - match goal with |- context [run_loop always_500 clock fuel (S k) ?st'] =>
      destruct (IH (S k) st' a' b') as [E1 E2]; try done end.
  - rewrite Hr. unfold RETRY_LIMIT. lia.
  - rewrite Hacc, Ht. vm_compute. lia.
Qed.

(** One account is tried: the loop skips while selection returns it, and
    tries the other one otherwise. *)
Lemma run_loop_busy_tried_one (clock : nat -> time) (fuel k : nat) (st : run_state)
    (a b : status) :
  retries st = 1%nat ->
  tried_accounts st = {["ACCOUNT_ID_2"%string]} ∪ ∅ ->
  requests st = [1%nat] ->
  behind_low_first (mgr st) a b -> consecutive_failures b = 0%Z ->
  current_index (mgr st) = 1%nat \/ current_index (mgr st) = 2%nat ->
  snd (run_loop always_500 clock fuel k st) = None
  /\ (length (requests (fst (run_loop always_500 clock fuel k st))) <= 2)%nat.
Proof.
  revert k st a b. induction fuel as [|fuel IH]; intros k st a b Hr Ht Hq Hm Hcb Hcur.
  { split; [done|]. cbn [run_loop fst]. rewrite Hq. cbn. lia. }
  pose proof Hm as (Hacc & Hs & Ha & Hb & Hu).
  assert (Hlim : (retries st < RETRY_LIMIT)%nat) by (rewrite Hr; unfold RETRY_LIMIT; lia).
  destruct Hcur as [Hc | Hc].
  - destruct (switch_account_behind_low_first (clock k) _ a b Hm)
      as (m' & acc & a' & b' & Esw & Hm' & Hcur' & Hcb'); [lia|].
    rewrite (run_loop_skip always_500 clock fuel k st
               (mkAccount "API_KEY_2" "ACCOUNT_ID_2") acc m'); try done.
    + apply (IH (S k) _ a' b'); try done. by rewrite Hcb'.
    + unfold get_active_account. by rewrite Hacc, Hc.
    + rewrite Ht. cbn [account_id]. set_solver.
    + rewrite Hacc, Ht. vm_compute. lia.
  - assert (Es : account_status (mgr st) !! 2%nat = Some b) by by rewrite Hs.
    destruct (classify_500_first_failure (clock k) (mgr st) 2 b Hacc)
      as (m1 & b1 & Ecl & Hs1 & Ha1 & Hc1 & Hn1 & Hu1); [lia | done | done | done|].
    assert (Hm1 : behind_low_first m1 a b1).
    { split; [by rewrite Ha1|]. split; [by rewrite Hs1, Hs|]. done. }
    destruct (switch_account_behind_low_first (clock k) m1 a b1 Hm1)
      as (m' & acc & a' & b' & Esw & Hm' & Hcur' & _); [rewrite Hc1, Hc; lia|].
    rewrite (run_loop_failed_request always_500 clock fuel k st
               (mkAccount "API_KEY_3" "ACCOUNT_ID_3") acc m1 m' []).
    + match goal with |- context [run_loop always_500 clock fuel (S k) ?st'] =>
        destruct (run_loop_busy_tried_two clock fuel (S k) st' a' b') as [E1 E2] end.
      * cbn [retries]. by rewrite Hr.
      * cbn [tried_accounts account_id]. by rewrite Ht.
      * exact Hm'.
      * exact Hcur'.
      * rewrite E1, E2. cbn [requests]. rewrite Hq. cbn. split; [done | lia].
    + exact Hlim.
    + unfold get_active_account. by rewrite Hacc, Hc.
    + left. rewrite Ht. cbn [account_id]. set_solver.
    + rewrite Hc. exact Ecl.
    + exact Esw.
Qed.
End Busy.

(** C6.  A call of [run] that does not end.  Three accounts, the first
    with score 40 and never used, the other two as new, the start index at
    the second; every request is answered with status 500.  After the
    second and the third account have failed once each, every selection
    returns one of these two again: both are in [tried_accounts], which
    has 2 of 3 elements, so the loop calls [switch_account] and
    continues without counting a retry, for ever, whatever the clock and
    the power function are.  No third request is sent. *)
Theorem run_busy_loop {RT : Runtime} (clock : nat -> time) (fuel : nat) :
  snd (run always_500 clock fuel busy_manager) = None
  /\ (length (requests (fst (run always_500 clock fuel busy_manager))) <= 2)%nat.
Proof.
  destruct fuel as [|fuel]; [split; [done | cbn; lia]|].
  unfold run.
  destruct (classify_500_first_failure (clock 0%nat) busy_manager 1
              _create_default_status)
    as (m1 & a1 & Ecl & Hs1 & Ha1 & Hc1 & Hn1 & Hu1);
    [reflexivity | lia | reflexivity | reflexivity | by split|].
  assert (Hm1 : behind_low_first m1 a1 _create_default_status).
  { split; [by rewrite Ha1|]. split; [by rewrite Hs1|]. done. }
  destruct (switch_account_behind_low_first (clock 0%nat) m1 _ _ Hm1)
    as (m' & acc & a' & b' & Esw & Hm' & Hcur' & Hcb'); [rewrite Hc1; cbn; lia|].
  rewrite (run_loop_failed_request always_500 clock fuel 0 (start busy_manager)
             (mkAccount "API_KEY_2" "ACCOUNT_ID_2") acc m1 m' []).
  - apply (run_loop_busy_tried_one clock fuel 1 _ a' b'); try done.
  - unfold RETRY_LIMIT. cbn [retries start]. lia.
  - reflexivity.
  - left. apply not_elem_of_empty.
  - exact Ecl.
  - exact Esw.
Qed.

(** * C8: saving and loading the snapshot *)

Section Persistence.
Context {RT : Runtime}.

(** *** One status *)

Lemma save_field_py_of_time (o : option time) :
  save_field (py_of_time o) = Some (iso_field o).
Proof. by destruct o. Qed.

Lemma save_status_to_raw (s : status) :
  save_status (to_raw s) = Some (snapshot_of s).
Proof.
  unfold save_status, to_raw, map_times. fields.
  by rewrite !save_field_py_of_time.
Qed.

Lemma load_field_falsy (v : pyval) : truthy v = false -> load_field v = v.
Proof. intros H. unfold load_field. by rewrite H. Qed.

Lemma load_field_malformed (str : string) :
  str <> EmptyString -> fromisoformat str = None -> load_field (PStr str) = PNone.
Proof.
  intros Hne Hno. unfold load_field. cbn [truthy].
  destruct (String.eqb_spec str EmptyString) as [->|_]; [done|].
  cbn [negb]. by rewrite Hno.
Qed.

Lemma load_field_no_string (v : pyval) :
  truthy v = true -> (forall str, v <> PStr str) -> load_field v = PNone.
Proof.
  intros H Hs. unfold load_field. rewrite H.
  destruct v as [|str| | |]; try done. by destruct (Hs str).
Qed.

Lemma load_field_isoformat (t : time) :
  reads_back t -> isoformat t <> EmptyString ->
  load_field (PStr (isoformat t)) = PTime t.
Proof.
  intros Hrb Hne. unfold load_field. cbn [truthy].
  destruct (String.eqb_spec (isoformat t) EmptyString) as [E|_]; [done|].
  cbn [negb]. by rewrite Hrb.
Qed.

Lemma save_load_iso_field (o : option time) :
  (forall t, o = Some t -> reads_back t) ->
  save_field (load_field (iso_field o)) = Some (iso_field o).
Proof.
  intros H. destruct o as [t|]; [|done]. cbn [iso_field].
  unfold load_field. cbn [truthy].
  destruct (String.eqb_spec (isoformat t) EmptyString) as [E|E]; cbn [negb].
  - unfold save_field. cbn [truthy].
    destruct (String.eqb_spec (isoformat t) EmptyString); done.
  - by rewrite (H t eq_refl).
Qed.

Lemma last10_length {A : Type} (l : list A) :
  (10 < length l)%nat -> length (last10 l) = 10%nat.
Proof. intros H. unfold last10. rewrite length_drop. lia. Qed.

Lemma timestamps_reads_back (s : status) :
  Forall reads_back (timestamps s) ->
  (forall t, rate_limited_until s = Some t -> reads_back t)
  /\ (forall t, last_success s = Some t -> reads_back t)
  /\ (forall t, last_used s = Some t -> reads_back t)
  /\ (forall t, blacklisted_until s = Some t -> reads_back t).
Proof.
  intros H. unfold timestamps in H.
  destruct (rate_limited_until s) as [t1|], (last_success s) as [t2|],
    (last_used s) as [t3|], (blacklisted_until s) as [t4|];
    cbn [omap list_omap id] in H;
    repeat match goal with
           | G : Forall _ (_ :: _) |- _ => apply Forall_cons in G as [? G]
           end;
    repeat split; intros t E; try discriminate; injection E as <-; assumption.
Qed.

(** Loading what was saved and saving it again writes the same entry. *)
Lemma save_load_snapshot_of (s : status) :
  Forall reads_back (timestamps s) ->
  save_status (load_status (snapshot_of s)) = Some (snapshot_of s).
Proof.
  intros H. destruct (timestamps_reads_back s H) as (H1 & H2 & H3 & H4).
  unfold save_status, load_status, map_times, snapshot_of. fields.
  rewrite (save_load_iso_field _ H1), (save_load_iso_field _ H2),
    (save_load_iso_field _ H3), (save_load_iso_field _ H4).
  cbn [mbind option_bind].
  destruct (10 <? length (response_times s))%nat eqn:E; [|by rewrite E].
  apply Nat.ltb_lt in E. rewrite (last10_length _ E). done.
Qed.

(** *** The map from account id to entry *)

Lemma serialize_is_Some (accs : list account) (rs : list (status_ pyval))
    (out : gmap string (status_ pyval)) :
  (length rs <= length accs)%nat ->
  Forall (fun r => is_Some (save_status r)) rs ->
  is_Some (serialize accs rs out).
Proof.
  revert accs out. induction rs as [|r rs IH]; intros accs out Hlen Hs;
    [destruct accs; by eexists|].
  destruct accs as [|a accs]; [cbn in Hlen; lia|].
  apply Forall_cons in Hs as [[c Hc] Hs]. cbn [serialize]. rewrite Hc.
  cbn [mbind option_bind]. apply IH; [cbn in Hlen; lia | done].
Qed.

(** Every entry of the result was there before or was written for an
    account. *)
Lemma serialize_lookup (accs : list account) (rs : list (status_ pyval))
    (out final : gmap string (status_ pyval)) (k : string) (v : status_ pyval) :
  serialize accs rs out = Some final -> final !! k = Some v ->
  out !! k = Some v
  \/ exists j a r, accs !! j = Some a /\ account_id a = k /\ rs !! j = Some r
                   /\ save_status r = Some v.
Proof.
  revert accs out. induction rs as [|r rs IH]; intros accs out Hser Hk.
  - destruct accs; injection Hser as <-; by left.
  - destruct accs as [|a accs]; [done|]. cbn [serialize] in Hser.
    destruct (save_status r) as [c|] eqn:Ec; [|done]. cbn [mbind option_bind] in Hser.
    destruct (IH _ _ Hser Hk) as [Hin | (j & a' & r' & Ha & Hid & Hr & Hv)].
    + destruct (decide (account_id a = k)) as [<-|Hne].
      * rewrite lookup_insert_eq in Hin. injection Hin as <-.
        right. by exists 0%nat, a, r.
      * rewrite lookup_insert_ne in Hin by done. by left.
    + right. by exists (S j), a', r'.
Qed.

(** Every account with a status has an entry in the result. *)
Lemma serialize_keys (accs : list account) (rs : list (status_ pyval))
    (out final : gmap string (status_ pyval)) :
  serialize accs rs out = Some final ->
  (forall k, is_Some (out !! k) -> is_Some (final !! k))
  /\ (forall j a, accs !! j = Some a -> (j < length rs)%nat ->
                  is_Some (final !! account_id a)).
Proof.
  revert accs out. induction rs as [|r rs IH]; intros accs out Hser.
  - destruct accs; injection Hser as <-; (split; [done|]); intros j a' _ Hj;
      cbn in Hj; lia.
  - destruct accs as [|a accs]; [done|]. cbn [serialize] in Hser.
    destruct (save_status r) as [c|] eqn:Ec; [|done]. cbn [mbind option_bind] in Hser.
    destruct (IH _ _ Hser) as [Hout Hacc]. split.
    + intros k Hk. apply Hout. destruct (decide (account_id a = k)) as [<-|Hne].
      * rewrite lookup_insert_eq. by eexists.
      * by rewrite lookup_insert_ne.
    + intros [|j] a' Ha Hj.
      * injection Ha as <-. apply Hout. rewrite lookup_insert_eq. by eexists.
      * apply (Hacc j); [done | cbn in Hj; lia].
Qed.

(** A result whose every entry is the one of [snap] lies within [snap]. *)
Lemma serialize_subseteq (accs : list account) (rs : list (status_ pyval))
    (out final snap : gmap string (status_ pyval)) :
  serialize accs rs out = Some final -> out ⊆ snap ->
  (forall j a r c, accs !! j = Some a -> rs !! j = Some r -> save_status r = Some c ->
                   snap !! account_id a = Some c) ->
  final ⊆ snap.
Proof.
  revert accs out. induction rs as [|r rs IH]; intros accs out Hser Hout Hin.
  - destruct accs; by injection Hser as <-.
  - destruct accs as [|a accs]; [done|]. cbn [serialize] in Hser.
    destruct (save_status r) as [c|] eqn:Ec; [|done]. cbn [mbind option_bind] in Hser.
    apply (IH _ _ Hser).
    + apply insert_subseteq_l; [|done]. by apply (Hin 0%nat a r c).
    + intros j a' r' c' Ha Hr Hc. by apply (Hin (S j) a' r' c').
Qed.

Lemma initialize_lookup (accs : list account) (snap : gmap string (status_ pyval))
    (j : nat) (a : account) (v : status_ pyval) :
  accs !! j = Some a -> snap !! account_id a = Some v ->
  _initialize_account_status accs (Stored snap) !! j = Some (load_status v).
Proof.
  intros Ha Hv. unfold _initialize_account_status. cbv zeta.
  rewrite list_lookup_fmap, Ha. cbn [fmap option_fmap option_map].
  by rewrite lookup_fmap, Hv.
Qed.

Lemma save_again (accs : list account) (sts : list status)
    (snap : gmap string (status_ pyval)) :
  length accs = length sts ->
  Forall (fun s => Forall reads_back (timestamps s)) sts ->
  serialize accs (to_raw <$> sts) ∅ = Some snap ->
  serialize accs (_initialize_account_status accs (Stored snap)) ∅ = Some snap.
Proof.
  intros Hlen Hrb Hser.
  destruct (serialize_keys _ _ _ _ Hser) as [_ Hkeys].
  assert (Hent : forall j a, accs !! j = Some a ->
            exists s, s ∈ sts /\ snap !! account_id a = Some (snapshot_of s)).
  { intros j a Ha. destruct (Hkeys j a Ha) as [v Hv].
    { rewrite length_fmap, <- Hlen. by eapply lookup_lt_Some. }
    destruct (serialize_lookup _ _ _ _ _ _ Hser Hv) as [Hno | (i & a' & r & _ & _ & Hr & Hc)];
      [by rewrite lookup_empty in Hno|].
    rewrite list_lookup_fmap in Hr. destruct (sts !! i) as [s|] eqn:Es; [|done].
    injection Hr as <-. rewrite save_status_to_raw in Hc. injection Hc as <-.
    exists s. split; [by eapply list_elem_of_lookup_2 | done]. }
  assert (Hload : forall j a r c, accs !! j = Some a ->
            _initialize_account_status accs (Stored snap) !! j = Some r ->
            save_status r = Some c -> snap !! account_id a = Some c).
  { intros j a r c Ha Hr Hc. destruct (Hent j a Ha) as (s & Hs & Hv).
    rewrite (initialize_lookup _ _ _ _ _ Ha Hv) in Hr. injection Hr as <-.
    rewrite save_load_snapshot_of in Hc; [by injection Hc as <-|].
    rewrite Forall_forall in Hrb. by apply Hrb. }
  assert (Hlen2 : length (_initialize_account_status accs (Stored snap)) = length accs).
  { unfold _initialize_account_status. cbv zeta. by rewrite length_fmap. }
  destruct (serialize_is_Some accs (_initialize_account_status accs (Stored snap)) ∅)
    as [snap2 Hser2]; [lia | |].
  { apply Forall_forall. intros r Hr. apply list_elem_of_lookup in Hr as [j Hr].
    destruct (lookup_lt_is_Some_2 accs j) as [a Ha].
    { rewrite <- Hlen2. by eapply lookup_lt_Some. }
    destruct (Hent j a Ha) as (s & Hs & Hv).
    rewrite (initialize_lookup _ _ _ _ _ Ha Hv) in Hr. injection Hr as <-.
    rewrite save_load_snapshot_of; [by eexists|].
    rewrite Forall_forall in Hrb. by apply Hrb. }
  rewrite Hser2. f_equal. apply map_eq. intros k.
  pose proof (serialize_subseteq _ _ _ _ snap Hser2 (map_empty_subseteq _) Hload) as Hsub.
  destruct (serialize_keys _ _ _ _ Hser2) as [_ Hkeys2].
  destruct (snap !! k) as [v|] eqn:Ek.
  - destruct (serialize_lookup _ _ _ _ _ _ Hser Ek) as [Hno | (i & a & r & Ha & <- & Hr & _)];
      [by rewrite lookup_empty in Hno|].
    destruct (Hkeys2 i a Ha) as [v2 Hv2].
    { rewrite Hlen2. by eapply lookup_lt_Some. }
    rewrite Hv2. pose proof (lookup_weaken _ _ _ _ Hv2 Hsub) as Hw. congruence.
  - destruct (snap2 !! k) as [v2|] eqn:Ek2; [|done].
    pose proof (lookup_weaken _ _ _ _ Ek2 Hsub) as Hw. congruence.
Qed.
End Persistence.

(** C8, as stated, fails for the empty string.  It is no timestamp
    ([fromisoformat] rejects it), and [_initialize_account_status] leaves
    it where it is: the test [status["last_used"]] is false for it, so the
    [try] that would store [None] is not entered.  The loaded status of
    the first account has [last_used] equal to the empty string, which is
    neither [None] nor a [datetime]. *)
Lemma empty_timestamp_string_kept :
  fromisoformat (Runtime := PyModel.runtime) EmptyString = None
  /\ last_used <$> (_initialize_account_status (RT := PyModel.runtime)
                      AUTOX_AI_ACCOUNTS (Stored empty_last_used) !! 0%nat)
     = Some (PStr EmptyString)
  /\ (_initialize_account_status (RT := PyModel.runtime)
        AUTOX_AI_ACCOUNTS (Stored empty_last_used) !! 0%nat ≫= of_raw) = None.
Proof. vm_compute. done. Qed.

(** C8, amended.  For a manager with one status per account
    [_save_account_status] writes a snapshot, in which every set timestamp
    is its ISO-8601 string and the response times are the last 10; loading
    this snapshot and saving again writes the same snapshot, when
    [fromisoformat] reads back the timestamps [isoformat] wrote.  Such a
    timestamp is loaded as the [datetime] it was.  A non-empty string that
    is no timestamp, and every other true value that is no string, is
    loaded as [None]; the empty string and every other false value stay
    as they are. *)
Theorem snapshot_round_trip {RT : Runtime} (m : manager) :
  length (accounts m) = length (account_status m) ->
  Forall (fun s => Forall reads_back (timestamps s)) (account_status m) ->
  (exists snap,
     health_check_file (_save_account_status m) = Stored snap
     /\ serialize (accounts m) (to_raw <$> account_status m) ∅ = Some snap
     /\ serialize (accounts m)
          (_initialize_account_status (accounts m) (Stored snap)) ∅ = Some snap)
  /\ (forall s, save_status (to_raw s) = Some (snapshot_of s))
  /\ (forall t, reads_back t -> isoformat t <> EmptyString ->
                load_field (PStr (isoformat t)) = PTime t)
  /\ (forall str, str <> EmptyString -> fromisoformat str = None ->
                  load_field (PStr str) = PNone)
  /\ (forall v, truthy v = true -> (forall str, v <> PStr str) -> load_field v = PNone)
  /\ (forall v, truthy v = false -> load_field v = v).
Proof.
  intros Hlen Hrb. split; [|split; [|split; [|split; [|split]]]].
  - destruct (serialize_is_Some (accounts m) (to_raw <$> account_status m) ∅)
      as [snap Hser].
    { rewrite length_fmap. lia. }
    { apply Forall_fmap, Forall_forall. intros s _. cbn.
      rewrite save_status_to_raw. by eexists. }
    exists snap. split; [|split; [done|]].
    + unfold _save_account_status. by rewrite Hser.
    + by apply (save_again _ (account_status m)).
  - apply save_status_to_raw.
  - apply load_field_isoformat.
  - apply load_field_malformed.
  - apply load_field_no_string.
  - apply load_field_falsy.
Qed.

Lemma snapshot_round_trip_witness :
  (exists snap,
     health_check_file (_save_account_status (RT := PyModel.runtime) used_manager)
     = Stored snap
     /\ serialize (RT := PyModel.runtime) (accounts used_manager)
          (to_raw <$> account_status used_manager) ∅ = Some snap
     /\ serialize (RT := PyModel.runtime) (accounts used_manager)
          (_initialize_account_status (RT := PyModel.runtime)
             (accounts used_manager) (Stored snap)) ∅ = Some snap)
  /\ (forall s, save_status (RT := PyModel.runtime) (to_raw s)
                = Some (snapshot_of (RT := PyModel.runtime) s))
  /\ (forall t, reads_back (RT := PyModel.runtime) t ->
                isoformat (Runtime := PyModel.runtime) t <> EmptyString ->
                load_field (RT := PyModel.runtime)
                  (PStr (isoformat (Runtime := PyModel.runtime) t)) = PTime t)
  /\ (forall str, str <> EmptyString ->
                  fromisoformat (Runtime := PyModel.runtime) str = None ->
                  load_field (RT := PyModel.runtime) (PStr str) = PNone)
  /\ (forall v, truthy v = true -> (forall str, v <> PStr str) ->
                load_field (RT := PyModel.runtime) v = PNone)
  /\ (forall v, truthy v = false -> load_field (RT := PyModel.runtime) v = v).
Proof.
  apply (snapshot_round_trip (RT := PyModel.runtime) used_manager).
  - reflexivity.
  - repeat first [apply Forall_nil_2 | apply Forall_cons_2]; vm_compute; reflexivity.
Defined.

(** * The response-time factor *)

Lemma Qsum_nonneg (l : list Q) : Forall (Qle 0) l -> 0 <= Qsum l.
Proof.
  induction 1 as [|a l Ha _ IH]; unfold Qsum; cbn [foldr]; [apply Qle_refl|].
  fold (Qsum l). lra.
Qed.

Lemma average_nonneg (l : list Q) : Forall (Qle 0) l -> 0 <= average l.
Proof.
  intros H. unfold average, Qdiv. apply Qmult_le_0_compat; [by apply Qsum_nonneg|].
  apply Qinv_le_0_compat. unfold Qle, inject_Z. cbn [Qnum Qden]. lia.
Qed.

Lemma all_avg_times_nonneg (sts : list status) :
  Forall (fun s => Forall (Qle 0) (response_times s)) sts ->
  Forall (Qle 0) (all_avg_times sts).
Proof.
  induction 1 as [|s sts Hs _ IH]; unfold all_avg_times; cbn [omap list_omap];
    [constructor|].
  fold (all_avg_times sts). destruct (response_times s) as [|q l] eqn:E; [done|].
  constructor; [by apply average_nonneg | done].
Qed.

Lemma response_time_factor_nonneg (s : status) (sts : list status) :
  Forall (Qle 0) (response_times s) ->
  Forall (fun s' => Forall (Qle 0) (response_times s')) sts ->
  0 <= response_time_factor s sts
  /\ (response_times s = [] -> response_time_factor s sts = 1).
Proof.
  intros Hs Hall. unfold response_time_factor.
  destruct (response_times s) as [|q l] eqn:E; [split; [discriminate | done]|].
  split; [|discriminate]. cbv zeta.
  pose proof (all_avg_times_nonneg sts Hall) as Hav.
  destruct (all_avg_times sts) as [|a all]; [discriminate|].
  destruct (Qeq_bool _ 0); [discriminate|].
  unfold Qdiv. apply Qmult_le_0_compat; [by apply average_nonneg|].
  apply Qinv_le_0_compat. apply Qle_trans with (1 # 10); [discriminate|].
  apply Q.le_max_l.
Qed.

(** X1.  [_calculate_response_time_factor] is 1 for an account without
    response times, and it is never negative when no recorded response
    time is. *)
Theorem response_time_factor_not_negative (index : nat) (m : manager) (s : status) :
  account_status m !! index = Some s ->
  exists f, _calculate_response_time_factor index m = Some f
            /\ (response_times s = [] -> f = 1)
            /\ (Forall (fun s' => Forall (Qle 0) (response_times s')) (account_status m) ->
                0 <= f).
Proof.
  intros Es. unfold _calculate_response_time_factor. rewrite Es.
  cbn [mbind option_bind]. eexists. split; [reflexivity|]. split.
  - intros E. unfold response_time_factor. by rewrite E.
  - intros Hall. apply response_time_factor_nonneg; [|done].
    rewrite Forall_forall in Hall. apply Hall. by eapply list_elem_of_lookup_2.
Qed.

Lemma response_time_factor_not_negative_witness :
  exists f, _calculate_response_time_factor 0 used_manager = Some f
            /\ (response_times used_status = [] -> f = 1)
            /\ (Forall (fun s' => Forall (Qle 0) (response_times s'))
                  (account_status used_manager) -> 0 <= f).
Proof.
  apply (response_time_factor_not_negative 0 used_manager used_status).
  reflexivity.
Defined.

(** * The cooldown multiplier *)

Section Cooldown.
Context {RT : Runtime}.

Lemma blacklist_cooldown (now : time) (s : status) :
  cooldown_multiplier (blacklist now s) = cooldown_multiplier s.
Proof. rewrite blacklist_eq. fields. reflexivity. Qed.

Lemma cooldown_set_rate_limited_until (v : option time) (s : status) :
  cooldown_multiplier (set_rate_limited_until v s) = cooldown_multiplier s.
Proof. reflexivity. Qed.

Lemma failure_result_cooldown (now : time) (rl : bool) (ty : string)
    (msg : option string) (s : status) :
  cooldown_multiplier (failure_result now rl ty msg s)
  = if rl then Qmin 5 (cooldown_multiplier s * (3 # 2)) else cooldown_multiplier s.
Proof.
  unfold failure_result. cbv zeta.
  destruct (failure_status_fields now ty msg s) as (_ & _ & _ & Hc & _).
  destruct rl.
  - destruct (rate_limit_status_fields now None (failure_status now ty msg s))
      as (_ & _ & _ & H & _).
    by rewrite H, Hc.
  - generalize dependent (failure_status now ty msg s). intros s1 Hc.
    destruct (MAX_CONSECUTIVE_FAILURES <=? _)%Z; [by rewrite blacklist_cooldown|].
    destruct (3 <=? _)%Z; [|exact Hc].
    by rewrite cooldown_set_rate_limited_until.
Qed.

Lemma success_result_cooldown (now : time) (index : nat) (rt : option Q)
    (sts : list status) (s : status) :
  cooldown_multiplier (success_result now index rt sts s)
  = Qmax 1 (cooldown_multiplier s * (8 # 10)).
Proof.
  rewrite success_result_eq. fields.
  by destruct (success_status_fields now rt s) as (_ & _ & _ & _ & _ & _ & _ & H & _).
Qed.

Lemma raised_in_range (c : Q) : 1 <= c -> c <= 5 -> 1 <= Qmin 5 (c * (3 # 2)) <= 5.
Proof.
  intros H1 H5. split; [|apply Q.le_min_l].
  apply Q.min_glb; [discriminate | lra].
Qed.

Lemma lowered_in_range (c : Q) : 1 <= c -> c <= 5 -> 1 <= Qmax 1 (c * (8 # 10)) <= 5.
Proof.
  intros H1 H5. split; [apply Q.le_max_l|].
  apply Q.max_lub; [discriminate | lra].
Qed.

Lemma apply_event_cooldown (index : nat) (m : manager) (e : time * event) (s : status) :
  account_status m !! index = Some s -> is_Some (accounts m !! index) ->
  cooldown_in_range s ->
  exists m' s', apply_event index m e = Some m'
                /\ account_status m' !! index = Some s'
                /\ is_Some (accounts m' !! index)
                /\ cooldown_in_range s'.
Proof.
  intros Es Ha [H1 H5].
  assert (Hlt : (index < length (account_status m))%nat) by by eapply lookup_lt_Some.
  assert (Hfin : forall m' s', updates index s' m m' -> cooldown_in_range s' ->
            account_status m' !! index = Some s'
            /\ is_Some (accounts m' !! index) /\ cooldown_in_range s').
  { intros m' s' Hu Hc. split; [by apply (updates_lookup _ _ m)|].
    split; [|done]. destruct Hu as (_ & -> & _). done. }
  destruct e as [now [rt | rl ty msg | minutes |]]; unfold apply_event;
    cbn [fst snd].
  - destruct (mark_success_updates now index rt m s Es Ha) as (m' & -> & Hu).
    eexists _, _. split; [done|]. apply Hfin; [done|].
    unfold cooldown_in_range. rewrite success_result_cooldown.
    by apply lowered_in_range.
  - destruct (mark_failure_updates now index rl ty msg m s Es Ha) as (m' & -> & Hu).
    eexists _, _. split; [done|]. apply Hfin; [done|].
    unfold cooldown_in_range. rewrite failure_result_cooldown.
    destruct rl; [by apply raised_in_range | done].
  - destruct (mark_rate_limited_updates now index minutes m s Es Ha) as (m' & -> & Hu).
    eexists _, _. split; [done|]. apply Hfin; [done|].
    destruct (rate_limit_status_fields now minutes s) as (_ & _ & _ & H & _).
    unfold cooldown_in_range. rewrite H. by apply raised_in_range.
  - destruct (blacklist_account_updates now index m s Es Ha) as (m' & -> & Hu).
    eexists _, _. split; [done|]. apply Hfin; [done|].
    unfold cooldown_in_range. by rewrite blacklist_cooldown.
Qed.
End Cooldown.

(** X2.  The cooldown multiplier of an account stays between 1 and 5
    under every sequence of success, failure, rate-limit and blacklist
    updates: [mark_rate_limited] raises it by half up to the cap 5,
    [mark_success] lowers it by a fifth down to 1, the other updates leave
    it alone. *)
Theorem cooldown_multiplier_within_bounds {RT : Runtime} (index : nat)
    (evs : list (time * event)) (m : manager) (s : status) :
  account_status m !! index = Some s -> is_Some (accounts m !! index) ->
  cooldown_in_range s ->
  exists m' s', apply_events index evs m = Some m'
                /\ account_status m' !! index = Some s'
                /\ 1 <= cooldown_multiplier s' /\ cooldown_multiplier s' <= 5.
Proof.
  revert m s. induction evs as [|e evs IH]; intros m s Es Ha Hc.
  - exists m, s. by destruct Hc.
  - destruct (apply_event_cooldown index m e s Es Ha Hc) as (m1 & s1 & E1 & Es1 & Ha1 & Hc1).
    cbn [apply_events]. rewrite E1. cbn [mbind option_bind]. by apply (IH m1 s1).
Qed.

Lemma cooldown_multiplier_within_bounds_witness :
  exists m' s',
    apply_events (RT := PyModel.runtime) 1
      [(5, Failure true "rate_limit" None); (6, RateLimited (Some 10));
       (7, RateLimited None); (8, RateLimited None); (9, RateLimited None);
       (40, Success (Some (3 # 10))); (41, Blacklisted)]
      fresh_manager = Some m'
    /\ account_status m' !! 1%nat = Some s'
    /\ 1 <= cooldown_multiplier s' /\ cooldown_multiplier s' <= 5.
Proof.
  apply (cooldown_multiplier_within_bounds (RT := PyModel.runtime) 1 _ fresh_manager
           _create_default_status).
  - reflexivity.
  - by eexists.
  - split; discriminate.
Defined.

(** * Availability in time *)

Lemma available_monotone (now later : time) (s : status) :
  now <= later -> available now s = true -> available later s = true.
Proof.
  intros Hle. unfold available.
  assert (H : forall t, Qgtb t now = false -> Qgtb t later = false).
  { intros t Ht. unfold Qgtb in *. apply Qltb_ge in Ht. apply Qltb_ge.
    by apply Qle_trans with now. }
  destruct (rate_limited_until s) as [r|].
  - destruct (Qgtb r now) eqn:Er; [done|]. rewrite (H r Er).
    destruct (blacklisted_until s) as [b|]; [|done].
    destruct (Qgtb b now) eqn:Eb; [done|]. by rewrite (H b Eb).
  - destruct (blacklisted_until s) as [b|]; [|done].
    destruct (Qgtb b now) eqn:Eb; [done|]. by rewrite (H b Eb).
Qed.

(** X4.  An account that [is_account_available] reports available stays
    available at every later time, as long as its status is not updated:
    the limits only expire. *)
Theorem availability_is_monotone (now later : time) (index : nat) (m : manager) :
  now <= later ->
  is_account_available now index m = Some true ->
  is_account_available later index m = Some true.
Proof.
  intros Hle. unfold is_account_available.
  destruct (account_status m !! index) as [s|]; [|done].
  cbn [fmap option_fmap option_map]. intros [= H].
  by rewrite (available_monotone now later s Hle H).
Qed.

Lemma availability_is_monotone_witness :
  is_account_available 200 0 rate_limited_current = Some true.
Proof.
  apply (availability_is_monotone 100 200 0 rate_limited_current).
  - discriminate.
  - vm_compute. reflexivity.
Defined.

(** X3.  A rate limit recorded by [mark_rate_limited] without [minutes]
    on an account whose cooldown multiplier is between 1 and 5 lasts
    between 22.5 and 75 minutes, [RATE_LIMIT_COOLDOWN] times the raised
    multiplier, and the account is unavailable until then. *)
Theorem default_rate_limit_duration {RT : Runtime} (now : time) (index : nat)
    (m : manager) (s : status) :
  account_status m !! index = Some s -> is_Some (accounts m !! index) ->
  cooldown_in_range s ->
  holds_after (mark_rate_limited now index None m) index (fun s' =>
    exists t, rate_limited_until s' = Some t
              /\ now + (45 # 2) <= t /\ t <= now + 75
              /\ forall t', t' < t -> available t' s' = false).
Proof.
  intros Es Ha [H1 H5].
  assert (Hlt : (index < length (account_status m))%nat) by by eapply lookup_lt_Some.
  destruct (mark_rate_limited_updates now index None m s Es Ha) as (m' & -> & Hu).
  unfold holds_after. rewrite (updates_lookup _ _ _ _ Hlt Hu).
  destruct (rate_limit_status_fields now None s) as (_ & _ & _ & _ & Hr).
  generalize dependent (rate_limit_status now None s). intros s' _ Hr.
  eexists. split; [exact Hr|].
  assert (Hlo : 3 # 2 <= Qmin 5 (cooldown_multiplier s * (3 # 2)))
    by (apply Q.min_glb; [discriminate | lra]).
  assert (Hhi : Qmin 5 (cooldown_multiplier s * (3 # 2)) <= 5) by apply Q.le_min_l.
  generalize dependent (Qmin 5 (cooldown_multiplier s * (3 # 2))). intros c Hr Hlo Hhi.
  unfold RATE_LIMIT_COOLDOWN in *.
  split; [lra|]. split; [lra|].
  intros t' Ht'. unfold available. rewrite Hr.
  apply Qltb_lt in Ht'. unfold Qgtb. by rewrite Ht'.
Qed.

Lemma default_rate_limit_duration_witness :
  holds_after (mark_rate_limited (RT := PyModel.runtime) 3 1 None fresh_manager) 1
    (fun s' =>
       exists t, rate_limited_until s' = Some t
                 /\ 3 + (45 # 2) <= t /\ t <= 3 + 75
                 /\ forall t', t' < t -> available t' s' = false).
Proof.
  apply (default_rate_limit_duration (RT := PyModel.runtime) 3 1 fresh_manager
           _create_default_status).
  - reflexivity.
  - by eexists.
  - split; discriminate.
Defined.

(** * The periodic health check *)

Section HealthCheck.
Context {RT : Runtime}.

(** The limits one pass of the check leaves: those that have not expired. *)
Lemma health_check_status_limits (now : time) (s : status) :
  rate_limited_until (health_check_status now s)
  = match rate_limited_until s with
    | Some t => if Qle_bool t now then None else Some t
    | None => None
    end
  /\ blacklisted_until (health_check_status now s)
     = match blacklisted_until s with
       | Some t => if Qle_bool t now then None else Some t
       | None => None
       end.
Proof.
  unfold health_check_status. cbv zeta.
  destruct s as [f cf rl bl ls tr tf hs cm lu av rts et le ss]. fields.
  destruct lu as [lu|]; [destruct (Qgtb (hours_since now lu) 24)|];
    rewrite ?update_health_eq; fields;
    (destruct rl as [r|]; [destruct (Qle_bool r now) eqn:Er|]); fields;
    (destruct bl as [b|]; [destruct (Qle_bool b now) eqn:Eb|]); fields;
    rewrite ?Er, ?Eb; split; reflexivity.
Qed.

(** The score one pass of the check leaves is the old one or a clamped
    one. *)
Lemma health_check_status_in_range (now : time) (s : status) :
  in_range (health_score s) -> in_range (health_score (health_check_status now s)).
Proof.
  intros Hin. unfold health_check_status. cbv zeta.
  destruct s as [f cf rl bl ls tr tf hs cm lu av rts et le ss]. fields.
  destruct lu as [lu|]; [destruct (Qgtb (hours_since now lu) 24)|];
    rewrite ?update_health_eq; fields;
    (destruct rl as [r|]; [destruct (Qle_bool r now) eqn:Er|]); fields;
    (destruct bl as [b|]; [destruct (Qle_bool b now) eqn:Eb|]); fields;
    first [exact Hin | unfold new_health; apply clamp_in_range].
Qed.

Lemma not_expired (t now : time) : Qle_bool t now = false -> now < t.
Proof.
  intros H. apply Qnot_le_lt. intros Hle. apply Qle_bool_iff in Hle. congruence.
Qed.
End HealthCheck.

(** X5.  A health check that is due ([HEALTH_CHECK_INTERVAL] seconds
    after the last one) is carried out on a manager with one status per
    account: it records the time, clears every rate limit and blacklist
    entry that has expired, so that those left lie in the future, keeps
    every health score that was between 0 and 100 in that range, and
    leaves accounts and current index alone.  A second check at the same
    time changes nothing. *)
Theorem health_check_clears_expired_limits {RT : Runtime} (now : time) (m : manager) :
  length (accounts m) = length (account_status m) ->
  check_due now m = true ->
  exists m1,
    _run_health_check now m = Some m1
    /\ last_health_check m1 = now
    /\ accounts m1 = accounts m
    /\ current_index m1 = current_index m
    /\ account_status m1 = health_check_status now <$> account_status m
    /\ (forall i (s1 : status), account_status m1 !! i = Some s1 ->
          (forall t : time, rate_limited_until s1 = Some t -> now < t)
          /\ (forall t : time, blacklisted_until s1 = Some t -> now < t))
    /\ (forall i (s s1 : status), account_status m !! i = Some s ->
          account_status m1 !! i = Some s1 ->
          0 <= health_score s <= 100 -> 0 <= health_score s1 <= 100)
    /\ _run_health_check now m1 = Some m1.
Proof.
  intros Hlen Hdue. unfold check_due in Hdue. apply negb_true_iff in Hdue.
  unfold _run_health_check at 1. rewrite Hdue. cbv zeta.
  change (accounts (set_last_health_check now m)) with (accounts m).
  change (account_status (set_last_health_check now m)) with (account_status m).
  rewrite Hlen, Nat.leb_refl, firstn_all, drop_all, app_nil_r.
  eexists. split; [reflexivity|].
  destruct (save_status_fields
              (set_account_status (health_check_status now <$> account_status m)
                 (set_last_health_check now m))) as (Hs & Ha & Hc & Hl).
  rewrite Hs, Ha, Hc, Hl.
  split; [reflexivity|]. split; [reflexivity|]. split; [reflexivity|].
  split; [reflexivity|].
  change (account_status
            (set_account_status (health_check_status now <$> account_status m)
               (set_last_health_check now m)))
    with (health_check_status now <$> account_status m).
  split; [|split].
  - intros i s1 Hi. rewrite list_lookup_fmap in Hi.
    destruct (account_status m !! i) as [s|]; [|done].
    cbn [fmap option_fmap option_map] in Hi. injection Hi as Hi. subst s1.
    destruct (health_check_status_limits now s) as [Hr Hb].
    split; intros t Ht.
    + rewrite Hr in Ht. destruct (rate_limited_until s) as [r|]; [|done].
      destruct (Qle_bool r now) eqn:E; [done|]. injection Ht as <-.
      by apply not_expired.
    + rewrite Hb in Ht. destruct (blacklisted_until s) as [b|]; [|done].
      destruct (Qle_bool b now) eqn:E; [done|]. injection Ht as <-.
      by apply not_expired.
  - intros i s s1 Hi Hi1 Hin. rewrite list_lookup_fmap, Hi in Hi1.
    cbn [fmap option_fmap option_map] in Hi1. injection Hi1 as Hi1. subst s1.
    by apply health_check_status_in_range.
  - unfold _run_health_check. rewrite Hl.
    change (last_health_check
              (set_account_status (health_check_status now <$> account_status m)
                 (set_last_health_check now m))) with now.
    assert (E : Qltb ((now - now) * 60) HEALTH_CHECK_INTERVAL = true).
    { apply Qltb_lt. unfold HEALTH_CHECK_INTERVAL. lra. }
    by rewrite E.
Qed.

Lemma health_check_clears_expired_limits_witness :
  exists m1,
    _run_health_check (RT := PyModel.runtime) 120 rate_limited_current = Some m1
    /\ last_health_check m1 = 120
    /\ accounts m1 = accounts rate_limited_current
    /\ current_index m1 = current_index rate_limited_current
    /\ account_status m1
       = health_check_status (RT := PyModel.runtime) 120
           <$> account_status rate_limited_current
    /\ (forall i (s1 : status), account_status m1 !! i = Some s1 ->
          (forall t : time, rate_limited_until s1 = Some t -> 120 < t)
          /\ (forall t : time, blacklisted_until s1 = Some t -> 120 < t))
    /\ (forall i (s s1 : status), account_status rate_limited_current !! i = Some s ->
          account_status m1 !! i = Some s1 ->
          0 <= health_score s <= 100 -> 0 <= health_score s1 <= 100)
    /\ _run_health_check (RT := PyModel.runtime) 120 m1 = Some m1.
Proof.
  apply (health_check_clears_expired_limits (RT := PyModel.runtime) 120
           rate_limited_current).
  - reflexivity.
  - vm_compute. reflexivity.
Defined.

(** * Strategy 3: the earliest expiry *)

Section Expiry.
Context {RT : Runtime}.

Lemma earlier_earliest (L : list (nat * time)) (t : option time) (i : nat)
    (acc : option time * option nat) :
  earliest_of L acc ->
  earliest_of (L ++ match t with Some t' => [(i, t')] | None => [] end)
    (earlier t i acc).
Proof.
  intros H. destruct t as [t'|]; [|by rewrite app_nil_r].
  destruct acc as [[e|] [r|]]; try done; unfold earlier; cbn [fst].
  - destruct H as [Hin Hmin]. destruct (Qltb t' e) eqn:E.
    + apply Qltb_lt in E. split; [set_solver|].
      intros j t Hj. apply elem_of_app in Hj as [Hj | Hj].
      * apply Qle_trans with e; [by apply Qlt_le_weak | by apply (Hmin j)].
      * apply list_elem_of_singleton in Hj. injection Hj as -> ->. apply Qle_refl.
    + apply Qltb_ge in E. split; [set_solver|].
      intros j t Hj. apply elem_of_app in Hj as [Hj | Hj]; [by apply (Hmin j)|].
      apply list_elem_of_singleton in Hj. by injection Hj as -> ->.
  - cbn in H. subst L. split; [set_solver|].
    intros j t Hj. apply list_elem_of_singleton in Hj. injection Hj as -> ->.
    apply Qle_refl.
Qed.

Lemma earliest_expiry_earliest (sts : list status) (i : nat) (L : list (nat * time))
    (acc : option time * option nat) :
  earliest_of L acc ->
  earliest_of (L ++ expiries sts i) (earliest_expiry sts i acc).
Proof.
  revert i L acc. induction sts as [|s sts IH]; intros i L acc H;
    cbn [expiries earliest_expiry]; [by rewrite app_nil_r|].
  cbv zeta. rewrite !app_assoc. apply IH.
  by apply earlier_earliest, earlier_earliest.
Qed.

Lemma expiries_elem (sts : list status) (i j : nat) (t : time) :
  (j, t) ∈ expiries sts i
  <-> exists k s, j = (i + k)%nat /\ sts !! k = Some s
                  /\ (rate_limited_until s = Some t \/ blacklisted_until s = Some t).
Proof.
  revert i. induction sts as [|s sts IH]; intros i; cbn [expiries].
  - split; [by intros H%elem_of_nil | by intros (k & s & _ & H & _)].
  - rewrite !elem_of_app, IH. split.
    + intros [H | [H | (k & s2 & -> & Hk & Ht)]].
      * destruct (rate_limited_until s) as [r|] eqn:Er; [|by apply elem_of_nil in H].
        apply list_elem_of_singleton in H. injection H as -> ->.
        exists 0%nat, s. split; [lia|]. split; [done | by left].
      * destruct (blacklisted_until s) as [b|] eqn:Eb; [|by apply elem_of_nil in H].
        apply list_elem_of_singleton in H. injection H as -> ->.
        exists 0%nat, s. split; [lia|]. split; [done | by right].
      * exists (S k), s2. split; [lia | done].
    + intros ([|k] & s2 & -> & Hk & Ht).
      * injection Hk as <-. rewrite Nat.add_0_r.
        destruct Ht as [-> | ->]; [left | right; left]; by apply list_elem_of_singleton.
      * right. right. exists k, s2. split; [lia | done].
Qed.

Lemma unavailable_has_limit (now : time) (s : status) :
  available now s = false ->
  exists t, rate_limited_until s = Some t \/ blacklisted_until s = Some t.
Proof.
  unfold available. destruct (rate_limited_until s) as [r|]; [by exists r; left|].
  destruct (blacklisted_until s) as [b|]; [by exists b; right | done].
Qed.

Lemma best_available_none (now : time) (sts : list status) (i : nat) (bs : Q)
    (bi : option nat) :
  Forall (fun s => available now s = false) sts ->
  best_available now sts i bs bi = (bs, bi).
Proof.
  intros H. revert i. induction H as [|s sts Hs _ IH]; intros i;
    cbn [best_available]; [done|].
  rewrite Hs. cbn [andb]. apply IH.
Qed.

Lemma least_recent_none (now : time) (sts : list status) (i : nat)
    (lrt : option time) (lri : option nat) :
  Forall (fun s => available now s = false) sts ->
  least_recent now sts i lrt lri = (lrt, lri).
Proof.
  intros H. revert i. induction H as [|s sts Hs _ IH]; intros i;
    cbn [least_recent]; [done|].
  rewrite Hs. cbn [andb]. apply IH.
Qed.

Lemma select_index_earliest (now : time) (sts : list status) :
  Forall (fun s => available now s = false) sts -> sts <> [] ->
  exists r e, select_index now sts = Some r
              /\ (r, e) ∈ expiries sts 0
              /\ forall j t, (j, t) ∈ expiries sts 0 -> e <= t.
Proof.
  intros Hall Hne. unfold select_index.
  rewrite (best_available_none now sts 0 _ _ Hall), (least_recent_none now sts 0 _ _ Hall).
  cbn [snd].
  pose proof (earliest_expiry_earliest sts 0 [] (None, None) eq_refl) as H.
  rewrite app_nil_l in H.
  destruct (earliest_expiry sts 0 (None, None)) as [[e|] [r|]]; try done.
  - destruct H as [Hin Hmin]. by exists r, e.
  - cbn in H. destruct sts as [|s sts]; [done|].
    apply Forall_cons in Hall as [Hs _].
    destruct (unavailable_has_limit now s Hs) as [t Ht].
    assert (Hin : (0%nat, t) ∈ expiries (s :: sts) 0).
    { apply expiries_elem. exists 0%nat, s. done. }
    rewrite H in Hin. by apply elem_of_nil in Hin.
Qed.
End Expiry.

(** X6.  When no account is available, [switch_account] moves to the
    account that carries the earliest limit: its rate limit or blacklist
    entry expires no later than any limit of any account (the statuses
    are those the health check leaves). *)
Theorem earliest_expiry_selected {RT : Runtime} (now : time) (m : manager) :
  length (accounts m) = length (account_status m) ->
  account_status m <> [] ->
  Forall (fun s => available now s = false) (checked now m) ->
  exists m' a (s : status) (e : time),
    switch_account now m = Some (m', a)
    /\ accounts m !! current_index m' = Some a
    /\ account_status m' !! current_index m' = Some s
    /\ (rate_limited_until s = Some e \/ blacklisted_until s = Some e)
    /\ forall j (s2 : status) (t : time), account_status m' !! j = Some s2 ->
         rate_limited_until s2 = Some t \/ blacklisted_until s2 = Some t -> e <= t.
Proof.
  intros Hlen Hne Hall.
  assert (Hne' : checked now m <> []).
  { intros E. apply Hne. apply length_zero_iff_nil.
    by rewrite <- (checked_length now m), E. }
  destruct (select_index_earliest now _ Hall Hne') as (r & e & Hsel & Hin & Hmin).
  apply expiries_elem in Hin as (k & s & Hk & Hs & He). cbn in Hk. subst k.
  assert (Hlt : (r < length (account_status m))%nat).
  { rewrite <- (checked_length now m). by eapply lookup_lt_Some. }
  destruct (switch_account_selected now m r Hlen Hsel Hlt) as (m' & a & E & Hc & Ha & _ & Hst).
  exists m', a, s, e. rewrite Hc, Hst.
  split; [done|]. split; [done|]. split; [done|]. split; [done|].
  intros j s2 t Hj Ht. apply (Hmin j). apply expiries_elem. by exists j, s2.
Qed.

Lemma earliest_expiry_selected_witness :
  exists m' a (s : status) (e : time),
    switch_account (RT := PyModel.runtime) 10 all_limited = Some (m', a)
    /\ accounts all_limited !! current_index m' = Some a
    /\ account_status m' !! current_index m' = Some s
    /\ (rate_limited_until s = Some e \/ blacklisted_until s = Some e)
    /\ forall j (s2 : status) (t : time), account_status m' !! j = Some s2 ->
         rate_limited_until s2 = Some t \/ blacklisted_until s2 = Some t -> e <= t.
Proof.
  apply (earliest_expiry_selected (RT := PyModel.runtime) 10 all_limited).
  - reflexivity.
  - discriminate.
  - repeat first [apply Forall_nil_2 | apply Forall_cons_2]; reflexivity.
Defined.

(** * The requests of a call *)

Section Requests.
Context {RT : Runtime} {payload : Type}.
Variable api : nat -> nat -> reply payload.
Variable clock : nat -> time.

Lemma run_loop_request_bound (fuel k : nat) (st : run_state) :
  length (requests st) = retries st -> (retries st <= RETRY_LIMIT)%nat ->
  (length (requests (fst (run_loop api clock fuel k st))) <= RETRY_LIMIT)%nat.
Proof.
  revert k st. induction fuel as [|fuel IH]; intros k st Hl Hr;
    cbn [run_loop]; [cbn [fst]; lia|].
  cbv zeta. destruct (retries st <? RETRY_LIMIT)%nat eqn:Er; [|cbn [fst]; lia].
  apply Nat.ltb_lt in Er.
  destruct (get_active_account (mgr st)) as [a|]; [|cbn [fst]; lia].
  destruct (bool_decide _ && _).
  - destruct (switch_account (clock k) (mgr st)) as [[m' a']|]; [|cbn [fst]; lia].
    by apply IH.
  - destruct (classify _ _ _ _) as [[[m' v] | [m' extra]]|];
      [cbn [fst requests length]; lia | | cbn [fst requests length]; lia].
    destruct (switch_account (clock k) m') as [[m2 a2]|];
      [|cbn [fst requests length]; lia].
    apply IH; cbn [requests retries length]; lia.
Qed.
End Requests.

(** X7.  A call of [run] sends at most [RETRY_LIMIT] requests, whatever
    the accounts, their statuses, the replies and the times are, and
    however long it runs. *)
Theorem run_sends_at_most_retry_limit_requests {RT : Runtime} {payload : Type}
    (api : nat -> nat -> reply payload) (clock : nat -> time) (fuel : nat)
    (m : manager) :
  (length (requests (fst (run api clock fuel m))) <= RETRY_LIMIT)%nat.
Proof.
  unfold run. apply run_loop_request_bound; [reflexivity|].
  unfold RETRY_LIMIT. cbn [retries start]. lia.
Qed.

(** X8.  When the first reply is a 200 with a body, [run] returns that
    body after one request and without sleeping; the account it was sent
    with, the one [current_index] designated, is marked successful at
    that time. *)
Theorem run_returns_first_success {RT : Runtime} {payload : Type}
    (api : nat -> nat -> reply payload) (clock : nat -> time) (fuel : nat)
    (m : manager) (rt : Q) (v : payload) :
  well_formed m ->
  api 0%nat (current_index m) = Response 200 rt (Some v) ->
  exists st,
    run api clock (S fuel) m = (st, Some (Returned v))
    /\ requests st = [current_index m]
    /\ sleeps st = []
    /\ retries st = 0%nat
    /\ current_index (mgr st) = current_index m
    /\ holds_after (Some (mgr st)) (current_index m) (fun s =>
         consecutive_failures s = 0%Z /\ last_success s = Some (clock 0%nat)
         /\ last_used s = Some (clock 0%nat)).
Proof.
  intros Hwf Hapi.
  destruct (well_formed_current _ Hwf) as (s & a & Es & Ea).
  assert (Hlt : (current_index m < length (account_status m))%nat)
    by by eapply lookup_lt_Some.
  destruct (mark_success_updates (clock 0%nat) (current_index m) (Some rt) m s Es)
    as (m1 & E1 & Hu); [by eexists|].
  unfold run. cbn [run_loop]. cbv zeta.
  change (retries (start m) <? RETRY_LIMIT)%nat with true. cbv iota.
  change (mgr (start m)) with m. change (requests (start m)) with (@nil nat).
  change (tried_accounts (start m)) with (∅ : gset string).
  unfold get_active_account. rewrite Ea.
  rewrite (bool_decide_eq_false_2 _ (not_elem_of_empty (account_id a))).
  cbn [andb length]. rewrite Hapi. unfold classify.
  change (200 =? 200)%Z with true. cbv iota. rewrite E1. cbn [mbind option_bind].
  eexists. split; [reflexivity|]. cbn [requests sleeps retries mgr].
  change (sleeps (start m)) with (@nil Q). change (retries (start m)) with 0%nat.
  split; [reflexivity|]. split; [reflexivity|]. split; [reflexivity|].
  split; [by destruct Hu as (_ & _ & Hc & _)|].
  unfold holds_after. rewrite (updates_lookup _ _ _ _ Hlt Hu).
  rewrite success_result_eq. fields.
  destruct (success_status_fields (clock 0%nat) (Some rt) s)
    as (H1 & H2 & _ & H4 & _).
  done.
Qed.

Lemma run_returns_first_success_witness :
  exists st,
    run (RT := PyModel.runtime)
      (always (Response 200 (1 # 2) (Some "ok"%string))) (fun k => 5 + inject_Z (Z.of_nat k))
      1 fresh_manager = (st, Some (Returned "ok"%string))
    /\ requests st = [current_index fresh_manager]
    /\ sleeps st = []
    /\ retries st = 0%nat
    /\ current_index (mgr st) = current_index fresh_manager
    /\ holds_after (Some (mgr st)) (current_index fresh_manager) (fun s =>
         consecutive_failures s = 0%Z
         /\ last_success s = Some (5 + inject_Z (Z.of_nat 0))
         /\ last_used s = Some (5 + inject_Z (Z.of_nat 0))).
Proof.
  apply (run_returns_first_success (RT := PyModel.runtime)
           (always (Response 200 (1 # 2) (Some "ok"%string)))
           (fun k => 5 + inject_Z (Z.of_nat k)) 0 fresh_manager (1 # 2) "ok"%string).
  - split; [reflexivity | cbn; lia].
  - reflexivity.
Defined.

(** * Writing and reading the health file *)

Section HealthFile.
Context {RT : Runtime}.

Lemma serialize_too_many (accs : list account) (sts : list status)
    (out : gmap string (status_ pyval)) :
  (length accs < length sts)%nat -> serialize accs (to_raw <$> sts) out = None.
Proof.
  revert accs out. induction sts as [|s sts IH]; intros accs out Hlen;
    [cbn in Hlen; lia|].
  destruct accs as [|a accs]; [reflexivity|].
  cbn [fmap list_fmap serialize]. rewrite save_status_to_raw.
  cbn [mbind option_bind]. apply IH. cbn in Hlen. lia.
Qed.
End HealthFile.

(** X9.  [_save_account_status] works on copies: accounts, statuses,
    current index and the time of the last health check are as before.
    With one status per account it writes an entry for every account;
    with a status that has no account the loop raises, the exception is
    caught and the file is left as it was. *)
Theorem save_leaves_manager {RT : Runtime} (m : manager) :
  account_status (_save_account_status m) = account_status m
  /\ accounts (_save_account_status m) = accounts m
  /\ current_index (_save_account_status m) = current_index m
  /\ last_health_check (_save_account_status m) = last_health_check m
  /\ (length (accounts m) = length (account_status m) ->
      exists snap, health_check_file (_save_account_status m) = Stored snap
                   /\ forall i a, accounts m !! i = Some a ->
                                  is_Some (snap !! account_id a))
  /\ ((length (accounts m) < length (account_status m))%nat ->
      health_check_file (_save_account_status m) = health_check_file m).
Proof.
  destruct (save_status_fields m) as (H1 & H2 & H3 & H4).
  split; [done|]. split; [done|]. split; [done|]. split; [done|]. split.
  - intros Hlen.
    destruct (serialize_is_Some (accounts m) (to_raw <$> account_status m) ∅)
      as [snap Hser].
    { rewrite length_fmap. lia. }
    { apply Forall_fmap, Forall_forall. intros s _. cbn.
      rewrite save_status_to_raw. by eexists. }
    exists snap. split; [unfold _save_account_status; by rewrite Hser|].
    intros i a Ha. destruct (serialize_keys _ _ _ _ Hser) as [_ Hk].
    apply (Hk i a Ha). rewrite length_fmap, <- Hlen. by eapply lookup_lt_Some.
  - intros Hlen. unfold _save_account_status.
    by rewrite (serialize_too_many _ _ _ Hlen).
Qed.

(** X10.  An account without an entry in the health file, or any account
    when there is no readable health file, starts with the default
    status: health score 100, no limits, available at every time. *)
Theorem initialize_defaults {RT : Runtime} (accs : list account) (f : health_file)
    (i : nat) (a : account) :
  accs !! i = Some a ->
  match f with Stored snap => snap !! account_id a = None | _ => True end ->
  _initialize_account_status accs f !! i = Some (to_raw _create_default_status)
  /\ of_raw (to_raw _create_default_status) = Some _create_default_status
  /\ length (_initialize_account_status accs f) = length accs
  /\ health_score _create_default_status = 100
  /\ forall now, available now _create_default_status = true.
Proof.
  intros Ha Hf. split; [|split; [reflexivity|split; [|split; [reflexivity|done]]]].
  - destruct f as [| |snap]; unfold _initialize_account_status,
      _initialize_default_status; cbv zeta; rewrite list_lookup_fmap, Ha;
      cbn [fmap option_fmap option_map]; [done | done|].
    by rewrite lookup_fmap, Hf.
  - destruct f; unfold _initialize_account_status, _initialize_default_status;
      cbv zeta; by rewrite length_fmap.
Qed.

Lemma initialize_defaults_witness :
  _initialize_account_status (RT := PyModel.runtime) AUTOX_AI_ACCOUNTS
    (Stored empty_last_used) !! 1%nat = Some (to_raw _create_default_status)
  /\ of_raw (to_raw _create_default_status) = Some _create_default_status
  /\ length (_initialize_account_status (RT := PyModel.runtime) AUTOX_AI_ACCOUNTS
               (Stored empty_last_used)) = length AUTOX_AI_ACCOUNTS
  /\ health_score _create_default_status = 100
  /\ forall now, available now _create_default_status = true.
Proof.
  apply (initialize_defaults (RT := PyModel.runtime) AUTOX_AI_ACCOUNTS
           (Stored empty_last_used) 1 (mkAccount "API_KEY_2" "ACCOUNT_ID_2")).
  - reflexivity.
  - vm_compute. reflexivity.
Defined.

(** * The error record *)

Section ErrorRecord.
Context {RT : Runtime}.

Lemma failure_status_record (now : time) (ty : string) (msg : option string)
    (s : status) :
  error_types (failure_status now ty msg s) = count_error ty (error_types s)
  /\ last_error (failure_status now ty msg s)
     = Some (match msg with
             | Some t => if String.eqb t EmptyString
                         then ("Error type: " ++ ty)%string else t
             | None => ("Error type: " ++ ty)%string
             end)
  /\ success_streak (failure_status now ty msg s) = 0%Z.
Proof. unfold failure_status. cbv zeta. rewrite update_health_eq. fields. done. Qed.

Lemma failure_result_record (now : time) (ty : string) (msg : option string)
    (s : status) :
  error_types (failure_result now false ty msg s)
  = error_types (failure_status now ty msg s)
  /\ last_error (failure_result now false ty msg s)
     = last_error (failure_status now ty msg s)
  /\ success_streak (failure_result now false ty msg s)
     = success_streak (failure_status now ty msg s)
  /\ last_used (failure_result now false ty msg s)
     = last_used (failure_status now ty msg s)
  /\ total_failures (failure_result now false ty msg s)
     = total_failures (failure_status now ty msg s).
Proof.
  unfold failure_result. cbv zeta.
  generalize (failure_status now ty msg s). intros s1.
  destruct (MAX_CONSECUTIVE_FAILURES <=? _)%Z;
    [rewrite blacklist_eq | destruct (3 <=? _)%Z]; fields; done.
Qed.

Lemma count_error_lookup (ty : string) (d : gmap string Z) :
  count_error ty d !! ty = Some (default 0 (d !! ty) + 1)%Z
  /\ forall k, k <> ty -> count_error ty d !! k = d !! k.
Proof.
  unfold count_error. split; [by rewrite lookup_insert_eq|].
  intros k Hk. by rewrite lookup_insert_ne.
Qed.
End ErrorRecord.

(** X14.  A failure that is no rate limit is recorded once: the count of
    its error type grows by one (starting from 0), the counts of the
    other types stay, [last_error] holds the message, or
    ["Error type: "] and the type when there is none, the success streak
    is back at 0 and [last_used] is the time of the failure. *)
Theorem failure_is_recorded {RT : Runtime} (now : time) (index : nat) (ty : string)
    (msg : option string) (m : manager) (s : status) :
  account_status m !! index = Some s -> is_Some (accounts m !! index) ->
  holds_after (mark_failure now index false ty msg m) index (fun s' =>
    error_types s' !! ty = Some (default 0 (error_types s !! ty) + 1)%Z
    /\ (forall k, k <> ty -> error_types s' !! k = error_types s !! k)
    /\ last_error s'
       = Some (match msg with
               | Some t => if String.eqb t EmptyString
                           then ("Error type: " ++ ty)%string else t
               | None => ("Error type: " ++ ty)%string
               end)
    /\ success_streak s' = 0%Z
    /\ last_used s' = Some now
    /\ total_failures s' = (total_failures s + 1)%Z).
Proof.
  intros Es Ha.
  assert (Hlt : (index < length (account_status m))%nat) by by eapply lookup_lt_Some.
  destruct (mark_failure_updates now index false ty msg m s Es Ha) as (m' & -> & Hu).
  unfold holds_after. rewrite (updates_lookup _ _ _ _ Hlt Hu).
  destruct (failure_result_record now ty msg s) as (-> & -> & -> & -> & ->).
  destruct (failure_status_record now ty msg s) as (-> & -> & ->).
  destruct (failure_status_fields now ty msg s) as (_ & _ & -> & _ & _ & _ & ->).
  destruct (count_error_lookup ty (error_types s)) as [-> Hk].
  done.
Qed.

Lemma failure_is_recorded_witness :
  holds_after (mark_failure (RT := PyModel.runtime) 7 2 false "timeout" None used_manager)
    2 (fun s' =>
    error_types s' !! "timeout"%string
    = Some (default 0 (error_types used_status !! "timeout"%string) + 1)%Z
    /\ (forall k, k <> "timeout"%string -> error_types s' !! k = error_types used_status !! k)
    /\ last_error s' = Some ("Error type: " ++ "timeout")%string
    /\ success_streak s' = 0%Z
    /\ last_used s' = Some 7
    /\ total_failures s' = (total_failures used_status + 1)%Z).
Proof.
  apply (failure_is_recorded (RT := PyModel.runtime) 7 2 "timeout" None used_manager
           used_status).
  - reflexivity.
  - by eexists.
Defined.

(** * The plain manager of [api_manager.py] *)

(** Reads and assignments of a status of the plain manager. *)
Ltac basic_fields :=
  cbv beta zeta delta
    [Basic.mark_failure Basic.mark_rate_limited Basic.mark_success
     Basic._update_health_score Basic.set_health_score
     Basic.set_rate_limited_until Basic.set_consecutive_failures];
  cbn [Basic.failures Basic.consecutive_failures Basic.rate_limited_until
       Basic.last_success Basic.total_requests Basic.total_failures
       Basic.health_score Basic.cooldown_multiplier Basic.last_used].

(** X11.  In [AutoXAIManager.run] the status code 403 is in the list of
    the rate-limit branch, which comes first: a 403 reply is handled as a
    rate limit, like a 429, and the authentication branch is left with
    401 alone, where it counts three consecutive failures at once. *)
Theorem forbidden_handled_as_rate_limit (now : time) (s : Basic.status) :
  Basic.handle_status_code now 403 s = Basic.mark_failure now true s
  /\ Basic.handle_status_code now 403 s = Basic.handle_status_code now 429 s
  /\ Basic.consecutive_failures (Basic.handle_status_code now 401 s)
     = (Basic.consecutive_failures s + 3)%Z.
Proof.
  split; [reflexivity|]. split; [reflexivity|].
  change (Basic.handle_status_code now 401 s)
    with (Basic._update_health_score (- (25))
            (Basic.mark_failure now false
               (Basic.set_consecutive_failures (Basic.consecutive_failures s + 2)%Z s))).
  basic_fields. destruct (3 <=? _)%Z; basic_fields; lia.
Qed.

(** X12.  The third failure in a row that is no rate limit takes the
    account out of use: [rate_limited_until] is set to
    [min(30, 5 * consecutive_failures)] minutes from now, between 15 and
    30 minutes, and [is_account_available] is false before that time and
    true from it on. *)
Theorem third_failure_disables_account (now : time) (s : Basic.status) :
  (2 <= Basic.consecutive_failures s)%Z ->
  let s' := Basic.mark_failure now false s in
  let minutes := inject_Z (Z.min 30 (5 * (Basic.consecutive_failures s + 1))) in
  Basic.consecutive_failures s' = (Basic.consecutive_failures s + 1)%Z
  /\ Basic.rate_limited_until s' = Some (now + minutes)
  /\ 15 <= minutes /\ minutes <= 30
  /\ (forall t, t < now + minutes -> Basic.is_account_available t s' = false)
  /\ (forall t, now + minutes <= t -> Basic.is_account_available t s' = true).
Proof.
  intros Hcf s' minutes. subst s'.
  assert (E : Basic.mark_failure now false s
              = Basic.set_rate_limited_until (Some (now + minutes))
                  (Basic._update_health_score (- (10))
                     (Basic.mkStatus (Basic.failures s + 1)%Z
                        (Basic.consecutive_failures s + 1)%Z
                        (Basic.rate_limited_until s) (Basic.last_success s)
                        (Basic.total_requests s) (Basic.total_failures s + 1)%Z
                        (Basic.health_score s) (Basic.cooldown_multiplier s)
                        (Some now)))).
  { subst minutes. basic_fields.
    destruct (3 <=? Basic.consecutive_failures s + 1)%Z eqn:E3; [reflexivity|].
    apply Z.leb_gt in E3. lia. }
  rewrite E. unfold Basic.is_account_available. basic_fields.
  split; [reflexivity|]. split; [reflexivity|].
  assert (H15 : (15 <= Z.min 30 (5 * (Basic.consecutive_failures s + 1)))%Z) by lia.
  assert (H30 : (Z.min 30 (5 * (Basic.consecutive_failures s + 1)) <= 30)%Z) by lia.
  split; [unfold minutes, Qle, inject_Z; cbn [Qnum Qden]; lia|].
  split; [unfold minutes, Qle, inject_Z; cbn [Qnum Qden]; lia|].
  split; intros t Ht.
  - apply Qltb_lt in Ht. unfold Qgtb. by rewrite Ht.
  - apply Qltb_ge in Ht. unfold Qgtb. by rewrite Ht.
Qed.

Lemma third_failure_disables_account_witness :
  let s' := Basic.mark_failure 2 false two_failures in
  let minutes := inject_Z (Z.min 30 (5 * (Basic.consecutive_failures two_failures + 1))) in
  Basic.consecutive_failures s' = (Basic.consecutive_failures two_failures + 1)%Z
  /\ Basic.rate_limited_until s' = Some (2 + minutes)
  /\ 15 <= minutes /\ minutes <= 30
  /\ (forall t, t < 2 + minutes -> Basic.is_account_available t s' = false)
  /\ (forall t, 2 + minutes <= t -> Basic.is_account_available t s' = true).
Proof.
  apply (third_failure_disables_account 2 two_failures). vm_compute. discriminate.
Defined.

(** X13.  A failure passed to [mark_failure] with [is_rate_limit] is
    counted by [mark_failure] and again by [mark_rate_limited], to which
    it is handed: the three failure counters grow by 2 and the health
    score takes both penalties, each followed by the clamp; the rate limit
    lasts [RATE_LIMIT_COOLDOWN] minutes times the new cooldown
    multiplier. *)
Theorem plain_rate_limit_counted_twice (now : time) (s : Basic.status) :
  let s' := Basic.mark_failure now true s in
  Basic.consecutive_failures s' = (Basic.consecutive_failures s + 2)%Z
  /\ Basic.failures s' = (Basic.failures s + 2)%Z
  /\ Basic.total_failures s' = (Basic.total_failures s + 2)%Z
  /\ Basic.cooldown_multiplier s' = Qmin 5 (Basic.cooldown_multiplier s * (3 # 2))
  /\ Basic.rate_limited_until s'
     = Some (now + RATE_LIMIT_COOLDOWN * Qmin 5 (Basic.cooldown_multiplier s * (3 # 2)))
  /\ Basic.health_score s'
     = Basic.update_health (- (15)) (Basic.update_health (- (10)) (Basic.health_score s))
  /\ Basic.last_used s' = Some now.
Proof.
  intros s'. subst s'. basic_fields.
  repeat split; try reflexivity; lia.
Qed.
